(** * Adaptive testing service: engine, session coordinator and pool cache

    A shallow embedding of the serving core of the adaptive testing
    service (app/models/adaptive_engine.py, app/services/*.py and
    app/main.py) together with the properties of its specification.

    Conventions of the embedding.
    - Python floats are real numbers: the arithmetic of the engine is
      exact, [expit] is the logistic function on [R].  The selection of
      the next question, which turns on comparisons of computed values,
      is also given over floats, with rounding, overflow and nan
      ([FloatEngine]).
    - A Python dict with a fixed set of keys is a record; a key that may
      be absent is an [option] field.  Dicts used as maps are [gmap]s.
      A JSON null is not told apart from an absent key, and the values of
      a key have the type the code expects of them.
    - [datetime.now()] is an integer number of seconds, passed to every
      operation that reads the clock; a request is served at one instant.
    - A call that can raise returns an [outcome].  The clients of the hot
      and of the warm store raise on every call while their server is
      unreachable; on a reachable server only [SETEX] raises, when it is
      given a lifetime that is not positive.
    - Requests are served one after the other. *)

From Stdlib Require Import Reals Lra Lia ZArith Sorted.
From stdpp Require Import gmap strings list.

Local Open Scope R_scope.

(** ** Numeric helpers (numpy / scipy) *)

(** [scipy.special.expit]. *)
Definition expit (x : R) : R := 1 / (1 + exp (- x)).

(** [np.clip(x, lo, hi)], that is [minimum(maximum(x, lo), hi)]. *)
Definition np_clip (x lo hi : R) : R := Rmin (Rmax x lo) hi.

(** [np.dot] on two one-dimensional arrays: defined when the shapes agree,
    a [ValueError] ([None]) otherwise. *)
Fixpoint np_dot (u v : list R) : option R :=
  match u, v with
  | [], [] => Some 0
  | x :: u', y :: v' =>
      match np_dot u' v' with
      | Some d => Some (x * y + d)
      | None => None
      end
  | _, _ => None
  end.

(** Elementwise [u + v] of two one-dimensional arrays with numpy
    broadcasting: equal shapes are added pointwise, a one-element array is
    stretched over the other, anything else is a [ValueError]. *)
Fixpoint zip_add (u v : list R) : list R :=
  match u, v with
  | x :: u', y :: v' => (x + y) :: zip_add u' v'
  | _, _ => []
  end.

Definition np_add (u v : list R) : option (list R) :=
  if decide (length u = length v) then Some (zip_add u v)
  else match u, v with
       | [x], _ => Some (map (fun y => x + y) v)
       | _, [y] => Some (map (fun x => x + y) u)
       | _, _ => None
       end.

(** [s * v] for a scalar [s]. *)
Definition np_scale (s : R) (v : list R) : list R := map (fun y => s * y) v.

(** [np.mean]: the mean of an empty array is [nan], here [None]. *)
Definition np_sum (v : list R) : R := fold_right Rplus 0 v.

Definition np_mean (v : list R) : option R :=
  match v with
  | [] => None
  | _ => Some (np_sum v / INR (length v))
  end.

(** [np.var]: the population variance. *)
Definition np_var (v : list R) : option R :=
  match np_mean v with
  | Some m => np_mean (map (fun x => (x - m) * (x - m)) v)
  | None => None
  end.

(** ** Data model *)

(** A question dict.  [id] is always present; the other keys read by the
    engine are optional and defaulted with [dict.get]. *)
Record Question := {
  q_id : string;
  q_content : string;
  q_options : list string;
  q_correct_answer : option string;
  q_concepts : option (list R);
  q_difficulty : option R;
  q_discrimination : option R;
  q_guessing : option R
}.

(** A row of [test_responses], as the engine sees it. *)
Record Response := {
  r_student_id : string;
  r_session_id : string;
  r_question_id : string;
  r_response : Z;
  r_proficiency_before : list R;
  r_proficiency_after : list R;
  r_timestamp : Z
}.

(** The end-criteria dict of a session. *)
Record EndCriteria := {
  ec_type : option string;
  ec_max_questions : option Z;
  ec_min_questions : option Z;
  ec_precision_threshold : option R;
  ec_classification_threshold : option R
}.

(** ** The adaptive engine (app/models/adaptive_engine.py) *)

Module AdaptiveEngine.

(** [q_matrix.get(question_id, [1] * len(proficiency))]. *)
Definition q_vector_of (q_matrix : gmap string (list R)) (question_id : string)
    (proficiency : list R) : list R :=
  default (repeat 1 (length proficiency)) (q_matrix !! question_id).

Definition discrimination_of (question : Question) : R :=
  default 1 (q_discrimination question).

Definition _calculate_probability (proficiency : list R) (question : Question)
    (q_matrix : gmap string (list R)) : R :=
  let q_vector := q_vector_of q_matrix (q_id question) proficiency in
  let discrimination := discrimination_of question in
  let difficulty := default 0 (q_difficulty question) in
  match np_dot q_vector proficiency with
  | Some d =>
      let linear_term := discrimination * d - difficulty in
      np_clip (expit linear_term) (1 / 100) (99 / 100)
  | None => 1 / 2
  end.

Definition _calculate_information (question : Question) (proficiency : list R)
    (q_matrix : gmap string (list R)) : R :=
  let prob := _calculate_probability proficiency question q_matrix in
  let discrimination := discrimination_of question in
  discrimination ^ 2 * prob * (1 - prob).

(** The selection loop: [best] and [max_info] are the loop variables. *)
Fixpoint select_loop (available : list Question) (proficiency : list R)
    (q_matrix : gmap string (list R)) (max_info : R) (best : Question) : Question :=
  match available with
  | [] => best
  | question :: rest =>
      let info := _calculate_information question proficiency q_matrix in
      if Rlt_dec max_info info
      then select_loop rest proficiency q_matrix info question
      else select_loop rest proficiency q_matrix max_info best
  end.

Definition used_questions (responses : list Response) : gset string :=
  list_to_set (map r_question_id responses).

Definition available_questions (questions : list Question)
    (responses : list Response) : list Question :=
  filter (fun q => q_id q ∉ used_questions responses) questions.

(** [select_next_question]; the empty dict is [None]. *)
Definition select_next_question (questions : list Question)
    (q_matrix : gmap string (list R)) (proficiency : list R)
    (responses : list Response) : option Question :=
  match available_questions questions responses with
  | [] => None
  | first :: rest =>
      Some (select_loop (first :: rest) proficiency q_matrix (-1) first)
  end.

(** [update_ability]; a broadcasting failure is caught and the current
    proficiency returned. *)
Definition update_ability (learning_rate : R) (current_proficiency : list R)
    (question : Question) (response : Z) (q_matrix : gmap string (list R)) : list R :=
  let q_vector := q_vector_of q_matrix (q_id question) current_proficiency in
  let prob := _calculate_probability current_proficiency question q_matrix in
  let error := IZR response - prob in
  let discrimination := discrimination_of question in
  let gradient := np_scale (error * prob * (1 - prob) * discrimination) q_vector in
  match np_add current_proficiency (np_scale learning_rate gradient) with
  | Some new_proficiency => map (fun x => np_clip x (-3) 3) new_proficiency
  | None => current_proficiency
  end.

(** [_estimate_precision].  [None] stands for a result that is not a real
    number: the [IndexError] of a snapshot shorter than the proficiency
    vector, or [nan].  Either way [should_continue] answers [False]. *)
Definition last_n {A} (n : nat) (l : list A) : list A :=
  drop (length l - n) l.

Definition concept_column (i : nat) (recent : list (list R)) : option (list R) :=
  mapM (fun p : list R => p !! i) recent.

Definition _estimate_precision (responses : list Response)
    (proficiency : list R) : option R :=
  if decide (length responses < 2)%nat then Some 1
  else
    let recent_proficiencies := map r_proficiency_after (last_n 5 responses) in
    if decide (length recent_proficiencies < 2)%nat then Some 1
    else
      variances ← mapM (fun i => concept_column i recent_proficiencies ≫= np_var)
                       (seq 0 (length proficiency));
      avg_variance ← match variances with [] => Some 1 | _ => np_mean variances end;
      Some (1 / (1 + avg_variance)).

(** [_estimate_classification_confidence]; [np.mean] of no distances is
    [nan], which Python's [min] passes on. *)
Definition _estimate_classification_confidence (proficiency : list R) : option R :=
  avg_distance ← np_mean (map Rabs proficiency);
  Some (Rmin (avg_distance / 2) 1).

Definition should_continue (responses : list Response) (proficiency : list R)
    (end_criteria : EndCriteria) : bool :=
  let num_responses := Z.of_nat (length responses) in
  let criteria_type := default "fixed_length"%string (ec_type end_criteria) in
  let min_questions := default 5%Z (ec_min_questions end_criteria) in
  if bool_decide (num_responses < min_questions)%Z then true
  else
    let max_questions := default 20%Z (ec_max_questions end_criteria) in
    if bool_decide (num_responses >= max_questions)%Z then false
    else if bool_decide (criteria_type = "fixed_length"%string) then
      bool_decide (num_responses < max_questions)%Z
    else if bool_decide (criteria_type = "precision"%string) then
      let precision_threshold :=
        default (3 / 10) (ec_precision_threshold end_criteria) in
      match _estimate_precision responses proficiency with
      | Some current_precision =>
          if Rgt_dec current_precision precision_threshold then true else false
      | None => false
      end
    else if bool_decide (criteria_type = "classification"%string) then
      let classification_threshold :=
        default (8 / 10) (ec_classification_threshold end_criteria) in
      match _estimate_classification_confidence proficiency with
      | Some confidence =>
          if Rlt_dec confidence classification_threshold then true else false
      | None => false
      end
    else false.

End AdaptiveEngine.

(** ** The selection in floating point

    The engine above computes in exact arithmetic.  Which question
    [select_next_question] returns is decided by comparing computed
    informations, and there the rounding of the float operations, an
    overflow and a nan decide.  The selection path of the engine is
    therefore given a second time, over Python's floats, with the float
    operations left open: whatever they round to, they are an instance of
    [FloatArith]. *)

Module PyFloat.

(** A float: a finite number, given as the real number it stands for, an
    infinity, or nan. *)
Inductive float :=
  | Finite (x : R)
  | PosInf
  | NegInf
  | NaN.

(** [x > y], false whenever a side is nan. *)
Definition gt (x y : float) : bool :=
  match x, y with
  | Finite a, Finite b => if Rlt_dec b a then true else false
  | PosInf, Finite _ | PosInf, NegInf | Finite _, NegInf => true
  | _, _ => false
  end.

(** [np.maximum], [np.minimum] and [np.clip]: a nan is passed on. *)
Definition maximum (x y : float) : float :=
  match x, y with
  | NaN, _ | _, NaN => NaN
  | _, _ => if gt y x then y else x
  end.

Definition minimum (x y : float) : float :=
  match x, y with
  | NaN, _ | _, NaN => NaN
  | _, _ => if gt x y then y else x
  end.

Definition clip (x lo hi : float) : float := minimum (maximum x lo) hi.

(** Zero or above, or nan: what a product of squares and probabilities
    can be. *)
Definition not_negative (x : float) : Prop :=
  match x with
  | Finite a => 0 <= a
  | PosInf | NaN => True
  | NegInf => False
  end.

(** The float operations of the selection path.  [float_pow x n] is
    [x ** n], which raises [OverflowError] ([None]) when the power of a
    finite float is out of range; the other operations return an infinity
    or nan instead.  [float_dot] is [np.dot] on two arrays of one length.
    The laws are the sign rules of IEEE 754 arithmetic; nothing is said of
    how the operations round. *)
Class FloatArith := {
  float_dot : list R -> list R -> float;
  float_mul : float -> float -> float;
  float_sub : float -> float -> float;
  float_expit : float -> float;
  float_pow : float -> nat -> option float;
  float_pow_even x y : float_pow x 2 = Some y -> not_negative y;
  float_mul_sign x y :
    not_negative x -> not_negative y -> not_negative (float_mul x y);
  float_sub_sign x y : gt y x = false -> not_negative (float_sub x y)
}.

End PyFloat.

Module FloatEngine.
Import PyFloat.

Section Selection.
Context `{FloatArith}.

Definition _calculate_probability (proficiency : list R) (question : Question)
    (q_matrix : gmap string (list R)) : float :=
  let q_vector :=
    default (repeat 1 (length proficiency)) (q_matrix !! q_id question) in
  let discrimination := default 1 (q_discrimination question) in
  let difficulty := default 0 (q_difficulty question) in
  if decide (length q_vector = length proficiency) then
    let linear_term :=
      float_sub (float_mul (Finite discrimination)
                   (float_dot q_vector proficiency))
                (Finite difficulty) in
    clip (float_expit linear_term) (Finite (1 / 100)) (Finite (99 / 100))
  else Finite (1 / 2).

Definition _calculate_information (question : Question) (proficiency : list R)
    (q_matrix : gmap string (list R)) : float :=
  let prob := _calculate_probability proficiency question q_matrix in
  let discrimination := default 1 (q_discrimination question) in
  match float_pow (Finite discrimination) 2 with
  | Some square => float_mul (float_mul square prob) (float_sub (Finite 1) prob)
  | None => Finite 0
  end.

Fixpoint select_loop (available : list Question) (proficiency : list R)
    (q_matrix : gmap string (list R)) (max_info : float) (best : Question)
    : Question :=
  match available with
  | [] => best
  | question :: rest =>
      let info := _calculate_information question proficiency q_matrix in
      if gt info max_info
      then select_loop rest proficiency q_matrix info question
      else select_loop rest proficiency q_matrix max_info best
  end.

Definition select_next_question (questions : list Question)
    (q_matrix : gmap string (list R)) (proficiency : list R)
    (responses : list Response) : option Question :=
  match AdaptiveEngine.available_questions questions responses with
  | [] => None
  | first :: rest =>
      Some (select_loop (first :: rest) proficiency q_matrix (Finite (-1)) first)
  end.

(** The state of the selection loop after the questions [pre]: either no
    question has replaced the initial [-1], the informations so far all
    being nan, or [best] is the first question of [pre] with the greatest
    information. *)
Definition loop_state (proficiency : list R) (q_matrix : gmap string (list R))
    (first : Question) (pre : list Question) (max_info : float)
    (best : Question) : Prop :=
  let info q := _calculate_information q proficiency q_matrix in
  (max_info = Finite (-1) /\ best = first /\
   forall j q, pre !! j = Some q -> info q = NaN)
  \/ (max_info = info best /\ gt (info best) (Finite (-1)) = true /\
      exists i, pre !! i = Some best /\
        (forall j q, pre !! j = Some q -> gt (info q) (info best) = false) /\
        (forall j q, pre !! j = Some q -> (j < i)%nat ->
           gt (info best) (info q) = true \/ info q = NaN)).

End Selection.

(** Exact arithmetic on the finite floats, in which [**] raises
    [OverflowError] from the magnitude [overflow] on when one is given.
    No operation of it yields an infinity; an operand that is not finite
    gives nan. *)
Definition exact_pow (overflow : option R) (x : float) (n : nat) : option float :=
  match x with
  | Finite a =>
      match overflow with
      | Some bound =>
          if Rlt_dec (Rabs (a ^ n)) bound then Some (Finite (a ^ n)) else None
      | None => Some (Finite (a ^ n))
      end
  | _ => Some NaN
  end.

Definition exact_binary (op : R -> R -> R) (x y : float) : float :=
  match x, y with
  | Finite a, Finite b => Finite (op a b)
  | _, _ => NaN
  end.

Definition exact_expit (x : float) : float :=
  match x with
  | Finite a => Finite (expit a)
  | _ => NaN
  end.

Definition exact_dot (u v : list R) : float := Finite (default 0 (np_dot u v)).

Definition exact_arith (overflow : option R) : FloatArith.
Proof.
  refine {| float_dot := exact_dot;
            float_mul := exact_binary Rmult;
            float_sub := exact_binary Rminus;
            float_expit := exact_expit;
            float_pow := exact_pow overflow |}.
  - intros [a| | |] y; simpl; try (by intros [= <-]).
    destruct overflow as [bound|]; [destruct (Rlt_dec _ _)|];
      intros [= <-]; apply pow2_ge_0.
  - intros [a| | |] [b| | |]; simpl; try done. apply Rmult_le_pos.
  - intros [a| | |] [b| | |]; simpl; try done.
    destruct (Rlt_dec a b); [done|]. intros _. lra.
Defined.

(** The least magnitude that binary64 rounds to an infinity, half a unit
    in the last place above the largest finite float
    [(2 - 2^-52) * 2^1023]. *)
Definition binary64_overflow : R := 2 ^ 1024 - 2 ^ 970.

End FloatEngine.

(** ** Calls that may raise *)

Inductive outcome (A : Type) : Type :=
  | Returns (a : A)
  | Raises.
Arguments Returns {A} a.
Arguments Raises {A}.

(** ** Hot store (app/services/redis_service.py) *)

(** The hot session state dict written by [start_test]. *)
Record SessionState := {
  st_student_id : string;
  st_question_pool_id : option string;
  st_current_proficiency : list R;
  st_next_question_id : string;
  st_status : string;
  st_questions_answered : Z;
  st_correct_count : Z;
  st_end_criteria : EndCriteria;
  st_last_activity : option Z
}.

(** The canonical question pool dict. *)
Record Pool := {
  pool_id : string;
  pool_level : string;
  pool_level_id : string;
  pool_attribute_count : Z;
  pool_attributes : list string;
  pool_questions : list Question;
  pool_total_questions : Z;
  pool_fetched_at : option Z;
  pool_cache_tier : option string;
  pool_cached_at : option Z
}.

(** What a key of the hot store holds.  Values are JSON strings in the
    source; [json.dumps] followed by [json.loads] is the identity on the
    dicts stored, so the decoded value is kept. *)
Inductive RedisValue :=
  | RSession (state : SessionState)
  | RLock
  | RQuestion (question : Question)
  | RPool (pool : Pool).

(** One keyspace; every key carries the instant it expires at.  When the
    server is unreachable every client call raises. *)
Record Redis := {
  redis_up : bool;
  redis_keys : gmap string (Z * RedisValue)
}.

Module RedisClient.

Definition alive (now : Z) (entry : Z * RedisValue) : bool :=
  bool_decide (now < entry.1)%Z.

Definition get (key : string) (now : Z) (r : Redis) : outcome (option RedisValue) :=
  if redis_up r then
    match redis_keys r !! key with
    | Some entry => Returns (if alive now entry then Some entry.2 else None)
    | None => Returns None
    end
  else Raises.

(** [SETEX key ttl value]: the server refuses a lifetime that is not
    positive, which the client raises as an error. *)
Definition setex (key : string) (ttl : Z) (value : RedisValue) (now : Z)
    (r : Redis) : outcome Redis :=
  if redis_up r then
    if bool_decide (0 < ttl)%Z then
      Returns {| redis_up := true;
                 redis_keys := <[key := ((now + ttl)%Z, value)]> (redis_keys r) |}
    else Raises
  else Raises.

(** [SET key value NX EX ttl]: the reply says whether the key was set. *)
Definition set_nx (key : string) (value : RedisValue) (ttl : Z) (now : Z)
    (r : Redis) : outcome (bool * Redis) :=
  match get key now r with
  | Returns (Some _) => Returns (false, r)
  | Returns None =>
      Returns (true, {| redis_up := redis_up r;
                        redis_keys := <[key := ((now + ttl)%Z, value)]> (redis_keys r) |})
  | Raises => Raises
  end.

(** [DEL key]: the reply is the number of keys removed. *)
Definition delete (key : string) (now : Z) (r : Redis) : outcome (Z * Redis) :=
  match get key now r with
  | Returns found =>
      Returns (match found with Some _ => 1%Z | None => 0%Z end,
               {| redis_up := redis_up r; redis_keys := delete key (redis_keys r) |})
  | Raises => Raises
  end.

End RedisClient.

Module RedisService.

Definition session_key (session_id : string) : string :=
  "session:" +:+ session_id +:+ ":state".

Definition lock_key (session_id question_id : string) : string :=
  "lock:" +:+ session_id +:+ ":" +:+ question_id.

Definition pool_key (pool_id : string) : string := "pool:" +:+ pool_id.

Definition question_key (question_id : string) : string :=
  "question:" +:+ question_id.

Definition set_last_activity (now : Z) (state : SessionState) : SessionState :=
  {| st_student_id := st_student_id state;
     st_question_pool_id := st_question_pool_id state;
     st_current_proficiency := st_current_proficiency state;
     st_next_question_id := st_next_question_id state;
     st_status := st_status state;
     st_questions_answered := st_questions_answered state;
     st_correct_count := st_correct_count state;
     st_end_criteria := st_end_criteria state;
     st_last_activity := Some now |}.

(** [store_session_state]: stamps [last_activity] and writes the state
    with the 30-minute inactivity timeout. *)
Definition store_session_state (session_id : string) (state : SessionState)
    (now : Z) (r : Redis) : bool * Redis :=
  let state := set_last_activity now state in
  match RedisClient.setex (session_key session_id) (30 * 60) (RSession state) now r with
  | Returns r' => (true, r')
  | Raises => (false, r)
  end.

Definition get_session_state (session_id : string) (now : Z) (r : Redis)
    : option SessionState :=
  match RedisClient.get (session_key session_id) now r with
  | Returns (Some (RSession state)) => Some state
  | _ => None
  end.

Definition update_session_proficiency (session_id : string)
    (proficiency : list R) (questions_answered : Z) (now : Z) (r : Redis)
    : bool * Redis :=
  match get_session_state session_id now r with
  | None => (false, r)
  | Some state =>
      let state :=
        {| st_student_id := st_student_id state;
           st_question_pool_id := st_question_pool_id state;
           st_current_proficiency := proficiency;
           st_next_question_id := st_next_question_id state;
           st_status := st_status state;
           st_questions_answered := questions_answered;
           st_correct_count := st_correct_count state;
           st_end_criteria := st_end_criteria state;
           st_last_activity := Some now |} in
      store_session_state session_id state now r
  end.

Definition delete_session_state (session_id : string) (now : Z) (r : Redis)
    : bool * Redis :=
  match RedisClient.delete (session_key session_id) now r with
  | Returns (n, r') => (bool_decide (n <> 0%Z), r')
  | Raises => (false, r)
  end.

(** [acquire_submission_lock] with its default timeout of 5 seconds. *)
Definition acquire_submission_lock (session_id question_id : string) (now : Z)
    (r : Redis) : bool * Redis :=
  match RedisClient.set_nx (lock_key session_id question_id) RLock 5 now r with
  | Returns (result, r') => (result, r')
  | Raises => (false, r)
  end.

Definition release_submission_lock (session_id question_id : string) (now : Z)
    (r : Redis) : bool * Redis :=
  match RedisClient.delete (lock_key session_id question_id) now r with
  | Returns (n, r') => (bool_decide (n <> 0%Z), r')
  | Raises => (false, r)
  end.

(** [cache_question_pool]: the metadata is written into the caller's dict,
    so the stamped pool is returned along with the result. *)
Definition stamp_pool (tier : string) (now : Z) (pool : Pool) : Pool :=
  {| pool_id := pool_id pool; pool_level := pool_level pool;
     pool_level_id := pool_level_id pool;
     pool_attribute_count := pool_attribute_count pool;
     pool_attributes := pool_attributes pool;
     pool_questions := pool_questions pool;
     pool_total_questions := pool_total_questions pool;
     pool_fetched_at := pool_fetched_at pool;
     pool_cache_tier := Some tier; pool_cached_at := Some now |}.

Definition cache_question_pool (pool_id : string) (pool_data : Pool)
    (ttl_hours : Z) (now : Z) (r : Redis) : bool * Pool * Redis :=
  let pool_data := stamp_pool "redis" now pool_data in
  match RedisClient.setex (pool_key pool_id) (ttl_hours * 3600) (RPool pool_data) now r with
  | Returns r' => (true, pool_data, r')
  | Raises => (false, pool_data, r)
  end.

Definition get_cached_question_pool (pool_id : string) (now : Z) (r : Redis)
    : option Pool :=
  match RedisClient.get (pool_key pool_id) now r with
  | Returns (Some (RPool pool)) => Some pool
  | _ => None
  end.

Definition strip_correct_answer (question : Question) : Question :=
  {| q_id := q_id question; q_content := q_content question;
     q_options := q_options question; q_correct_answer := None;
     q_concepts := q_concepts question; q_difficulty := q_difficulty question;
     q_discrimination := q_discrimination question;
     q_guessing := q_guessing question |}.

(** [cache_question] with its default lifetime of one hour; the correct
    answer is removed before caching. *)
Definition cache_question (question_id : string) (question_data : Question)
    (now : Z) (r : Redis) : bool * Redis :=
  match RedisClient.setex (question_key question_id) 3600
          (RQuestion (strip_correct_answer question_data)) now r with
  | Returns r' => (true, r')
  | Raises => (false, r)
  end.

Definition get_cached_question (question_id : string) (now : Z) (r : Redis)
    : option Question :=
  match RedisClient.get (question_key question_id) now r with
  | Returns (Some (RQuestion question)) => Some question
  | _ => None
  end.

Definition invalidate_question_pool (pool_id : string) (now : Z) (r : Redis)
    : bool * Redis :=
  match RedisClient.delete (pool_key pool_id) now r with
  | Returns (deleted, r') => (bool_decide (deleted <> 0%Z), r')
  | Raises => (false, r)
  end.

(** *** Cleanup *)

(** The glob ['session:*:state'] of [KEYS]: the literal prefix, any
    characters, the literal suffix. *)
Fixpoint strip_prefix (prefix s : string) : option string :=
  match prefix, s with
  | EmptyString, _ => Some s
  | String a prefix', String b s' =>
      if Ascii.eqb a b then strip_prefix prefix' s' else None
  | String _ _, EmptyString => None
  end.

Fixpoint ends_with (suffix s : string) : bool :=
  String.eqb s suffix
  || match s with
     | String _ s' => ends_with suffix s'
     | EmptyString => false
     end.

Definition matches_session_pattern (key : string) : bool :=
  match strip_prefix "session:" key with
  | Some rest => ends_with ":state" rest
  | None => false
  end.

(** [self.client.keys('session:*:state')]: the live keys that match. *)
Definition session_keys (now : Z) (r : Redis) : outcome (list string) :=
  if redis_up r then
    Returns
      (map fst
         (filter (fun item : string * (Z * RedisValue) =>
                    matches_session_pattern item.1 = true
                    /\ RedisClient.alive now item.2 = true)
                 (map_to_list (redis_keys r))))
  else Raises.

(** One turn of the loop of [cleanup_inactive_sessions]: whatever goes
    wrong with one key is caught and the loop goes on. *)
Definition cleanup_step (inactivity_threshold : Z) (now : Z) (acc : Z * Redis)
    (key : string) : Z * Redis :=
  let '(cleanup_count, r) := acc in
  match RedisClient.get key now r with
  | Returns (Some (RSession session_data)) =>
      match st_last_activity session_data with
      | Some last_activity =>
          let time_since_activity := (now - last_activity)%Z in
          if bool_decide (time_since_activity > inactivity_threshold)%Z then
            match RedisClient.delete key now r with
            | Returns (_, r') => ((cleanup_count + 1)%Z, r')
            | Raises => (cleanup_count, r)
            end
          else (cleanup_count, r)
      | None => (cleanup_count, r)
      end
  | _ => (cleanup_count, r)
  end.

Definition cleanup_inactive_sessions (inactivity_minutes : Z) (now : Z)
    (r : Redis) : Z * Redis :=
  let inactivity_threshold := (inactivity_minutes * 60)%Z in
  match session_keys now r with
  | Returns keys => foldl (cleanup_step inactivity_threshold now) (0%Z, r) keys
  | Raises => (0%Z, r)
  end.

(** What the loop looks for in an entry: a live session state whose
    [last_activity] lies more than the threshold back. *)
Definition inactive (inactivity_threshold now : Z) (entry : Z * RedisValue)
    : bool :=
  RedisClient.alive now entry
  && match entry.2 with
     | RSession session_data =>
         match st_last_activity session_data with
         | Some last_activity =>
             bool_decide (now - last_activity > inactivity_threshold)%Z
         | None => false
         end
     | _ => false
     end.

(** A bound on the lifetime of the session states of a store: each one
    that carries a [last_activity] expires at most [lifetime] seconds
    after it. *)
Definition session_lifetime_within (lifetime : Z) (r : Redis) : Prop :=
  forall key deadline state last_activity,
    redis_keys r !! key = Some (deadline, RSession state) ->
    st_last_activity state = Some last_activity ->
    (deadline <= last_activity + lifetime)%Z.

End RedisService.

(** ** Warm store (app/services/supabase_service.py) *)

Record StudentRow := {
  stu_id : string;
  stu_created_at : Z;
  stu_updated_at : Z
}.

Record ProficiencyRow := {
  pr_id : Z;
  pr_student_id : string;
  pr_concept_name : string;
  pr_proficiency_value : R;
  pr_confidence : R;
  pr_created_at : Z;
  pr_updated_at : Z
}.

Record SessionRow := {
  ses_id : string;
  ses_student_id : string;
  ses_question_pool_id : option string;
  ses_status : string;
  ses_initial_proficiency : list R;
  ses_final_proficiency : option (list R);
  ses_total_questions : Z;
  ses_correct_responses : Z;
  ses_accuracy : option R;
  ses_started_at : Z;
  ses_last_activity : Z;
  ses_completed_at : option Z
}.

Record PoolRow := {
  pm_id : string;
  pm_level : string;
  pm_level_id : string;
  pm_attribute_count : Z;
  pm_attributes : list string;
  pm_total_questions : Z;
  pm_fetched_at : option Z;
  pm_cached_at : Z;
  pm_expires_at : Z
}.

Record QuestionRow := {
  qr_pool_id : string;
  qr_question : Question
}.

(** The tables, in insertion order.  The code shows no constraint of the
    schema: [insert] appends, [upsert] replaces the row with the same id.
    When the service is unreachable every query raises. *)
Record Supabase := {
  db_up : bool;
  db_next_id : Z;
  students : list StudentRow;
  student_proficiencies : list ProficiencyRow;
  test_sessions : list SessionRow;
  test_responses : list Response;
  question_pools : list PoolRow;
  questions : list QuestionRow
}.

(** Stable insertion sort, for [.order(column)]. *)
Fixpoint insert_by {A} (leb : A -> A -> bool) (x : A) (l : list A) : list A :=
  match l with
  | [] => [x]
  | y :: l' => if leb x y then x :: l else y :: insert_by leb x l'
  end.

Definition order_by {A} (leb : A -> A -> bool) (l : list A) : list A :=
  foldr (insert_by leb) [] l.

(** [upsert]: replace the first row with the same key, else append. *)
Fixpoint upsert_row {A} (same : A -> A -> bool) (row : A) (table : list A) : list A :=
  match table with
  | [] => [row]
  | old :: table' =>
      if same old row then row :: table' else old :: upsert_row same row table'
  end.

Definition upsert_rows {A} (same : A -> A -> bool) (rows table : list A) : list A :=
  foldl (fun t row => upsert_row same row t) table rows.

Module SupabaseService.

(** [Config.SUPABASE_CACHE_EXPIRY], seven days unless the environment
    overrides it. *)
Definition SUPABASE_CACHE_EXPIRY : Z := 604800.

Definition with_students (db : Supabase) (t : list StudentRow) : Supabase :=
  {| db_up := db_up db; db_next_id := db_next_id db; students := t;
     student_proficiencies := student_proficiencies db;
     test_sessions := test_sessions db; test_responses := test_responses db;
     question_pools := question_pools db; questions := questions db |}.

Definition with_proficiencies (db : Supabase) (next_id : Z)
    (t : list ProficiencyRow) : Supabase :=
  {| db_up := db_up db; db_next_id := next_id; students := students db;
     student_proficiencies := t;
     test_sessions := test_sessions db; test_responses := test_responses db;
     question_pools := question_pools db; questions := questions db |}.

Definition with_sessions (db : Supabase) (t : list SessionRow) : Supabase :=
  {| db_up := db_up db; db_next_id := db_next_id db; students := students db;
     student_proficiencies := student_proficiencies db;
     test_sessions := t; test_responses := test_responses db;
     question_pools := question_pools db; questions := questions db |}.

Definition with_responses (db : Supabase) (t : list Response) : Supabase :=
  {| db_up := db_up db; db_next_id := db_next_id db; students := students db;
     student_proficiencies := student_proficiencies db;
     test_sessions := test_sessions db; test_responses := t;
     question_pools := question_pools db; questions := questions db |}.

Definition with_pool_cache (db : Supabase) (pools : list PoolRow)
    (qs : list QuestionRow) : Supabase :=
  {| db_up := db_up db; db_next_id := db_next_id db; students := students db;
     student_proficiencies := student_proficiencies db;
     test_sessions := test_sessions db; test_responses := test_responses db;
     question_pools := pools; questions := qs |}.

(** The rows of a student in [student_proficiencies], ordered by concept
    name. *)
Definition proficiency_rows (student_id : string) (db : Supabase)
    : list ProficiencyRow :=
  order_by (fun a b => String.leb (pr_concept_name a) (pr_concept_name b))
    (filter (fun row => pr_student_id row = student_id) (student_proficiencies db)).

(** [create_user_proficiency]: one row per concept name, in one insert. *)
Fixpoint proficiency_records (student_id : string) (next_id : Z)
    (proficiency : list R) (concept_names : list string) (now : Z)
    : list ProficiencyRow :=
  match concept_names with
  | [] => []
  | concept_name :: names =>
      {| pr_id := next_id; pr_student_id := student_id;
         pr_concept_name := concept_name;
         pr_proficiency_value := default (1 / 2) (head proficiency);
         pr_confidence := 0; pr_created_at := now; pr_updated_at := now |}
      :: proficiency_records student_id (next_id + 1) (tail proficiency) names now
  end.

Definition create_user_proficiency (student_id : string) (proficiency : list R)
    (concept_names : list string) (now : Z) (db : Supabase) : bool * Supabase :=
  if db_up db then
    let records :=
      proficiency_records student_id (db_next_id db) proficiency concept_names now in
    (true, with_proficiencies db (db_next_id db + Z.of_nat (length records))
             (student_proficiencies db ++ records))
  else (false, db).

(** [get_or_create_student]: the only service method that re-raises. *)
Definition get_or_create_student (student_id : string)
    (concept_names : list string) (now : Z) (db : Supabase)
    : outcome StudentRow * Supabase :=
  if db_up db then
    match filter (fun row => stu_id row = student_id) (students db) with
    | row :: _ => (Returns row, db)
    | [] =>
        let row := {| stu_id := student_id; stu_created_at := now;
                      stu_updated_at := now |} in
        let db := with_students db (students db ++ [row]) in
        let '(_, db) :=
          create_user_proficiency student_id
            (repeat (1 / 2) (length concept_names)) concept_names now db in
        (Returns row, db)
    end
  else (Raises, db).

Definition get_current_proficiency (student_id : string) (db : Supabase) : list R :=
  if db_up db then map pr_proficiency_value (proficiency_rows student_id db)
  else [].

(** [update_user_proficiency]: one update per fetched row, by row id. *)
Definition set_proficiency_value (id : Z) (value : R) (now : Z)
    (row : ProficiencyRow) : ProficiencyRow :=
  if bool_decide (pr_id row = id) then
    {| pr_id := pr_id row; pr_student_id := pr_student_id row;
       pr_concept_name := pr_concept_name row; pr_proficiency_value := value;
       pr_confidence := pr_confidence row; pr_created_at := pr_created_at row;
       pr_updated_at := now |}
  else row.

Definition update_user_proficiency (student_id : string) (proficiency : list R)
    (now : Z) (db : Supabase) : bool * Supabase :=
  if db_up db then
    let rows := proficiency_rows student_id db in
    if bool_decide (rows = [] \/ length rows <> length proficiency) then (false, db)
    else
      (true,
       with_proficiencies db (db_next_id db)
         (foldl (fun table '(record, value) =>
                   map (set_proficiency_value (pr_id record) value now) table)
                (student_proficiencies db) (zip rows proficiency)))
  else (false, db).

(** The updates of that loop as one row of the table undergoes them. *)
Definition row_updates (now : Z) (updates : list (ProficiencyRow * R))
    (row : ProficiencyRow) : ProficiencyRow :=
  foldl (fun row '(record, value) =>
           set_proficiency_value (pr_id record) value now row)
        row updates.

(** [store_response]: a plain insert into [test_responses]. *)
Definition store_response (student_id session_id question_id : string)
    (response : Z) (proficiency_before proficiency_after : list R) (now : Z)
    (db : Supabase) : bool * Supabase :=
  if db_up db then
    let data :=
      {| r_student_id := student_id; r_session_id := session_id;
         r_question_id := question_id; r_response := response;
         r_proficiency_before := proficiency_before;
         r_proficiency_after := proficiency_after; r_timestamp := now |} in
    (true, with_responses db (test_responses db ++ [data]))
  else (false, db).

Definition get_user_responses (student_id : string) (session_id : option string)
    (db : Supabase) : list Response :=
  if db_up db then
    let of_student :=
      filter (fun row => r_student_id row = student_id) (test_responses db) in
    let selected :=
      match session_id with
      | Some sid =>
          if bool_decide (sid = "") then of_student
          else filter (fun row => r_session_id row = sid) of_student
      | None => of_student
      end in
    order_by (fun a b => (r_timestamp a <=? r_timestamp b)%Z) selected
  else [].

Definition create_session (session_id student_id : string)
    (question_pool_id : option string) (initial_proficiency : list R) (now : Z)
    (db : Supabase) : bool * Supabase :=
  if db_up db then
    let session_data :=
      {| ses_id := session_id; ses_student_id := student_id;
         ses_question_pool_id := question_pool_id; ses_status := "active";
         ses_initial_proficiency := initial_proficiency;
         ses_final_proficiency := None; ses_total_questions := 0;
         ses_correct_responses := 0; ses_accuracy := None;
         ses_started_at := now; ses_last_activity := now;
         ses_completed_at := None |} in
    (true, with_sessions db (test_sessions db ++ [session_data]))
  else (false, db).

Definition get_session (session_id : string) (db : Supabase) : option SessionRow :=
  if db_up db then
    head (filter (fun row => ses_id row = session_id) (test_sessions db))
  else None.

Definition touch_session (session_id : string) (now : Z) (row : SessionRow)
    : SessionRow :=
  if bool_decide (ses_id row = session_id) then
    {| ses_id := ses_id row; ses_student_id := ses_student_id row;
       ses_question_pool_id := ses_question_pool_id row;
       ses_status := ses_status row;
       ses_initial_proficiency := ses_initial_proficiency row;
       ses_final_proficiency := ses_final_proficiency row;
       ses_total_questions := ses_total_questions row;
       ses_correct_responses := ses_correct_responses row;
       ses_accuracy := ses_accuracy row;
       ses_started_at := ses_started_at row; ses_last_activity := now;
       ses_completed_at := ses_completed_at row |}
  else row.

Definition update_session_activity (session_id : string) (now : Z)
    (db : Supabase) : bool * Supabase :=
  if db_up db then
    (true, with_sessions db (map (touch_session session_id now) (test_sessions db)))
  else (false, db).

(** [correct / total if total > 0 else 0]. *)
Definition accuracy_of (correct total : Z) : R :=
  if bool_decide (total > 0)%Z then IZR correct / IZR total else 0.

Definition finish_session (session_id : string) (final_proficiency : list R)
    (total_questions correct_responses : Z) (now : Z) (row : SessionRow)
    : SessionRow :=
  if bool_decide (ses_id row = session_id) then
    {| ses_id := ses_id row; ses_student_id := ses_student_id row;
       ses_question_pool_id := ses_question_pool_id row;
       ses_status := "completed";
       ses_initial_proficiency := ses_initial_proficiency row;
       ses_final_proficiency := Some final_proficiency;
       ses_total_questions := total_questions;
       ses_correct_responses := correct_responses;
       ses_accuracy := Some (accuracy_of correct_responses total_questions);
       ses_started_at := ses_started_at row;
       ses_last_activity := ses_last_activity row;
       ses_completed_at := Some now |}
  else row.

Definition complete_session (session_id : string) (final_proficiency : list R)
    (total_questions correct_responses : Z) (now : Z) (db : Supabase)
    : bool * Supabase :=
  if db_up db then
    (true,
     with_sessions db
       (map (finish_session session_id final_proficiency total_questions
               correct_responses now) (test_sessions db)))
  else (false, db).

(** The question dict built from a row by [get_questions_by_pool] and
    [get_question_by_id]: no [guessing] key, defaults for difficulty and
    discrimination. *)
Definition question_of_row (row : QuestionRow) : Question :=
  let question := qr_question row in
  {| q_id := q_id question; q_content := q_content question;
     q_options := q_options question;
     q_correct_answer := q_correct_answer question;
     q_concepts := q_concepts question;
     q_difficulty := Some (default (1 / 2) (q_difficulty question));
     q_discrimination := Some (default 1 (q_discrimination question));
     q_guessing := None |}.

Definition get_questions_by_pool (pool_id : string) (db : Supabase)
    : list Question :=
  if db_up db then
    map question_of_row (filter (fun row => qr_pool_id row = pool_id) (questions db))
  else [].

Definition get_question_by_id (question_id : string) (db : Supabase)
    : option Question :=
  if db_up db then
    question_of_row <$>
      head (filter (fun row => q_id (qr_question row) = question_id) (questions db))
  else None.

(** *** Tier 2 of the pool cache *)

Definition invalidate_question_pool (pool_id : string) (db : Supabase)
    : bool * Supabase :=
  if db_up db then
    (true,
     with_pool_cache db
       (filter (fun row => pm_id row <> pool_id) (question_pools db))
       (filter (fun row => qr_pool_id row <> pool_id) (questions db)))
  else (false, db).

(** The row written for a question of a cached pool; [correct_answer] is
    read with [question['correct_answer']], a [KeyError] when absent. *)
Definition cached_question_record (pool_id : string) (question : Question)
    : option QuestionRow :=
  match q_correct_answer question with
  | Some answer =>
      Some {| qr_pool_id := pool_id;
              qr_question :=
                {| q_id := q_id question; q_content := q_content question;
                   q_options := q_options question;
                   q_correct_answer := Some answer;
                   q_concepts := Some (default [1; 0; 0; 0; 0] (q_concepts question));
                   q_difficulty := Some (default (1 / 2) (q_difficulty question));
                   q_discrimination := Some (default 1 (q_discrimination question));
                   q_guessing := Some (default (25 / 100) (q_guessing question)) |} |}
  | None => None
  end.

Definition cache_question_pool (pool_id : string) (pool_data : Pool) (now : Z)
    (db : Supabase) : bool * Supabase :=
  if db_up db then
    let pool_metadata :=
      {| pm_id := pool_id; pm_level := pool_level pool_data;
         pm_level_id := pool_level_id pool_data;
         pm_attribute_count := pool_attribute_count pool_data;
         pm_attributes := pool_attributes pool_data;
         pm_total_questions := pool_total_questions pool_data;
         pm_fetched_at := pool_fetched_at pool_data;
         pm_cached_at := now;
         pm_expires_at := (now + SUPABASE_CACHE_EXPIRY)%Z |} in
    let pools :=
      upsert_row (fun old new => bool_decide (pm_id old = pm_id new))
        pool_metadata (question_pools db) in
    match pool_questions pool_data with
    | [] => (true, with_pool_cache db pools (questions db))
    | qs =>
        match mapM (cached_question_record pool_id) qs with
        | Some question_records =>
            (true,
             with_pool_cache db pools
               (upsert_rows
                  (fun old new =>
                     bool_decide (q_id (qr_question old) = q_id (qr_question new)))
                  question_records (questions db)))
        | None => (false, with_pool_cache db pools (questions db))
        end
    end
  else (false, db).

(** The question dict rebuilt from a row of a cached pool. *)
Definition cached_question_of_row (row : QuestionRow) : Question :=
  let question := qr_question row in
  {| q_id := q_id question; q_content := q_content question;
     q_options := q_options question;
     q_correct_answer := q_correct_answer question;
     q_concepts := Some (default [1; 0; 0; 0; 0] (q_concepts question));
     q_difficulty := Some (default (1 / 2) (q_difficulty question));
     q_discrimination := Some (default 1 (q_discrimination question));
     q_guessing := Some (default (25 / 100) (q_guessing question)) |}.

Definition get_cached_question_pool (pool_id : string) (now : Z) (db : Supabase)
    : option Pool * Supabase :=
  if db_up db then
    match filter (fun row => pm_id row = pool_id) (question_pools db) with
    | [] => (None, db)
    | pool_meta :: _ =>
        if bool_decide (pm_expires_at pool_meta < now)%Z then
          (None, (invalidate_question_pool pool_id db).2)
        else
          let qs :=
            map cached_question_of_row
              (filter (fun row => qr_pool_id row = pool_id) (questions db)) in
          (Some {| pool_id := pool_id; pool_level := pm_level pool_meta;
                   pool_level_id := pm_level_id pool_meta;
                   pool_attribute_count := pm_attribute_count pool_meta;
                   pool_attributes := pm_attributes pool_meta;
                   pool_questions := qs;
                   pool_total_questions := Z.of_nat (length qs);
                   pool_fetched_at := pm_fetched_at pool_meta;
                   pool_cache_tier := Some "supabase"%string;
                   pool_cached_at := Some (pm_cached_at pool_meta) |}, db)
    end
  else (None, db).

End SupabaseService.

(** ** Authoritative remote source (app/services/external_api_service.py) *)

Record Pagination := {
  pg_page : option Z;
  pg_total_pages : option Z;
  pg_has_more : option bool
}.

Record RawQuestion := {
  rq_id : option string;
  rq_content : option string;
  rq_options : option (list string);
  rq_correct_answer : option string;
  rq_q_vector : option (list R);
  rq_difficulty : option R;
  rq_discrimination : option R;
  rq_guessing : option R
}.

(** One page of the remote wire format. *)
Record RawPool := {
  raw_level : option string;
  raw_level_id : option string;
  raw_attribute_count : option Z;
  raw_attributes : option (list string);
  raw_questions : option (list RawQuestion);
  raw_total_questions : option Z;
  raw_pagination : option Pagination;
  raw_fetched_at : option Z
}.

(** The remote server as seen through [_make_request]: the JSON body of a
    200 answer to [GET endpoint?page=..&page_size=..], [None] for every
    other status, a timeout or a connection error. *)
Definition RemoteSource : Type := string -> Z -> Z -> option RawPool.

Module ExternalAPIService.

Definition valid_levels : list string :=
  ["topic"; "chapter"; "subject"; "class"; "exam"]%string.

Definition with_fetched_at (now : Z) (data : RawPool) : RawPool :=
  {| raw_level := raw_level data; raw_level_id := raw_level_id data;
     raw_attribute_count := raw_attribute_count data;
     raw_attributes := raw_attributes data; raw_questions := raw_questions data;
     raw_total_questions := raw_total_questions data;
     raw_pagination := raw_pagination data; raw_fetched_at := Some now |}.

Definition fetch_question_pool (remote : RemoteSource) (level level_id : string)
    (page page_size : Z) (now : Z) : option RawPool :=
  if bool_decide (level ∈ valid_levels) then
    let endpoint :=
      "/api/hierarchy/" +:+ level +:+ "/" +:+ level_id +:+ "/questions/enhanced" in
    with_fetched_at now <$> remote endpoint page page_size
  else None.

(** Pages [2 .. total_pages] are appended until one is missing; a page
    without a [questions] key raises. *)
Fixpoint gather_pages (fetch : Z -> option RawPool) (pages : list Z)
    (all_questions : list RawQuestion) : outcome (list RawQuestion) :=
  match pages with
  | [] => Returns all_questions
  | page :: rest =>
      match fetch page with
      | Some page_data =>
          match raw_questions page_data with
          | Some qs => gather_pages fetch rest (all_questions ++ qs)
          | None => Raises
          end
      | None => Returns all_questions
      end
  end.

Definition fetch_all_pages (remote : RemoteSource) (level level_id : string)
    (now : Z) : outcome (option RawPool) :=
  let page_size := 100%Z in
  match fetch_question_pool remote level level_id 1 page_size now with
  | None => Returns None
  | Some first_page =>
      let has_more :=
        match raw_pagination first_page with
        | Some pagination => default false (pg_has_more pagination)
        | None => false
        end in
      if negb has_more then Returns (Some first_page)
      else
        match raw_questions first_page with
        | None => Raises
        | Some first_questions =>
            let total_pages :=
              default 1%Z (raw_pagination first_page ≫= pg_total_pages) in
            let pages :=
              map (fun k => (2 + Z.of_nat k)%Z) (seq 0 (Z.to_nat (total_pages - 1))) in
            match gather_pages
                    (fun page =>
                       fetch_question_pool remote level level_id page page_size now)
                    pages first_questions with
            | Raises => Raises
            | Returns all_questions =>
                Returns (Some
                  {| raw_level := raw_level first_page;
                     raw_level_id := raw_level_id first_page;
                     raw_attribute_count := raw_attribute_count first_page;
                     raw_attributes := raw_attributes first_page;
                     raw_questions := Some all_questions;
                     raw_total_questions := Some (Z.of_nat (length all_questions));
                     raw_pagination :=
                       Some {| pg_page := Some 1%Z; pg_total_pages := Some 1%Z;
                               pg_has_more := Some false |};
                     raw_fetched_at := raw_fetched_at first_page |})
            end
        end
  end.

(** A question in canonical form; [id], [content] and [correct_answer]
    are mandatory on the wire. *)
Definition internal_question (q : RawQuestion) : option Question :=
  id ← rq_id q;
  content ← rq_content q;
  correct_answer ← rq_correct_answer q;
  Some {| q_id := id; q_content := content;
          q_options := default [] (rq_options q);
          q_correct_answer := Some correct_answer;
          q_concepts := Some (default [1; 0; 0; 0; 0] (rq_q_vector q));
          q_difficulty := Some (default (1 / 2) (rq_difficulty q));
          q_discrimination := Some (default 1 (rq_discrimination q));
          q_guessing := Some (default (25 / 100) (rq_guessing q)) |}.

(** [transform_to_internal_format]; a missing mandatory key raises. *)
Definition transform_to_internal_format (external_data : RawPool)
    : outcome (option Pool) :=
  match raw_level external_data, raw_level_id external_data,
        mapM internal_question (default [] (raw_questions external_data)) with
  | Some level, Some level_id, Some internal_questions =>
      let attributes := default [] (raw_attributes external_data) in
      Returns (Some
        {| pool_id := level +:+ "_" +:+ level_id;
           pool_level := level; pool_level_id := level_id;
           pool_attribute_count :=
             default (Z.of_nat (length attributes))
               (raw_attribute_count external_data);
           pool_attributes := attributes;
           pool_questions := internal_questions;
           pool_total_questions := Z.of_nat (length internal_questions);
           pool_fetched_at := raw_fetched_at external_data;
           pool_cache_tier := None; pool_cached_at := None |})
  | _, _, _ => Raises
  end.

End ExternalAPIService.

(** ** Three-tier cache manager (app/services/cache_manager.py) *)

Record CacheStats := {
  redis_hits : Z;
  redis_misses : Z;
  supabase_hits : Z;
  supabase_misses : Z;
  external_api_calls : Z;
  total_requests : Z
}.

(** The three services handed to the manager's constructor.  The manager
    guards each call with its own [try], so a call may raise; [W] is the
    state the services act on.  A cache write returns the pool dict as the
    call left it. *)
Class PoolServices (W : Type) := {
  tier1_get_cached_question_pool : string -> Z -> W -> outcome (option Pool) * W;
  tier1_cache_question_pool :
    string -> Pool -> Z -> Z -> W -> outcome bool * Pool * W;
  tier2_get_cached_question_pool : string -> Z -> W -> outcome (option Pool) * W;
  tier2_cache_question_pool : string -> Pool -> Z -> W -> outcome bool * Pool * W;
  tier3_fetch_all_pages : string -> string -> Z -> W -> outcome (option RawPool) * W;
  tier3_fetch_question_pool :
    string -> string -> Z -> W -> outcome (option RawPool) * W;
  tier3_transform_to_internal_format : RawPool -> outcome (option Pool)
}.

Module CacheManager.

(** Whether a guarded call produced a truthy value: neither an exception
    nor [None]. *)
Definition yields_data {A} (call : outcome (option A)) : bool :=
  match call with
  | Returns (Some _) => true
  | _ => false
  end.

Section Manager.
Context {W : Type} `{!PoolServices W}.

Definition bump (field : string) (stats : CacheStats) : CacheStats :=
  let inc name (n : Z) := if bool_decide (name = field) then (n + 1)%Z else n in
  {| redis_hits := inc "redis_hits"%string (redis_hits stats);
     redis_misses := inc "redis_misses"%string (redis_misses stats);
     supabase_hits := inc "supabase_hits"%string (supabase_hits stats);
     supabase_misses := inc "supabase_misses"%string (supabase_misses stats);
     external_api_calls := inc "external_api_calls"%string (external_api_calls stats);
     total_requests := inc "total_requests"%string (total_requests stats) |}.

Definition _cache_to_redis (pool_id : string) (pool_data : Pool) (now : Z) (w : W)
    : bool * Pool * W :=
  match tier1_cache_question_pool pool_id pool_data 24 now w with
  | (Returns _, pool_data, w) => (true, pool_data, w)
  | (Raises, pool_data, w) => (false, pool_data, w)
  end.

Definition _cache_to_supabase (pool_id : string) (pool_data : Pool) (now : Z) (w : W)
    : bool * Pool * W :=
  match tier2_cache_question_pool pool_id pool_data now w with
  | (Returns _, pool_data, w) => (true, pool_data, w)
  | (Raises, pool_data, w) => (false, pool_data, w)
  end.

Definition _cache_to_all_tiers (pool_id : string) (pool_data : Pool) (now : Z)
    (w : W) : bool * Pool * W :=
  let '(ok2, pool_data, w) := _cache_to_supabase pool_id pool_data now w in
  let '(ok1, pool_data, w) := _cache_to_redis pool_id pool_data now w in
  (ok2 && ok1, pool_data, w).

(** Tier 3 of [get_question_pool]; every exception ends in [None]. *)
Definition fetch_from_external (level level_id : string) (fetch_all_pages : bool)
    (pool_id : string) (now : Z) (w : W) : option Pool * W :=
  let '(raw_data, w) :=
    if fetch_all_pages then tier3_fetch_all_pages level level_id now w
    else tier3_fetch_question_pool level level_id now w in
  match raw_data with
  | Returns (Some raw_data) =>
      match tier3_transform_to_internal_format raw_data with
      | Returns (Some pool_data) =>
          let '(_, pool_data, w) := _cache_to_all_tiers pool_id pool_data now w in
          (Some pool_data, w)
      | _ => (None, w)
      end
  | _ => (None, w)
  end.

Definition get_question_pool (level level_id : string) (fetch_all_pages : bool)
    (now : Z) (stats : CacheStats) (w : W) : option Pool * CacheStats * W :=
  let stats := bump "total_requests" stats in
  let pool_id := level +:+ "_" +:+ level_id in
  let '(redis_data, w) := tier1_get_cached_question_pool pool_id now w in
  match redis_data with
  | Returns (Some redis_data) => (Some redis_data, bump "redis_hits" stats, w)
  | _ =>
      let stats :=
        match redis_data with
        | Returns _ => bump "redis_misses" stats
        | Raises => stats
        end in
      let '(supabase_data, w) := tier2_get_cached_question_pool pool_id now w in
      match supabase_data with
      | Returns (Some supabase_data) =>
          let stats := bump "supabase_hits" stats in
          let '(_, supabase_data, w) :=
            _cache_to_redis pool_id supabase_data now w in
          (Some supabase_data, stats, w)
      | _ =>
          let stats :=
            match supabase_data with
            | Returns _ => bump "supabase_misses" stats
            | Raises => stats
            end in
          let stats := bump "external_api_calls" stats in
          let '(pool_data, w) :=
            fetch_from_external level level_id fetch_all_pages pool_id now w in
          (pool_data, stats, w)
      end
  end.

End Manager.

(** *** Invalidation, refresh and warm-up *)

(** The two invalidation calls of the manager, each under its own [try]. *)
Class InvalidationServices (W : Type) := {
  tier1_invalidate_question_pool : string -> Z -> W -> outcome bool * W;
  tier2_invalidate_question_pool : string -> Z -> W -> outcome bool * W
}.

(** One entry of the [details] list of [warmup_cache]. *)
Record WarmupDetail := {
  wd_pool_id : string;
  wd_status : string;
  wd_questions : option Z;
  wd_error : option string
}.

Record WarmupResults := {
  wr_success : Z;
  wr_failed : Z;
  wr_details : list WarmupDetail
}.

Section Maintenance.
Context {W : Type} `{!PoolServices W} `{!InvalidationServices W}.

Definition invalidate_question_pool (level level_id : string) (now : Z) (w : W)
    : bool * W :=
  let pool_id := level +:+ "_" +:+ level_id in
  let success := true in
  let '(success, w) :=
    match tier1_invalidate_question_pool pool_id now w with
    | (Returns _, w) => (success, w)
    | (Raises, w) => (false, w)
    end in
  let '(success, w) :=
    match tier2_invalidate_question_pool pool_id now w with
    | (Returns _, w) => (success, w)
    | (Raises, w) => (false, w)
    end in
  (success, w).

Definition refresh_question_pool (level level_id : string) (now : Z)
    (stats : CacheStats) (w : W) : option Pool * CacheStats * W :=
  let '(_, w) := invalidate_question_pool level level_id now w in
  get_question_pool level level_id true now stats w.

(** One turn of the loop of [warmup_cache].  [get_question_pool] catches
    whatever its services raise and a pool dict always carries
    [total_questions], so the ['error'] entry of the source is never
    written. *)
Definition warmup_step (now : Z) (acc : WarmupResults * CacheStats * W)
    (pool : string * string) : WarmupResults * CacheStats * W :=
  let '(results, stats, w) := acc in
  let '(level, level_id) := pool in
  let '(pool_data, stats, w) := get_question_pool level level_id true now stats w in
  match pool_data with
  | Some pool_data =>
      ({| wr_success := (wr_success results + 1)%Z;
          wr_failed := wr_failed results;
          wr_details :=
            wr_details results ++
            [ {| wd_pool_id := level +:+ "_" +:+ level_id;
                 wd_status := "success";
                 wd_questions := Some (pool_total_questions pool_data);
                 wd_error := None |} ] |}, stats, w)
  | None =>
      ({| wr_success := wr_success results;
          wr_failed := (wr_failed results + 1)%Z;
          wr_details :=
            wr_details results ++
            [ {| wd_pool_id := level +:+ "_" +:+ level_id;
                 wd_status := "failed";
                 wd_questions := None;
                 wd_error := Some "No data returned"%string |} ] |}, stats, w)
  end.

Definition warmup_cache (pools : list (string * string)) (now : Z)
    (stats : CacheStats) (w : W) : WarmupResults * CacheStats * W :=
  foldl (warmup_step now)
    ({| wr_success := 0; wr_failed := 0; wr_details := [] |}, stats, w) pools.

End Maintenance.
End CacheManager.

(** ** The process-wide services (module level of app/main.py) *)

Record World := {
  w_redis : Redis;
  w_db : Supabase;
  w_remote : RemoteSource;
  w_stats : CacheStats
}.

Definition with_redis (w : World) (r : Redis) : World :=
  {| w_redis := r; w_db := w_db w; w_remote := w_remote w; w_stats := w_stats w |}.

Definition with_db (w : World) (db : Supabase) : World :=
  {| w_redis := w_redis w; w_db := db; w_remote := w_remote w; w_stats := w_stats w |}.

Definition with_stats (w : World) (stats : CacheStats) : World :=
  {| w_redis := w_redis w; w_db := w_db w; w_remote := w_remote w; w_stats := stats |}.

(** The services the cache manager is constructed with.  [RedisService]
    and [SupabaseService] catch their own exceptions, so only the remote
    source can raise into the manager. *)
#[export] Instance world_services : PoolServices World := {
  tier1_get_cached_question_pool pool_id now w :=
    (Returns (RedisService.get_cached_question_pool pool_id now (w_redis w)), w);
  tier1_cache_question_pool pool_id pool_data ttl_hours now w :=
    let '(ok, pool_data, r) :=
      RedisService.cache_question_pool pool_id pool_data ttl_hours now (w_redis w) in
    (Returns ok, pool_data, with_redis w r);
  tier2_get_cached_question_pool pool_id now w :=
    let '(pool_data, db) :=
      SupabaseService.get_cached_question_pool pool_id now (w_db w) in
    (Returns pool_data, with_db w db);
  tier2_cache_question_pool pool_id pool_data now w :=
    let '(ok, db) :=
      SupabaseService.cache_question_pool pool_id pool_data now (w_db w) in
    (Returns ok, pool_data, with_db w db);
  tier3_fetch_all_pages level level_id now w :=
    (ExternalAPIService.fetch_all_pages (w_remote w) level level_id now, w);
  tier3_fetch_question_pool level level_id now w :=
    (Returns (ExternalAPIService.fetch_question_pool (w_remote w) level level_id
                1 100 now), w);
  tier3_transform_to_internal_format :=
    ExternalAPIService.transform_to_internal_format
}.

(** Both invalidation methods catch their own exceptions as well. *)
#[export] Instance world_invalidation : CacheManager.InvalidationServices World := {
  tier1_invalidate_question_pool pool_id now w :=
    let '(ok, r) := RedisService.invalidate_question_pool pool_id now (w_redis w) in
    (Returns ok, with_redis w r);
  tier2_invalidate_question_pool pool_id now w :=
    let '(ok, db) := SupabaseService.invalidate_question_pool pool_id (w_db w) in
    (Returns ok, with_db w db)
}.

(** ** Question service (app/services/question_service.py) *)

Module QuestionService.

Definition get_question_pool (level level_id : string) (fetch_all_pages : bool)
    (now : Z) (w : World) : option Pool * World :=
  let '(pool_data, stats, w) :=
    CacheManager.get_question_pool level level_id fetch_all_pages now (w_stats w) w in
  (pool_data, with_stats w stats).

Definition get_questions_from_external (level level_id : string) (now : Z)
    (w : World) : list Question * World :=
  let '(pool_data, w) := get_question_pool level level_id true now w in
  match pool_data with
  | Some pool_data => (pool_questions pool_data, w)
  | None => ([], w)
  end.

(** [pool_id.split('_', 1)] when ['_' in pool_id]; 95 is the code of the
    underscore. *)
Fixpoint split_underscore (s : string) : option (string * string) :=
  match s with
  | EmptyString => None
  | String c rest =>
      if Ascii.eqb c (Ascii.ascii_of_nat 95) then Some (EmptyString, rest)
      else
        match split_underscore rest with
        | Some (level, level_id) => Some (String c level, level_id)
        | None => None
        end
  end.

Definition _get_default_questions : list Question :=
  [ {| q_id := "q1"; q_content := "What is 15 + 27?";
       q_options := ["40"; "42"; "44"; "46"]%string;
       q_correct_answer := Some "42"%string;
       q_concepts := Some [1; 0; 0; 0; 0]; q_difficulty := Some (3 / 10);
       q_discrimination := Some (12 / 10); q_guessing := None |};
    {| q_id := "q2"; q_content := "Solve for x: 2x + 5 = 15";
       q_options := ["3"; "5"; "7"; "10"]%string;
       q_correct_answer := Some "5"%string;
       q_concepts := Some [1; 1; 0; 0; 0]; q_difficulty := Some (6 / 10);
       q_discrimination := Some (15 / 10); q_guessing := None |};
    {| q_id := "q3"; q_content := "What is the derivative of x²?";
       q_options := ["x"; "2x"; "x²"; "2x²"]%string;
       q_correct_answer := Some "2x"%string;
       q_concepts := Some [1; 1; 1; 0; 0]; q_difficulty := Some (8 / 10);
       q_discrimination := Some (18 / 10); q_guessing := None |} ].

Definition cache_questions (qs : list Question) (now : Z) (r : Redis) : Redis :=
  foldl (fun r question => (RedisService.cache_question (q_id question) question now r).2)
        r qs.

Definition get_questions (pool_id : option string) (now : Z) (w : World)
    : list Question * World :=
  match pool_id with
  | Some pool_id =>
      if bool_decide (pool_id = "") then (_get_default_questions, w)
      else
        match split_underscore pool_id with
        | Some (level, level_id) => get_questions_from_external level level_id now w
        | None =>
            let qs := SupabaseService.get_questions_by_pool pool_id (w_db w) in
            (qs, with_redis w (cache_questions qs now (w_redis w)))
        end
  | None => (_get_default_questions, w)
  end.

Definition get_question_by_id (question_id : string) (now : Z) (w : World)
    : option Question * World :=
  match RedisService.get_cached_question question_id now (w_redis w) with
  | Some cached => (Some cached, w)
  | None =>
      match SupabaseService.get_question_by_id question_id (w_db w) with
      | Some question =>
          (Some question,
           with_redis w (RedisService.cache_question question_id question now (w_redis w)).2)
      | None => (None, w)
      end
  end.

Definition create_q_matrix (qs : list Question) : gmap string (list R) :=
  foldl (fun q_matrix question =>
           <[q_id question := default [1; 0; 0; 0; 0] (q_concepts question)]> q_matrix)
        ∅ qs.

End QuestionService.

(** ** Request handlers (app/main.py) *)

(** The bodies of the requests, as [request.get_json()] returns them when
    the body is a JSON object: the keys the handlers read, each absent or
    of the type the handler expects.  A body that is no JSON object makes
    the first [data.get] of a handler raise, which the handler answers
    500 before it has touched a store; such bodies are not covered. *)
Record StartRequest := {
  start_student_id : option string;
  start_question_pool_id : option string;
  start_concept_names : option (list string);
  start_end_criteria : option EndCriteria
}.

Record SubmitRequest := {
  sr_session_id : option string;
  sr_question_id : option string;
  sr_response : option Z
}.

(** The JSON bodies of the test endpoints. *)
Inductive Body :=
  | ErrorBody (error : string)
  | StartedBody (session_id student_id : string) (initial_proficiency : list R)
      (concept_names : list string) (next_question : Question)
  | ContinueBody (current_proficiency : list R) (next_question : Question)
      (questions_answered : Z)
  | FinalBody (status : string) (final_proficiency : option (list R))
      (total_questions : Z) (accuracy : option R).

Record HttpResponse := {
  status_code : Z;
  body : Body
}.

Module Main.

(** [adaptive_engine = AdaptiveEngine()]: the default learning rate. *)
Definition learning_rate : R := 1 / 10.

Definition error_response (code : Z) (message : string) : HttpResponse :=
  {| status_code := code; body := ErrorBody message |}.

Definition internal_server_error : HttpResponse :=
  error_response 500 "Internal server error".

Definition default_concept_names : list string :=
  ["Math"; "Algebra"; "Geometry"; "Statistics"; "Calculus"]%string.

Definition default_end_criteria : EndCriteria :=
  {| ec_type := Some "fixed_length"%string; ec_max_questions := Some 20%Z;
     ec_min_questions := Some 5%Z; ec_precision_threshold := Some (3 / 10);
     ec_classification_threshold := None |}.

(** [POST /api/test/start]; [uuid] is the value of [uuid.uuid4()]. *)
Definition start_test (data : StartRequest) (uuid : string) (now : Z) (w : World)
    : HttpResponse * World :=
  let question_pool_id := start_question_pool_id data in
  let concept_names := default default_concept_names (start_concept_names data) in
  let end_criteria := default default_end_criteria (start_end_criteria data) in
  match start_student_id data with
  | None => (error_response 400 "student_id is required", w)
  | Some student_id =>
      if bool_decide (student_id = "") then
        (error_response 400 "student_id is required", w)
      else
        let session_id := uuid in
        let '(questions, w) := QuestionService.get_questions question_pool_id now w in
        match questions with
        | [] => (error_response 404 "No questions available", w)
        | _ =>
            let q_matrix := QuestionService.create_q_matrix questions in
            let '(student, db) :=
              SupabaseService.get_or_create_student student_id concept_names now
                (w_db w) in
            let w := with_db w db in
            match student with
            | Raises => (internal_server_error, w)
            | Returns _ =>
                let stored :=
                  SupabaseService.get_current_proficiency student_id (w_db w) in
                let '(initial_proficiency, w) :=
                  match stored with
                  | [] =>
                      let fresh := repeat (1 / 2) (length concept_names) in
                      (fresh,
                       with_db w
                         (SupabaseService.create_user_proficiency student_id fresh
                            concept_names now (w_db w)).2)
                  | _ => (stored, w)
                  end in
                let w :=
                  with_db w
                    (SupabaseService.create_session session_id student_id
                       question_pool_id initial_proficiency now (w_db w)).2 in
                match AdaptiveEngine.select_next_question questions q_matrix
                        initial_proficiency [] with
                | None => (internal_server_error, w)
                | Some next_question =>
                    let redis_state :=
                      {| st_student_id := student_id;
                         st_question_pool_id := question_pool_id;
                         st_current_proficiency := initial_proficiency;
                         st_next_question_id := q_id next_question;
                         st_status := "active";
                         st_questions_answered := 0;
                         st_correct_count := 0;
                         st_end_criteria := end_criteria;
                         st_last_activity := None |} in
                    let w :=
                      with_redis w
                        (RedisService.store_session_state session_id redis_state
                           now (w_redis w)).2 in
                    ({| status_code := 200;
                        body := StartedBody session_id student_id
                                  initial_proficiency concept_names next_question |},
                     w)
                end
            end
        end
  end.

(** The body of [submit_response] under its submission lock; [Raises] is
    an exception that reaches the outer handler. *)
Definition submit_locked (session_id question_id : string) (response : Z)
    (now : Z) (w : World) : outcome HttpResponse * World :=
  match RedisService.get_session_state session_id now (w_redis w) with
  | None => (Returns (error_response 404 "Session not found or expired"), w)
  | Some session_state =>
      if bool_decide (st_status session_state <> "active"%string) then
        (Returns (error_response 400 "Session is not active"), w)
      else
        let student_id := st_student_id session_state in
        let current_proficiency := st_current_proficiency session_state in
        let question_pool_id := st_question_pool_id session_state in
        let '(question, w) := QuestionService.get_question_by_id question_id now w in
        match question with
        | None => (Returns (error_response 404 "Question not found"), w)
        | Some question =>
            let '(questions, w) :=
              QuestionService.get_questions question_pool_id now w in
            let q_matrix := QuestionService.create_q_matrix questions in
            let new_proficiency :=
              AdaptiveEngine.update_ability learning_rate current_proficiency
                question response q_matrix in
            let questions_answered := (st_questions_answered session_state + 1)%Z in
            let correct_count :=
              (st_correct_count session_state
               + (if bool_decide (response = 1%Z) then 1 else 0))%Z in
            let w :=
              with_db w
                (SupabaseService.update_user_proficiency student_id new_proficiency
                   now (w_db w)).2 in
            let w :=
              with_db w
                (SupabaseService.store_response student_id session_id question_id
                   response current_proficiency new_proficiency now (w_db w)).2 in
            let w :=
              with_db w
                (SupabaseService.update_session_activity session_id now (w_db w)).2 in
            let responses :=
              SupabaseService.get_user_responses student_id (Some session_id)
                (w_db w) in
            if AdaptiveEngine.should_continue responses new_proficiency
                 (st_end_criteria session_state)
            then
              let next_question :=
                AdaptiveEngine.select_next_question questions q_matrix
                  new_proficiency responses in
              let w :=
                with_redis w
                  (RedisService.update_session_proficiency session_id
                     new_proficiency questions_answered now (w_redis w)).2 in
              match next_question with
              | None => (Raises, w)
              | Some next_question =>
                  let session_state :=
                    {| st_student_id := st_student_id session_state;
                       st_question_pool_id := st_question_pool_id session_state;
                       st_current_proficiency :=
                         st_current_proficiency session_state;
                       st_next_question_id := q_id next_question;
                       st_status := st_status session_state;
                       st_questions_answered :=
                         st_questions_answered session_state;
                       st_correct_count := correct_count;
                       st_end_criteria := st_end_criteria session_state;
                       st_last_activity := st_last_activity session_state |} in
                  let w :=
                    with_redis w
                      (RedisService.store_session_state session_id session_state
                         now (w_redis w)).2 in
                  (Returns {| status_code := 200;
                              body := ContinueBody new_proficiency next_question
                                        questions_answered |}, w)
              end
            else
              let w :=
                with_db w
                  (SupabaseService.complete_session session_id new_proficiency
                     questions_answered correct_count now (w_db w)).2 in
              let w :=
                with_redis w
                  (RedisService.delete_session_state session_id now (w_redis w)).2 in
              (Returns {| status_code := 200;
                          body := FinalBody "completed" (Some new_proficiency)
                                    questions_answered
                                    (Some (SupabaseService.accuracy_of correct_count
                                             questions_answered)) |}, w)
        end
  end.

(** [POST /api/test/submit]: validation, the submission lock, the locked
    body, and the release of the lock in [finally]. *)
Definition submit_response (data : SubmitRequest) (now : Z) (w : World)
    : HttpResponse * World :=
  match sr_session_id data, sr_question_id data, sr_response data with
  | Some session_id, Some question_id, Some response =>
      if bool_decide (session_id = "") then
        (error_response 400 "session_id, question_id, and response are required", w)
      else
        let '(acquired, r) :=
          RedisService.acquire_submission_lock session_id question_id now
            (w_redis w) in
        let w := with_redis w r in
        if acquired then
          let '(result, w) := submit_locked session_id question_id response now w in
          let w :=
            with_redis w
              (RedisService.release_submission_lock session_id question_id now
                 (w_redis w)).2 in
          match result with
          | Returns http_response => (http_response, w)
          | Raises => (internal_server_error, w)
          end
        else
          (error_response 409 "This question has already been submitted", w)
  | _, _, _ =>
      (error_response 400 "session_id, question_id, and response are required", w)
  end.

(** [POST /api/test/end/<session_id>]. *)
Definition end_test (session_id : string) (now : Z) (w : World)
    : HttpResponse * World :=
  match RedisService.get_session_state session_id now (w_redis w) with
  | Some session_state =>
      let current_proficiency := st_current_proficiency session_state in
      let questions_answered := st_questions_answered session_state in
      let correct_count := st_correct_count session_state in
      let w :=
        with_db w
          (SupabaseService.complete_session session_id current_proficiency
             questions_answered correct_count now (w_db w)).2 in
      let w :=
        with_redis w
          (RedisService.delete_session_state session_id now (w_redis w)).2 in
      ({| status_code := 200;
          body := FinalBody "ended" (Some current_proficiency) questions_answered
                    (Some (SupabaseService.accuracy_of correct_count
                             questions_answered)) |}, w)
  | None =>
      match SupabaseService.get_session session_id (w_db w) with
      | None => (error_response 404 "Session not found", w)
      | Some session_data =>
          ({| status_code := 200;
              body := FinalBody (ses_status session_data)
                        (ses_final_proficiency session_data)
                        (ses_total_questions session_data)
                        (ses_accuracy session_data) |}, w)
      end
  end.

(** [GET /api/test/status/<session_id>].  [StatusActive] is the body of a
    session found in the hot store (['is_active': True]), [StatusStored]
    the one built from the row of the warm store (['is_active': False],
    with the two timestamps).  A row read from the warm store carries
    every column, so the defaults of its [dict.get] calls never apply: a
    column that is null is reported as null. *)
Inductive StatusBody :=
  | StatusError (error : string)
  | StatusActive (session_id status : string) (current_proficiency : list R)
      (questions_answered : Z)
  | StatusStored (session_id status : string)
      (current_proficiency : option (list R)) (questions_answered : Z)
      (started_at : Z) (completed_at : option Z).

Definition get_test_status (session_id : string) (now : Z) (w : World)
    : Z * StatusBody :=
  match RedisService.get_session_state session_id now (w_redis w) with
  | Some session_state =>
      (200%Z,
       StatusActive session_id (st_status session_state)
         (st_current_proficiency session_state)
         (st_questions_answered session_state))
  | None =>
      match SupabaseService.get_session session_id (w_db w) with
      | None => (404%Z, StatusError "Session not found")
      | Some session_data =>
          (200%Z,
           StatusStored session_id (ses_status session_data)
             (ses_final_proficiency session_data)
             (ses_total_questions session_data)
             (ses_started_at session_data)
             (ses_completed_at session_data))
      end
  end.

End Main.


(** ** Sample data

    The question of the repository's test suite (tests/test_adaptive.py)
    and small variations of it, used to run the model. *)

Module Samples.

Definition test_q1 : Question :=
  {| q_id := "test_q1"; q_content := "What is 2 + 2?";
     q_options := ["3"; "4"; "5"; "6"]%string; q_correct_answer := Some "4"%string;
     q_concepts := Some [1; 0; 0; 0; 0]; q_difficulty := Some (2 / 10);
     q_discrimination := None; q_guessing := None |}.

(** A question with every optional key absent. *)
Definition bare_question (id : string) : Question :=
  {| q_id := id; q_content := ""; q_options := []; q_correct_answer := None;
     q_concepts := None; q_difficulty := None; q_discrimination := None;
     q_guessing := None |}.

Definition response_to (question_id : string) : Response :=
  {| r_student_id := "s1"; r_session_id := "sess"; r_question_id := question_id;
     r_response := 1; r_proficiency_before := []; r_proficiency_after := [];
     r_timestamp := 0 |}.

Definition criteria (type : string) (min_questions max_questions : Z) : EndCriteria :=
  {| ec_type := Some type; ec_max_questions := Some max_questions;
     ec_min_questions := Some min_questions; ec_precision_threshold := None;
     ec_classification_threshold := None |}.

Definition test_q2 : Question :=
  {| q_id := "test_q2"; q_content := "What is 3 + 3?";
     q_options := ["5"; "6"; "7"; "8"]%string; q_correct_answer := Some "6"%string;
     q_concepts := Some [1; 0; 0; 0; 0]; q_difficulty := Some (2 / 10);
     q_discrimination := None; q_guessing := None |}.

(** Two items that differ in discrimination only, and their Q-matrix. *)
Definition item (id : string) (discrimination : R) : Question :=
  {| q_id := id; q_content := ""; q_options := []; q_correct_answer := None;
     q_concepts := Some [1; 0; 0; 0; 0]; q_difficulty := Some 0;
     q_discrimination := Some discrimination; q_guessing := None |}.

Definition items_q_matrix : gmap string (list R) :=
  <["b"%string := [1; 0; 0; 0; 0]]> (<["a"%string := [1; 0; 0; 0; 0]]> ∅).

Definition empty_redis : Redis := {| redis_up := true; redis_keys := ∅ |}.

Definition no_remote : RemoteSource := fun _ _ _ => None.

Definition zero_stats : CacheStats :=
  {| redis_hits := 0; redis_misses := 0; supabase_hits := 0;
     supabase_misses := 0; external_api_calls := 0; total_requests := 0 |}.

(** The warm store after the upload of [test_q1] and [test_q2] as pool
    ["pool-1"]. *)
Definition uploaded_db : Supabase :=
  {| db_up := true; db_next_id := 1; students := [];
     student_proficiencies := []; test_sessions := []; test_responses := [];
     question_pools := [];
     questions := [ {| qr_pool_id := "pool-1"; qr_question := test_q1 |};
                    {| qr_pool_id := "pool-1"; qr_question := test_q2 |} ] |}.

Definition uploaded_world : World :=
  {| w_redis := empty_redis; w_db := uploaded_db; w_remote := no_remote;
     w_stats := zero_stats |}.

(** The same with [test_q1] alone, as the test suite uploads it. *)
Definition test_db : Supabase :=
  {| db_up := true; db_next_id := 1; students := [];
     student_proficiencies := []; test_sessions := []; test_responses := [];
     question_pools := [];
     questions := [ {| qr_pool_id := "pool-1"; qr_question := test_q1 |} ] |}.

Definition test_world : World :=
  {| w_redis := empty_redis; w_db := test_db; w_remote := no_remote;
     w_stats := zero_stats |}.

(** The start request of the test suite. *)
Definition start_request : StartRequest :=
  {| start_student_id := Some "test_student_123"%string;
     start_question_pool_id := Some "pool-1"%string;
     start_concept_names := Some Main.default_concept_names;
     start_end_criteria := None |}.

(** The questions as the services hand them out: read from the warm
    store, and read from the hot store's question cache. *)
Definition pool_q1 : Question :=
  SupabaseService.question_of_row {| qr_pool_id := "pool-1"; qr_question := test_q1 |}.

Definition pool_q2 : Question :=
  SupabaseService.question_of_row {| qr_pool_id := "pool-1"; qr_question := test_q2 |}.

Definition cached_q1 : Question := RedisService.strip_correct_answer pool_q1.

(** The state of the services once [start_request] has been served at
    time 0 on [uploaded_world] with session id ["sess-1"]. *)
Definition started_state : SessionState :=
  {| st_student_id := "test_student_123";
     st_question_pool_id := Some "pool-1"%string;
     st_current_proficiency := repeat (1 / 2) 5;
     st_next_question_id := "test_q1"; st_status := "active";
     st_questions_answered := 0; st_correct_count := 0;
     st_end_criteria := Main.default_end_criteria;
     st_last_activity := Some 0%Z |}.

(** The hot state found after [submit_request] has been answered at time
    10 on [started_world]. *)
Definition state_after_submit : SessionState :=
  {| st_student_id := "test_student_123";
     st_question_pool_id := Some "pool-1"%string;
     st_current_proficiency := repeat (1 / 2) 5;
     st_next_question_id := "test_q2"; st_status := "active";
     st_questions_answered := 0; st_correct_count := 1;
     st_end_criteria := Main.default_end_criteria;
     st_last_activity := Some 10%Z |}.

Definition started_redis : Redis :=
  {| redis_up := true;
     redis_keys :=
       <["session:sess-1:state"%string := (1800%Z, RSession started_state)]>
       (<["question:test_q2"%string :=
            (3600%Z,
             RQuestion (RedisService.strip_correct_answer
                          (SupabaseService.question_of_row
                             {| qr_pool_id := "pool-1"; qr_question := test_q2 |})))]>
       (<["question:test_q1"%string :=
            (3600%Z,
             RQuestion (RedisService.strip_correct_answer
                          (SupabaseService.question_of_row
                             {| qr_pool_id := "pool-1"; qr_question := test_q1 |})))]>
        ∅)) |}.

Definition started_db : Supabase :=
  {| db_up := true; db_next_id := 6;
     students := [ {| stu_id := "test_student_123"; stu_created_at := 0;
                      stu_updated_at := 0 |} ];
     student_proficiencies :=
       SupabaseService.proficiency_records "test_student_123" 1
         (repeat (1 / 2) 5) Main.default_concept_names 0;
     test_sessions :=
       [ {| ses_id := "sess-1"; ses_student_id := "test_student_123";
            ses_question_pool_id := Some "pool-1"%string; ses_status := "active";
            ses_initial_proficiency := repeat (1 / 2) 5;
            ses_final_proficiency := None; ses_total_questions := 0;
            ses_correct_responses := 0; ses_accuracy := None;
            ses_started_at := 0; ses_last_activity := 0;
            ses_completed_at := None |} ];
     test_responses := [];
     question_pools := [];
     questions := questions uploaded_db |}.

Definition started_world : World :=
  {| w_redis := started_redis; w_db := started_db; w_remote := no_remote;
     w_stats := zero_stats |}.

Definition submit_request : SubmitRequest :=
  {| sr_session_id := Some "sess-1"%string;
     sr_question_id := Some "test_q1"%string;
     sr_response := Some 1%Z |}.

(** A hot state whose [last_activity] is stale. *)
Definition stale_state : SessionState :=
  {| st_student_id := "test_student_123"; st_question_pool_id := Some "pool-1"%string;
     st_current_proficiency := repeat (1 / 2) 5; st_next_question_id := "test_q1";
     st_status := "active"; st_questions_answered := 0; st_correct_count := 0;
     st_end_criteria := Main.default_end_criteria;
     st_last_activity := Some (-5000)%Z |}.

(** A pool as the remote source serves it, and services whose two cache
    tiers are broken: every read and write of Tier 1 and Tier 2 raises. *)
Definition remote_pool : RawPool :=
  {| raw_level := Some "topic"%string; raw_level_id := Some "X"%string;
     raw_attribute_count := None; raw_attributes := None;
     raw_questions :=
       Some [ {| rq_id := Some "q1"%string; rq_content := Some "What is 2 + 2?"%string;
                 rq_options := None; rq_correct_answer := Some "4"%string;
                 rq_q_vector := None; rq_difficulty := None;
                 rq_discrimination := None; rq_guessing := None |} ];
     raw_total_questions := Some 1%Z; raw_pagination := None;
     raw_fetched_at := None |}.

(** The pool [transform_to_internal_format] makes of [remote_pool]. *)
Definition topic_pool : Pool :=
  {| pool_id := "topic_X"; pool_level := "topic"; pool_level_id := "X";
     pool_attribute_count := 0; pool_attributes := [];
     pool_questions :=
       [ {| q_id := "q1"; q_content := "What is 2 + 2?"; q_options := [];
            q_correct_answer := Some "4"%string;
            q_concepts := Some [1; 0; 0; 0; 0]; q_difficulty := Some (1 / 2);
            q_discrimination := Some 1; q_guessing := Some (25 / 100) |} ];
     pool_total_questions := 1; pool_fetched_at := None;
     pool_cache_tier := None; pool_cached_at := None |}.

(** A remote source that serves [remote_pool] on every request, and the
    services of a fresh deployment in front of it. *)
Definition topic_remote : RemoteSource := fun _ _ _ => Some remote_pool.

Definition empty_db : Supabase :=
  {| db_up := true; db_next_id := 1; students := [];
     student_proficiencies := []; test_sessions := []; test_responses := [];
     question_pools := []; questions := [] |}.

Definition topic_world : World :=
  {| w_redis := empty_redis; w_db := empty_db; w_remote := topic_remote;
     w_stats := zero_stats |}.

(** A remote source with three announced pages of one question each, the
    third of which cannot be fetched. *)
Definition raw_question (id : string) : RawQuestion :=
  {| rq_id := Some id; rq_content := Some "?"%string; rq_options := None;
     rq_correct_answer := Some "4"%string; rq_q_vector := None;
     rq_difficulty := None; rq_discrimination := None; rq_guessing := None |}.

Definition raw_page (page : Z) (id : string) : RawPool :=
  {| raw_level := Some "topic"%string; raw_level_id := Some "X"%string;
     raw_attribute_count := None; raw_attributes := None;
     raw_questions := Some [raw_question id];
     raw_total_questions := Some 3%Z;
     raw_pagination :=
       Some {| pg_page := Some page; pg_total_pages := Some 3%Z;
               pg_has_more := Some (bool_decide (page < 3)%Z) |};
     raw_fetched_at := None |}.

Definition paged_remote : RemoteSource :=
  fun _ page _ =>
    if bool_decide (page = 1%Z) then Some (raw_page 1 "p1")
    else if bool_decide (page = 2%Z) then Some (raw_page 2 "p2")
    else None.

(** A warm store holding a cached pool that expired at time 100. *)
Definition expired_pool_row : PoolRow :=
  {| pm_id := "topic_X"; pm_level := "topic"; pm_level_id := "X";
     pm_attribute_count := 0; pm_attributes := []; pm_total_questions := 1;
     pm_fetched_at := None; pm_cached_at := (100 - 604800)%Z;
     pm_expires_at := 100 |}.

Definition expired_db : Supabase :=
  {| db_up := true; db_next_id := 1; students := [];
     student_proficiencies := []; test_sessions := []; test_responses := [];
     question_pools := [expired_pool_row];
     questions := [ {| qr_pool_id := "topic_X"; qr_question := test_q1 |} ] |}.


(** The started sample session under a stopping rule of exactly one
    question. *)
Definition quick_state : SessionState :=
  {| st_student_id := "test_student_123";
     st_question_pool_id := Some "pool-1"%string;
     st_current_proficiency := repeat (1 / 2) 5;
     st_next_question_id := "test_q1"; st_status := "active";
     st_questions_answered := 0; st_correct_count := 0;
     st_end_criteria := criteria "fixed_length" 1 1;
     st_last_activity := Some 0%Z |}.

Definition quick_world : World :=
  {| w_redis :=
       {| redis_up := true;
          redis_keys :=
            <["session:sess-1:state"%string := (1800%Z, RSession quick_state)]>
              (redis_keys started_redis) |};
     w_db := started_db; w_remote := no_remote; w_stats := zero_stats |}.

(** The sample session started on the one-question pool of [test_db]. *)
Definition single_world : World :=
  {| w_redis :=
       {| redis_up := true;
          redis_keys :=
            <["session:sess-1:state"%string := (1800%Z, RSession started_state)]>
            (<["question:test_q1"%string := (3600%Z, RQuestion cached_q1)]> ∅) |};
     w_db :=
       {| db_up := true; db_next_id := 6; students := students started_db;
          student_proficiencies := student_proficiencies started_db;
          test_sessions := test_sessions started_db; test_responses := [];
          question_pools := []; questions := questions test_db |};
     w_remote := no_remote; w_stats := zero_stats |}.

Definition broken_caches : PoolServices unit :=
  {| tier1_get_cached_question_pool _ _ w := (Raises, w);
     tier1_cache_question_pool _ pool_data _ _ w := (Raises, pool_data, w);
     tier2_get_cached_question_pool _ _ w := (Raises, w);
     tier2_cache_question_pool _ pool_data _ w := (Raises, pool_data, w);
     tier3_fetch_all_pages _ _ _ w := (Returns (Some remote_pool), w);
     tier3_fetch_question_pool _ _ _ w := (Returns (Some remote_pool), w);
     tier3_transform_to_internal_format :=
       ExternalAPIService.transform_to_internal_format |}.

End Samples.

(** * Properties *)

(** ** The adaptive engine *)

Section EngineFacts.
Import AdaptiveEngine.

Lemma np_clip_bounds x lo hi : lo <= hi -> lo <= np_clip x lo hi <= hi.
Proof.
  intros Hle. unfold np_clip, Rmin, Rmax.
  repeat destruct (Rle_dec _ _); lra.
Qed.


Lemma np_clip_id x lo hi : lo <= x <= hi -> np_clip x lo hi = x.
Proof.
  intros Hx. unfold np_clip, Rmin, Rmax.
  repeat destruct (Rle_dec _ _); lra.
Qed.

Lemma expit_0 : expit 0 = 1 / 2.
Proof. unfold expit. rewrite Ropp_0, exp_0. lra. Qed.

(** The probability is always inside the clamp, also on the fallback. *)
Lemma probability_bounds proficiency question q_matrix :
  1 / 100 <= _calculate_probability proficiency question q_matrix <= 99 / 100.
Proof.
  unfold _calculate_probability.
  destruct (np_dot _ _); [apply np_clip_bounds|]; lra.
Qed.

Lemma information_formula question proficiency q_matrix :
  _calculate_information question proficiency q_matrix =
  discrimination_of question ^ 2
  * _calculate_probability proficiency question q_matrix
  * (1 - _calculate_probability proficiency question q_matrix).
Proof. reflexivity. Qed.

Lemma information_nonneg question proficiency q_matrix :
  0 <= _calculate_information question proficiency q_matrix.
Proof.
  rewrite information_formula.
  pose proof (probability_bounds proficiency question q_matrix) as Hp.
  pose proof (pow2_ge_0 (discrimination_of question)) as Ha.
  apply Rmult_le_pos; [apply Rmult_le_pos|]; lra.
Qed.

(** *** Item selection *)

Lemma available_questions_list questions responses :
  available_questions questions responses =
  filter (fun q => q_id q ∉ map r_question_id responses) questions.
Proof.
  unfold available_questions, used_questions.
  apply list_filter_iff. intros q. by rewrite elem_of_list_to_set.
Qed.

(** Invariant of the selection loop: after the prefix [pre] the loop
    variables hold the first maximum of [pre]. *)
Lemma select_loop_first_max proficiency q_matrix rest :
  forall pre max_info best i,
    pre !! i = Some best ->
    _calculate_information best proficiency q_matrix = max_info ->
    (forall j q, pre !! j = Some q ->
       _calculate_information q proficiency q_matrix <= max_info) ->
    (forall j q, pre !! j = Some q -> (j < i)%nat ->
       _calculate_information q proficiency q_matrix < max_info) ->
    exists k,
      (pre ++ rest) !! k =
        Some (select_loop rest proficiency q_matrix max_info best) /\
      (forall j q, (pre ++ rest) !! j = Some q ->
         _calculate_information q proficiency q_matrix <=
         _calculate_information
           (select_loop rest proficiency q_matrix max_info best)
           proficiency q_matrix) /\
      (forall j q, (pre ++ rest) !! j = Some q -> (j < k)%nat ->
         _calculate_information q proficiency q_matrix <
         _calculate_information
           (select_loop rest proficiency q_matrix max_info best)
           proficiency q_matrix).
Proof.
  induction rest as [|question rest IH]; intros pre max_info best i Hi Hm Hle Hlt.
  - simpl. rewrite app_nil_r. subst max_info. eauto.
  - simpl select_loop.
    replace (pre ++ question :: rest) with ((pre ++ [question]) ++ rest)
      by (by rewrite <- app_assoc).
    destruct (Rlt_dec max_info _) as [Hgt|Hngt].
    + apply (IH (pre ++ [question]) _ question (length pre)).
      * by rewrite lookup_app_r, Nat.sub_diag.
      * reflexivity.
      * intros j q Hj. apply lookup_app_Some in Hj as [Hj|[_ Hj]].
        -- specialize (Hle _ _ Hj). lra.
        -- apply list_lookup_singleton_Some in Hj as [_ <-]. lra.
      * intros j q Hj Hjl. apply lookup_app_Some in Hj as [Hj|[Hge _]]; [|lia].
        specialize (Hle _ _ Hj). lra.
    + apply (IH (pre ++ [question]) max_info best i).
      * by apply lookup_app_l_Some.
      * done.
      * intros j q Hj. apply lookup_app_Some in Hj as [Hj|[_ Hj]].
        -- eauto.
        -- apply list_lookup_singleton_Some in Hj as [_ <-]. lra.
      * intros j q Hj Hjl. apply lookup_app_Some in Hj as [Hj|[Hge _]].
        -- eauto.
        -- apply lookup_lt_Some in Hi. lia.
Qed.

(** The first pass of the loop always replaces the initial [-1]. *)
Lemma select_loop_start proficiency q_matrix first rest :
  select_loop (first :: rest) proficiency q_matrix (-1) first =
  select_loop rest proficiency q_matrix
    (_calculate_information first proficiency q_matrix) first.
Proof.
  simpl. pose proof (information_nonneg first proficiency q_matrix).
  destruct (Rlt_dec _ _); [done|lra].
Qed.

Lemma select_next_question_single q_matrix proficiency responses questions q :
  available_questions questions responses = [q] ->
  select_next_question questions q_matrix proficiency responses = Some q.
Proof.
  intros Hav. unfold select_next_question. rewrite Hav. cbv beta iota.
  by rewrite select_loop_start.
Qed.

Lemma select_loop_keeps_max proficiency q_matrix rest max_info best :
  Forall (fun q => _calculate_information q proficiency q_matrix <= max_info) rest ->
  select_loop rest proficiency q_matrix max_info best = best.
Proof.
  induction 1 as [|q rest Hq _ IH]; [done|]. simpl.
  destruct (Rlt_dec _ _); [lra|done].
Qed.

(** When no later question is more informative, the first unanswered
    question is selected. *)
Lemma select_next_question_first_max questions q_matrix proficiency responses
    first rest :
  available_questions questions responses = first :: rest ->
  Forall (fun q => _calculate_information q proficiency q_matrix
                   <= _calculate_information first proficiency q_matrix) rest ->
  select_next_question questions q_matrix proficiency responses = Some first.
Proof.
  intros Hav Hmax. unfold select_next_question. rewrite Hav.
  by rewrite select_loop_start, select_loop_keeps_max.
Qed.

(** The selected question is a question of the pool, as it stands there. *)
Lemma select_next_question_elem questions q_matrix proficiency responses best :
  select_next_question questions q_matrix proficiency responses = Some best ->
  best ∈ questions.
Proof.
  unfold select_next_question.
  destruct (available_questions questions responses) as [|first rest] eqn:Hav;
    [done|].
  rewrite select_loop_start. intros [= <-].
  destruct (select_loop_first_max proficiency q_matrix rest [first]
              (_calculate_information first proficiency q_matrix) first 0%nat)
    as (k & Hk & _); try done.
  { intros j q Hj. apply list_lookup_singleton_Some in Hj as [_ <-]. lra. }
  { intros j q _ Hj. lia. }
  simpl app in Hk. apply list_elem_of_lookup_2 in Hk. rewrite <- Hav in Hk.
  unfold available_questions in Hk. by apply list_elem_of_filter in Hk as [_ ?].
Qed.

(** Of two unanswered items with one Q-vector and one difficulty, and
    discriminations 1 and 2, the second is selected against a zero
    proficiency: the informations are 1/4 and 1. *)
Example select_next_question_prefers_discrimination :
  select_next_question [Samples.item "a" 1; Samples.item "b" 2]
    Samples.items_q_matrix [0; 0; 0; 0; 0] []
  = Some (Samples.item "b" 2).
Proof.
  assert (forall id a,
            Samples.items_q_matrix !! id = Some [1; 0; 0; 0; 0] ->
            _calculate_information (Samples.item id a) [0; 0; 0; 0; 0]
              Samples.items_q_matrix = a ^ 2 * (1 / 2) * (1 - 1 / 2)) as Hinfo.
  { intros id a Hid. unfold _calculate_information, _calculate_probability,
      q_vector_of.
    simpl q_id. rewrite Hid.
    change (discrimination_of (Samples.item id a)) with a. simpl.
    replace (a * (1 * 0 + (0 * 0 + (0 * 0 + (0 * 0 + (0 * 0 + 0))))) - 0)
      with 0 by ring.
    rewrite expit_0, np_clip_id; [reflexivity|lra]. }
  unfold select_next_question.
  replace (available_questions _ []) with [Samples.item "a" 1; Samples.item "b" 2]
    by (rewrite available_questions_list; reflexivity).
  rewrite select_loop_start. simpl.
  rewrite !Hinfo by reflexivity.
  destruct (Rlt_dec _ _); [reflexivity|lra].
Qed.

(** *** Proficiency update *)

Lemma zip_add_lookup u v i a b :
  u !! i = Some a -> v !! i = Some b -> zip_add u v !! i = Some (a + b).
Proof.
  revert v i. induction u as [|x u IH]; intros [|y v] [|i] Hu Hv;
    simplify_eq/=; eauto.
Qed.

(** Whenever the broadcast sum exists and both operands have a component
    [i], component [i] of the sum is their sum. *)
Lemma np_add_lookup u v w i a b :
  np_add u v = Some w -> u !! i = Some a -> v !! i = Some b ->
  w !! i = Some (a + b).
Proof.
  unfold np_add. intros Hadd Hu Hv. destruct (decide _) as [Hlen|Hlen].
  - simplify_eq. by apply zip_add_lookup.
  - destruct u as [|x [|x' u]], v as [|y [|y' v]]; simplify_eq/=;
      destruct i as [|i]; simplify_eq/=; try done.
Qed.




Lemma zip_add_length u v :
  length u = length v -> length (zip_add u v) = length u.
Proof.
  revert v. induction u as [|x u IH]; intros [|y v] Hlen; simplify_eq/=; auto.
Qed.

(** With Q-vector and proficiency of one length, the update keeps that
    length. *)
Lemma update_ability_same_length learning_rate proficiency question response
    q_matrix :
  length (q_vector_of q_matrix (q_id question) proficiency) = length proficiency ->
  length (update_ability learning_rate proficiency question response q_matrix)
  = length proficiency.
Proof.
  intros Hlen. unfold update_ability, np_add.
  rewrite decide_True by (unfold np_scale; by rewrite !length_map).
  rewrite length_map, zip_add_length; [done|].
  unfold np_scale. by rewrite !length_map.
Qed.

(** With Q-vector and proficiency of one length, a correct response to an
    item loading on the first concept strictly raises a first component
    below the upper clamp. *)
Lemma update_ability_raises_first_component learning_rate proficiency question
    q_matrix t :
  0 < learning_rate ->
  0 < discrimination_of question ->
  length (q_vector_of q_matrix (q_id question) proficiency) = length proficiency ->
  proficiency !! 0%nat = Some t ->
  q_vector_of q_matrix (q_id question) proficiency !! 0%nat = Some 1 ->
  t < 3 ->
  exists t',
    update_ability learning_rate proficiency question 1 q_matrix !! 0%nat
      = Some t' /\ t < t'.
Proof.
  intros Hlr Ha Hlen Ht Hq Hlt. unfold update_ability.
  pose proof (probability_bounds proficiency question q_matrix) as Hp.
  set (p := _calculate_probability proficiency question q_matrix) in *.
  set (a := discrimination_of question) in *.
  destruct (np_add _ _) as [w|] eqn:Hadd.
  - eexists. split.
    + rewrite list_lookup_fmap.
      erewrite np_add_lookup; [reflexivity|exact Hadd|exact Ht|].
      unfold np_scale. by rewrite !list_lookup_fmap, Hq.
    + assert (0 < (1 - p) * p * (1 - p) * a * 1) by
        (repeat apply Rmult_lt_0_compat; lra).
      assert (0 < learning_rate * ((1 - p) * p * (1 - p) * a * 1)) by
        (by apply Rmult_lt_0_compat).
      unfold np_clip, Rmin, Rmax. repeat destruct (Rle_dec _ _); lra.
  - unfold np_add in Hadd. rewrite decide_True in Hadd; [done|].
    unfold np_scale. by rewrite !length_map.
Qed.




(** *** Default Q-vector *)

(** C2 (as amended).  For a question whose id has no entry in the
    Q-matrix, probability and update use the all-ones vector of the length
    of the proficiency vector: the item loads on every concept. *)
Theorem missing_q_vector_defaults_to_all_ones
    (learning_rate : R) (proficiency : list R) (question : Question)
    (response : Z) (q_matrix : gmap string (list R)) :
  q_matrix !! q_id question = None ->
  q_vector_of q_matrix (q_id question) proficiency
    = repeat 1 (length proficiency) /\
  _calculate_probability proficiency question q_matrix
    = _calculate_probability proficiency question
        (<[q_id question := repeat 1 (length proficiency)]> q_matrix) /\
  update_ability learning_rate proficiency question response q_matrix
    = update_ability learning_rate proficiency question response
        (<[q_id question := repeat 1 (length proficiency)]> q_matrix).
Proof.
  intros Hnone.
  assert (forall qm' : gmap string (list R),
            qm' = <[q_id question := repeat 1 (length proficiency)]> q_matrix ->
            q_vector_of qm' (q_id question) proficiency
            = q_vector_of q_matrix (q_id question) proficiency) as Hq.
  { intros qm' ->. unfold q_vector_of. by rewrite lookup_insert_eq, Hnone. }
  split; [unfold q_vector_of; by rewrite Hnone|].
  unfold update_ability, _calculate_probability.
  by rewrite (Hq _ eq_refl).
Qed.

Lemma missing_q_vector_defaults_to_all_ones_witness :
  q_vector_of ∅ "q1" [0; 0] = [1; 1] /\
  _calculate_probability [0; 0] (Samples.bare_question "q1") ∅
    = _calculate_probability [0; 0] (Samples.bare_question "q1")
        (<["q1"%string := [1; 1]]> ∅) /\
  update_ability (1 / 10) [0; 0] (Samples.bare_question "q1") 1 ∅
    = update_ability (1 / 10) [0; 0] (Samples.bare_question "q1") 1
        (<["q1"%string := [1; 1]]> ∅).
Proof.
  apply (missing_q_vector_defaults_to_all_ones (1 / 10) [0; 0]
           (Samples.bare_question "q1") 1 ∅).
  reflexivity.
Defined.

Lemma expit_1_above_half : 1 / 2 < expit 1.
Proof.
  unfold expit.
  assert (exp (- 1) < 1) as Hlt.
  { rewrite <- exp_0. apply exp_increasing. lra. }
  pose proof (exp_pos (- 1)) as Hpos.
  apply Rmult_lt_reg_r with (1 + exp (- 1)); [lra|].
  unfold Rdiv at 2. rewrite Rmult_assoc, Rinv_l; lra.
Qed.

(** C2 as stated fails: with no Q-matrix entry the vector used is not
    [1, 0], and both the probability and the update differ from those of
    an item loading on concept 0 only. *)
Lemma missing_q_vector_is_not_first_concept_only :
  (∅ : gmap string (list R)) !! q_id (Samples.bare_question "q1") = None /\
  q_vector_of ∅ "q1" [0; 0] <> [1; 0] /\
  _calculate_probability [0; 1] (Samples.bare_question "q1") ∅
    <> _calculate_probability [0; 1] (Samples.bare_question "q1")
         {["q1"%string := [1; 0]]} /\
  update_ability (1 / 10) [0; 0] (Samples.bare_question "q1") 1 ∅
    <> update_ability (1 / 10) [0; 0] (Samples.bare_question "q1") 1
         {["q1"%string := [1; 0]]}.
Proof.
  split; [reflexivity|]. split.
  { change (q_vector_of ∅ "q1" [0; 0]) with [1; 1]. intros Heq.
    injection Heq as Heq. lra. }
  split.
  - unfold _calculate_probability.
    change (q_vector_of ∅ _ _) with [1; 1].
    change (q_vector_of {["q1"%string := [1; 0]]} _ _) with [1; 0].
    simpl. change (discrimination_of (Samples.bare_question "q1")) with 1.
    replace (1 * (1 * 0 + (1 * 1 + 0)) - 0) with 1 by ring.
    replace (1 * (1 * 0 + (0 * 1 + 0)) - 0) with 0 by ring.
    rewrite expit_0. pose proof expit_1_above_half as H1.
    unfold np_clip, Rmin, Rmax. repeat destruct (Rle_dec _ _); lra.
  - unfold update_ability.
    pose proof (probability_bounds [0; 0] (Samples.bare_question "q1") ∅) as Hp.
    pose proof (probability_bounds [0; 0] (Samples.bare_question "q1")
                  {["q1"%string := [1; 0]]}) as Hp'.
    set (p := _calculate_probability _ _ ∅) in *.
    set (p' := _calculate_probability _ _ {[ _ := _ ]}) in *.
    change (q_vector_of ∅ _ _) with [1; 1].
    change (q_vector_of {["q1"%string := [1; 0]]} _ _) with [1; 0].
    simpl. change (discrimination_of (Samples.bare_question "q1")) with 1.
    intros Heq. injection Heq as _ Heq. revert Heq.
    assert (0 < (1 - p) * p * (1 - p)) by (repeat apply Rmult_lt_0_compat; lra).
    assert ((1 - p) * p * (1 - p) <= 1).
    { assert ((1 - p) * p <= 1) by nra. nra. }
    rewrite !np_clip_id; lra.
Qed.

(** *** Stopping rule *)

(** C5 (as amended).  Below [min_questions] the rule continues, whatever
    the type and [max_questions]; at or above [max_questions] it stops
    provided [min_questions] has been reached as well. *)
Theorem should_continue_respects_bounds
    (responses : list Response) (proficiency : list R) (end_criteria : EndCriteria) :
  let answered := Z.of_nat (length responses) in
  let min_questions := default 5%Z (ec_min_questions end_criteria) in
  let max_questions := default 20%Z (ec_max_questions end_criteria) in
  ((answered < min_questions)%Z ->
   should_continue responses proficiency end_criteria = true) /\
  ((min_questions <= answered)%Z -> (max_questions <= answered)%Z ->
   should_continue responses proficiency end_criteria = false).
Proof.
  intros answered min_questions max_questions. unfold should_continue.
  fold answered min_questions max_questions. split.
  - intros Hlt. by rewrite bool_decide_eq_true_2.
  - intros Hmin Hmax.
    rewrite bool_decide_eq_false_2 by lia.
    rewrite bool_decide_eq_true_2 by lia. reflexivity.
Qed.

Lemma should_continue_respects_bounds_witness :
  should_continue [Samples.response_to "q1"] [1 / 2]
    (Samples.criteria "precision" 2 3) = true /\
  should_continue
    [Samples.response_to "q1"; Samples.response_to "q2"; Samples.response_to "q3"]
    [1 / 2] (Samples.criteria "precision" 2 3) = false.
Proof.
  split.
  - apply (should_continue_respects_bounds [Samples.response_to "q1"] [1 / 2]
             (Samples.criteria "precision" 2 3)).
    simpl. lia.
  - apply (should_continue_respects_bounds
             [Samples.response_to "q1"; Samples.response_to "q2";
              Samples.response_to "q3"]
             [1 / 2] (Samples.criteria "precision" 2 3)); simpl; lia.
Defined.

(** C5 as stated fails when [min_questions] exceeds [max_questions]: with
    seven responses, [min_questions = 10] and [max_questions = 5] the rule
    continues although [max_questions] has been reached. *)
Lemma should_continue_min_overrides_max :
  let responses := replicate 7 (Samples.response_to "q1") in
  let end_criteria := Samples.criteria "fixed_length" 10 5 in
  (Z.of_nat (length responses) >= default 20 (ec_max_questions end_criteria))%Z /\
  should_continue responses [1 / 2] end_criteria = true.
Proof. split; [simpl; lia | reflexivity]. Qed.

End EngineFacts.

(** ** The selection in floating point *)

Section FloatFacts.
Import PyFloat FloatEngine.

Lemma gt_irrefl x : gt x x = false.
Proof.
  destruct x as [a| | |]; simpl; try done.
  destruct (Rlt_dec a a); [lra|done].
Qed.

Lemma gt_trans x y z : gt x y = true -> gt y z = true -> gt x z = true.
Proof.
  destruct x as [a| | |], y as [b| | |], z as [c| | |]; simpl; try done.
  repeat destruct (Rlt_dec _ _); try done. lra.
Qed.

(** What is not above [m] is below everything above [m], or nan. *)
Lemma gt_below x m a :
  gt x m = true -> gt a m = false -> gt x a = true \/ a = NaN.
Proof.
  destruct x as [x| | |], m as [m| | |], a as [a| | |]; simpl; try done;
    try (by left); try (by right);
    repeat destruct (Rlt_dec _ _); try done; try (by left); try lra.
Qed.

Lemma gt_above x m a : gt x m = true -> gt a m = false -> gt a x = false.
Proof.
  intros Hx Ha. destruct (gt a x) eqn:Hax; [|done].
  by rewrite (gt_trans a x m Hax Hx) in Ha.
Qed.

(** Only nan fails to exceed the initial [-1] of the loop. *)
Lemma not_negative_seed x :
  not_negative x -> gt x (Finite (-1)) = false -> x = NaN.
Proof.
  destruct x as [a| | |]; simpl; try done.
  destruct (Rlt_dec (-1) a); [done|]. intros. lra.
Qed.

(** A clipped float is nan or inside the bounds. *)
Lemma clip_range x lo hi :
  lo <= hi ->
  clip x (Finite lo) (Finite hi) = NaN
  \/ exists p, clip x (Finite lo) (Finite hi) = Finite p /\ lo <= p <= hi.
Proof.
  intros Hle. destruct x as [a| | |]; unfold clip, maximum, minimum; simpl.
  - destruct (Rlt_dec a lo); simpl.
    + destruct (Rlt_dec hi lo); [lra|]. right. exists lo. split; [done|lra].
    + destruct (Rlt_dec hi a); right; eexists; (split; [done|lra]).
  - destruct (Rlt_dec hi lo); right; eexists; (split; [done|lra]).
  - right. simpl. destruct (Rlt_dec hi lo); [lra|]. eexists. split; [done|lra].
  - by left.
Qed.

Context `{FloatArith}.

(** The computed probability and information are never below zero,
    whatever the operations round to. *)
Lemma probability_not_negative proficiency question q_matrix :
  not_negative (_calculate_probability proficiency question q_matrix)
  /\ gt (_calculate_probability proficiency question q_matrix) (Finite 1) = false.
Proof.
  unfold _calculate_probability. destruct (decide _).
  - destruct (clip_range
                (float_expit
                   (float_sub
                      (float_mul (Finite (default 1 (q_discrimination question)))
                         (float_dot
                            (default (repeat 1 (length proficiency))
                               (q_matrix !! q_id question)) proficiency))
                      (Finite (default 0 (q_difficulty question)))))
                (1 / 100) (99 / 100)) as [->|(p & -> & Hp)]; [lra|done|].
    simpl. split; [lra|]. destruct (Rlt_dec 1 p); [lra|done].
  - simpl. split; [lra|]. destruct (Rlt_dec _ _); [lra|done].
Qed.

Lemma information_not_negative question proficiency q_matrix :
  not_negative (_calculate_information question proficiency q_matrix).
Proof.
  unfold _calculate_information.
  destruct (probability_not_negative proficiency question q_matrix) as [Hp H1].
  destruct (float_pow _ 2) as [square|] eqn:Hpow; [|simpl; lra].
  apply float_mul_sign; [apply float_mul_sign|].
  - by eapply float_pow_even.
  - done.
  - by apply float_sub_sign.
Qed.

(** Invariant of the selection loop. *)
Lemma select_loop_state proficiency q_matrix first rest :
  forall pre max_info best,
    loop_state proficiency q_matrix first pre max_info best ->
    exists max_info',
      loop_state proficiency q_matrix first (pre ++ rest) max_info'
        (select_loop rest proficiency q_matrix max_info best).
Proof.
  induction rest as [|question rest IH]; intros pre max_info best Hstate.
  - rewrite app_nil_r. by exists max_info.
  - simpl select_loop.
    replace (pre ++ question :: rest) with ((pre ++ [question]) ++ rest)
      by (by rewrite <- app_assoc).
    set (x := _calculate_information question proficiency q_matrix).
    pose proof (information_not_negative question proficiency q_matrix) as Hx.
    fold x in Hx.
    destruct (gt x max_info) eqn:Hgt; apply IH.
    + right. split; [done|].
      destruct Hstate as [(-> & -> & Hnan)|(-> & Hseed & i & Hi & Hmax & Hfirst)].
      * split; [done|]. exists (length pre). split_and!.
        -- by rewrite lookup_app_r, Nat.sub_diag.
        -- intros j q Hj. apply lookup_app_Some in Hj as [Hj|[_ Hj]].
           ++ by rewrite (Hnan _ _ Hj).
           ++ apply list_lookup_singleton_Some in Hj as [_ <-]. apply gt_irrefl.
        -- intros j q Hj Hlt. apply lookup_app_Some in Hj as [Hj|[Hge _]]; [|lia].
           right. by eapply Hnan.
      * split; [by eapply gt_trans|]. exists (length pre). split_and!.
        -- by rewrite lookup_app_r, Nat.sub_diag.
        -- intros j q Hj. apply lookup_app_Some in Hj as [Hj|[_ Hj]].
           ++ eapply gt_above; [exact Hgt|]. by eapply Hmax.
           ++ apply list_lookup_singleton_Some in Hj as [_ <-]. apply gt_irrefl.
        -- intros j q Hj Hlt. apply lookup_app_Some in Hj as [Hj|[Hge _]]; [|lia].
           eapply gt_below; [exact Hgt|]. by eapply Hmax.
    + destruct Hstate as [(-> & -> & Hnan)|(-> & Hseed & i & Hi & Hmax & Hfirst)].
      * left. split_and!; [done..|].
        intros j q Hj. apply lookup_app_Some in Hj as [Hj|[_ Hj]]; [by eapply Hnan|].
        apply list_lookup_singleton_Some in Hj as [_ <-].
        by apply not_negative_seed.
      * right. split_and!; [done..|]. exists i. split_and!.
        -- by apply lookup_app_l_Some.
        -- intros j q Hj. apply lookup_app_Some in Hj as [Hj|[_ Hj]]; [by eapply Hmax|].
           by apply list_lookup_singleton_Some in Hj as [_ <-].
        -- intros j q Hj Hlt. apply lookup_app_Some in Hj as [Hj|[Hge _]].
           ++ by eapply Hfirst.
           ++ apply lookup_lt_Some in Hi. lia.
Qed.

(** C6 (as amended).  [select_next_question] returns the empty marker
    exactly when every question of the pool has its id in the response
    list; otherwise it returns a question of the pool whose id is not in
    the response list and whose information, as the engine computes it in
    floating point ([discrimination ** 2 * p * (1 - p)], and [0.0] when
    that computation raises), no unanswered question exceeds; every
    unanswered question before it in pool order has a smaller information
    or nan; and it has the information nan only when every unanswered
    question has, and then it is the first of them.  This holds however
    the float operations round. *)
Theorem select_next_question_max_computed_information
    (questions : list Question) (q_matrix : gmap string (list R))
    (proficiency : list R) (responses : list Response) :
  let probability q :=
    let q_vector :=
      default (repeat 1 (length proficiency)) (q_matrix !! q_id q) in
    if decide (length q_vector = length proficiency) then
      clip (float_expit
              (float_sub
                 (float_mul (Finite (default 1 (q_discrimination q)))
                    (float_dot q_vector proficiency))
                 (Finite (default 0 (q_difficulty q)))))
           (Finite (1 / 100)) (Finite (99 / 100))
    else Finite (1 / 2) in
  let information q :=
    match float_pow (Finite (default 1 (q_discrimination q))) 2 with
    | Some square =>
        float_mul (float_mul square (probability q))
          (float_sub (Finite 1) (probability q))
    | None => Finite 0
    end in
  let remaining :=
    filter (fun q => q_id q ∉ map r_question_id responses) questions in
  match select_next_question questions q_matrix proficiency responses with
  | None =>
      forall q, q ∈ questions -> q_id q ∈ map r_question_id responses
  | Some best =>
      best ∈ questions /\
      (q_id best ∉ map r_question_id responses) /\
      exists k,
        remaining !! k = Some best /\
        (forall j q, remaining !! j = Some q ->
           gt (information q) (information best) = false) /\
        (forall j q, remaining !! j = Some q -> (j < k)%nat ->
           (gt (information best) (information q) = true
            \/ information q = NaN)) /\
        (information best = NaN ->
         k = 0%nat /\
         forall j q, remaining !! j = Some q -> information q = NaN)
  end.
Proof.
  intros probability information remaining.
  assert (information = fun q => _calculate_information q proficiency q_matrix)
    as Hinformation by reflexivity.
  clearbody information. subst information. clear probability. cbv beta.
  unfold select_next_question.
  rewrite available_questions_list. fold remaining.
  destruct remaining as [|first rest] eqn:Hrem.
  - intros q Hq.
    destruct (decide (q_id q ∈ map r_question_id responses)) as [|Hn]; [done|].
    assert (q ∈ remaining) as Hin by (by apply list_elem_of_filter).
    rewrite Hrem in Hin. by apply elem_of_nil in Hin.
  - destruct (select_loop_state proficiency q_matrix first (first :: rest) []
                (Finite (-1)) first) as [max_info Hstate].
    { left. split_and!; [done..|]. intros j q Hj. by rewrite lookup_nil in Hj. }
    rewrite app_nil_l in Hstate. unfold loop_state in Hstate.
    cbv zeta in Hstate.
    set (best := select_loop (first :: rest) proficiency q_matrix (Finite (-1)) first)
      in *.
    assert (best ∈ remaining) as Hin.
    { rewrite Hrem.
      destruct Hstate as [(_ & -> & _)|(_ & _ & i & Hi & _)].
      - apply list_elem_of_here.
      - by eapply list_elem_of_lookup_2. }
    apply list_elem_of_filter in Hin as [Hfresh Hin].
    split; [done|]. split; [done|].
    destruct Hstate as [(_ & Hbest & Hnan)|(_ & Hseed & i & Hi & Hmax & Hfirst)].
    + exists 0%nat. split_and!.
      * by rewrite Hbest.
      * intros j q Hj. by rewrite (Hnan _ _ Hj).
      * intros j q _ Hlt. lia.
      * intros _. split; [done|]. exact Hnan.
    + exists i. split_and!; [done..|].
      intros Hnan. by rewrite Hnan in Hseed.
Qed.

End FloatFacts.

Section FloatExamples.
Import PyFloat FloatEngine.

(** On finite floats [clip] is the [np_clip] of the exact engine. *)
Lemma clip_Finite x lo hi :
  lo <= hi ->
  clip (Finite x) (Finite lo) (Finite hi) = Finite (np_clip x lo hi).
Proof.
  intros Hle. unfold clip, maximum, minimum, np_clip, Rmin, Rmax. simpl.
  destruct (Rlt_dec x lo); simpl;
    repeat destruct (Rlt_dec _ _); repeat destruct (Rle_dec _ _);
    f_equal; lra.
Qed.

Lemma np_dot_length u v :
  length u = length v -> exists d, np_dot u v = Some d.
Proof.
  revert v. induction u as [|x u IH]; intros [|y v] Hlen; try done.
  - by exists 0.
  - injection Hlen as Hlen. destruct (IH v Hlen) as [d Hd].
    simpl. rewrite Hd. by eexists.
Qed.

Lemma np_dot_None u v : length u <> length v -> np_dot u v = None.
Proof.
  revert v. induction u as [|x u IH]; intros [|y v] Hlen; try done.
  simpl. rewrite IH; [done|]. intros Heq. apply Hlen. simpl. by rewrite Heq.
Qed.

(** In exact arithmetic without a largest float the selection path over
    the floats is the one of the exact engine. *)
Lemma exact_probability proficiency question q_matrix :
  @_calculate_probability (exact_arith None) proficiency question q_matrix
  = Finite (AdaptiveEngine._calculate_probability proficiency question q_matrix).
Proof.
  unfold _calculate_probability, AdaptiveEngine._calculate_probability,
    AdaptiveEngine.q_vector_of, AdaptiveEngine.discrimination_of.
  set (q_vector := default _ (q_matrix !! q_id question)).
  destruct (decide (length q_vector = length proficiency)) as [Hlen|Hlen].
  - destruct (np_dot_length _ _ Hlen) as [d Hd]. rewrite Hd. simpl.
    unfold exact_dot. rewrite Hd. simpl. apply clip_Finite. lra.
  - by rewrite np_dot_None.
Qed.

Lemma exact_information question proficiency q_matrix :
  @_calculate_information (exact_arith None) question proficiency q_matrix
  = Finite (AdaptiveEngine._calculate_information question proficiency q_matrix).
Proof.
  unfold _calculate_information. rewrite exact_probability. reflexivity.
Qed.

Lemma exact_select_loop proficiency q_matrix available max_info best :
  @select_loop (exact_arith None) available proficiency q_matrix
    (Finite max_info) best
  = AdaptiveEngine.select_loop available proficiency q_matrix max_info best.
Proof.
  revert max_info best. induction available as [|question rest IH];
    intros max_info best; [done|].
  simpl. rewrite exact_information. simpl.
  destruct (Rlt_dec max_info _); apply IH.
Qed.

Lemma exact_select_next_question questions q_matrix proficiency responses :
  @select_next_question (exact_arith None) questions q_matrix proficiency responses
  = AdaptiveEngine.select_next_question questions q_matrix proficiency responses.
Proof.
  unfold select_next_question, AdaptiveEngine.select_next_question.
  destruct (AdaptiveEngine.available_questions _ _); [done|].
  by rewrite exact_select_loop.
Qed.

(** C6 as stated fails where a square overflows.  Of two unanswered items
    with one Q-vector and one difficulty, and discriminations [1e200] and
    [1], the second is selected against a zero proficiency although its
    Fisher information [a^2 * p * (1 - p)] is the smaller, [1/4] against
    [1e400/4]: [1e200 ** 2] raises [OverflowError], so the computed
    information of the first is [0.0].  Every other operation of this run
    is exact in binary64. *)
Lemma select_next_question_passes_over_overflowing_item :
  let steep := Samples.item "a" 1e200 in
  let plain := Samples.item "b" 1 in
  let proficiency := [0; 0; 0; 0; 0] in
  let fisher q :=
    default 1 (q_discrimination q) ^ 2
    * AdaptiveEngine._calculate_probability proficiency q Samples.items_q_matrix
    * (1 - AdaptiveEngine._calculate_probability proficiency q
             Samples.items_q_matrix) in
  @select_next_question (exact_arith (Some binary64_overflow)) [steep; plain]
    Samples.items_q_matrix proficiency [] = Some plain
  /\ fisher plain < fisher steep.
Proof.
  intros steep plain proficiency fisher.
  assert (forall id a,
            Samples.items_q_matrix !! id = Some [1; 0; 0; 0; 0] ->
            AdaptiveEngine._calculate_probability proficiency
              (Samples.item id a) Samples.items_q_matrix = 1 / 2) as Hp.
  { intros id a Hid.
    unfold AdaptiveEngine._calculate_probability, AdaptiveEngine.q_vector_of.
    simpl q_id. rewrite Hid.
    change (AdaptiveEngine.discrimination_of (Samples.item id a)) with a. simpl.
    replace (a * (1 * 0 + (0 * 0 + (0 * 0 + (0 * 0 + (0 * 0 + 0))))) - 0)
      with 0 by ring.
    rewrite expit_0, np_clip_id; [reflexivity|lra]. }
  split.
  - unfold select_next_question.
    replace (AdaptiveEngine.available_questions _ [])
      with [steep; plain] by (rewrite available_questions_list; reflexivity).
    assert (@_calculate_information (exact_arith (Some binary64_overflow)) steep
              proficiency Samples.items_q_matrix = Finite 0) as Hsteep.
    { unfold _calculate_information. simpl float_pow. unfold exact_pow.
      simpl default.
      destruct (Rlt_dec _ _) as [Hlt|]; [|done].
      rewrite Rabs_pos_eq in Hlt by apply pow2_ge_0.
      unfold binary64_overflow in Hlt. lra. }
    assert (@_calculate_information (exact_arith (Some binary64_overflow)) plain
              proficiency Samples.items_q_matrix
            = Finite (1 ^ 2 * (1 / 2) * (1 - 1 / 2))) as Hplain.
    { unfold _calculate_information. simpl float_pow. unfold exact_pow.
      simpl default.
      destruct (Rlt_dec _ _) as [|Hge].
      2:{ exfalso. apply Hge. rewrite Rabs_pos_eq by apply pow2_ge_0.
          unfold binary64_overflow. lra. }
      assert (@_calculate_probability (exact_arith (Some binary64_overflow))
                proficiency plain Samples.items_q_matrix = Finite (1 / 2)) as ->.
      { unfold _calculate_probability. simpl q_id.
        change (Samples.items_q_matrix !! "b"%string) with (Some [1; 0; 0; 0; 0]).
        simpl. unfold exact_dot. simpl.
        replace (1 * (1 * 0 + (0 * 0 + (0 * 0 + (0 * 0 + (0 * 0 + 0))))) - 0)
          with 0 by ring.
        rewrite expit_0, clip_Finite, np_clip_id by lra. done. }
      reflexivity. }
    simpl select_loop. rewrite Hsteep, Hplain. simpl.
    destruct (Rlt_dec (-1) 0); [|lra].
    destruct (Rlt_dec 0 _); [done|lra].
  - subst fisher steep plain. cbv beta.
    rewrite (Hp "a" 1e200), (Hp "b" 1) by reflexivity. simpl default. lra.
Qed.

End FloatExamples.

(** ** The hot store *)

Section RedisFacts.
Import RedisService.

(** A key just written with [SETEX] is read back until its lifetime ends. *)
Lemma get_after_setex key ttl value now r r' t :
  RedisClient.setex key ttl value now r = Returns r' ->
  RedisClient.get key t r' =
    Returns (if bool_decide (t < now + ttl)%Z then Some value else None).
Proof.
  unfold RedisClient.setex, RedisClient.get. destruct (redis_up r); [|done].
  case_bool_decide; [|done].
  intros [= <-]. simpl. by rewrite lookup_insert_eq.
Qed.

(** C10. A write through [store_session_state] stores the caller's state
    with [last_activity] replaced by the current time, whatever value the
    caller supplied, under a lifetime of 30 minutes from now: the state is
    read back until then and is gone afterwards. *)
Theorem store_session_state_refreshes_inactivity_clock
    (session_id : string) (state : SessionState) (now : Z) (r : Redis) :
  (store_session_state session_id state now r).1 = true ->
  exists stored,
    redis_keys (store_session_state session_id state now r).2
      !! session_key session_id
      = Some ((now + 30 * 60)%Z, RSession stored) /\
    st_last_activity stored = Some now /\
    st_student_id stored = st_student_id state /\
    st_question_pool_id stored = st_question_pool_id state /\
    st_current_proficiency stored = st_current_proficiency state /\
    st_next_question_id stored = st_next_question_id state /\
    st_status stored = st_status state /\
    st_questions_answered stored = st_questions_answered state /\
    st_correct_count stored = st_correct_count state /\
    st_end_criteria stored = st_end_criteria state /\
    forall t,
      get_session_state session_id t
        (store_session_state session_id state now r).2
      = if bool_decide (t < now + 30 * 60)%Z then Some stored else None.
Proof.
  unfold store_session_state.
  destruct (RedisClient.setex _ _ _ _ _) as [r'|] eqn:Hset; [|done].
  intros _. exists (set_last_activity now state). simpl.
  split.
  { unfold RedisClient.setex in Hset. destruct (redis_up r); [|done].
    injection Hset as <-. simpl. by rewrite lookup_insert_eq. }
  do 9 (split; [reflexivity|]).
  intros t. unfold get_session_state.
  rewrite (get_after_setex _ _ _ _ _ _ t Hset). by case_bool_decide.
Qed.

Lemma store_session_state_refreshes_inactivity_clock_witness :
  exists stored,
    redis_keys
      (store_session_state "sess-1" Samples.stale_state 100 Samples.empty_redis).2
      !! session_key "sess-1"
      = Some ((100 + 30 * 60)%Z, RSession stored) /\
    st_last_activity stored = Some 100%Z /\
    st_student_id stored = st_student_id Samples.stale_state /\
    st_question_pool_id stored = st_question_pool_id Samples.stale_state /\
    st_current_proficiency stored = st_current_proficiency Samples.stale_state /\
    st_next_question_id stored = st_next_question_id Samples.stale_state /\
    st_status stored = st_status Samples.stale_state /\
    st_questions_answered stored = st_questions_answered Samples.stale_state /\
    st_correct_count stored = st_correct_count Samples.stale_state /\
    st_end_criteria stored = st_end_criteria Samples.stale_state /\
    forall t,
      get_session_state "sess-1" t
        (store_session_state "sess-1" Samples.stale_state 100 Samples.empty_redis).2
      = if bool_decide (t < 100 + 30 * 60)%Z then Some stored else None.
Proof.
  apply (store_session_state_refreshes_inactivity_clock "sess-1"
           Samples.stale_state 100 Samples.empty_redis).
  reflexivity.
Defined.

(** Every operation of the service leaves the reachability of the server
    as it was. *)
Lemma setex_up key ttl value now r r' :
  RedisClient.setex key ttl value now r = Returns r' ->
  redis_up r = true /\ redis_up r' = true.
Proof.
  unfold RedisClient.setex. destruct (redis_up r) eqn:Hup; [|done].
  case_bool_decide; [|done]. by intros [= <-].
Qed.

Lemma store_session_state_up session_id state now r :
  redis_up (store_session_state session_id state now r).2 = redis_up r.
Proof.
  unfold store_session_state.
  destruct (RedisClient.setex _ _ _ _ _) eqn:Hset; [|done].
  apply setex_up in Hset as [Hr Hr']. simpl. congruence.
Qed.

Lemma get_session_state_up session_id now r state :
  get_session_state session_id now r = Some state -> redis_up r = true.
Proof.
  unfold get_session_state, RedisClient.get. by destruct (redis_up r).
Qed.

Lemma update_session_proficiency_up session_id proficiency n now r :
  redis_up (update_session_proficiency session_id proficiency n now r).2
  = redis_up r.
Proof.
  unfold update_session_proficiency.
  destruct (get_session_state _ _ _); [apply store_session_state_up|done].
Qed.

Lemma delete_up key now r n r' :
  RedisClient.delete key now r = Returns (n, r') ->
  redis_up r = true /\ redis_up r' = true /\
  redis_keys r' = delete key (redis_keys r).
Proof.
  unfold RedisClient.delete, RedisClient.get.
  destruct (redis_up r) eqn:Hup; [|done].
  destruct (redis_keys r !! key); intros [= <- <-]; simpl; auto.
Qed.

Lemma delete_session_state_up session_id now r :
  redis_up (delete_session_state session_id now r).2 = redis_up r.
Proof.
  unfold delete_session_state.
  destruct (RedisClient.delete _ _ _) as [[n r']|] eqn:Hdel; [|done].
  apply delete_up in Hdel as (Hr & Hr' & _). simpl. congruence.
Qed.

Lemma cache_question_up question_id question now r :
  redis_up (cache_question question_id question now r).2 = redis_up r.
Proof.
  unfold cache_question.
  destruct (RedisClient.setex _ _ _ _ _) eqn:Hset; [|done].
  apply setex_up in Hset as [Hr Hr']. simpl. congruence.
Qed.

Lemma cache_question_pool_up pool_id pool_data ttl_hours now r :
  redis_up (cache_question_pool pool_id pool_data ttl_hours now r).2 = redis_up r.
Proof.
  unfold cache_question_pool.
  destruct (RedisClient.setex _ _ _ _ _) eqn:Hset; [|done].
  apply setex_up in Hset as [Hr Hr']. simpl. congruence.
Qed.

(** Keys of different families never collide. *)
Lemma lock_key_ne_session_key session_id question_id session_id' :
  lock_key session_id question_id <> session_key session_id'.
Proof. unfold lock_key, session_key. simpl. intros [=]. Qed.

(** The state read back right after a successful store. *)
Lemma get_session_state_after_store session_id state now r :
  redis_up r = true ->
  get_session_state session_id now (store_session_state session_id state now r).2
  = Some (set_last_activity now state).
Proof.
  intros Hup. unfold store_session_state.
  destruct (RedisClient.setex _ _ _ _ _) as [r'|] eqn:Hset.
  - unfold get_session_state. simpl.
    rewrite (get_after_setex _ _ _ _ _ _ now Hset).
    rewrite bool_decide_eq_true_2; [done|lia].
  - unfold RedisClient.setex in Hset. by rewrite Hup in Hset.
Qed.

(** Taking and releasing a submission lock does not touch session
    states. *)
Lemma acquire_submission_lock_spec session_id question_id now r r' :
  acquire_submission_lock session_id question_id now r = (true, r') ->
  redis_up r = true /\ redis_up r' = true /\
  forall session_id' t,
    get_session_state session_id' t r' = get_session_state session_id' t r.
Proof.
  unfold acquire_submission_lock, RedisClient.set_nx, RedisClient.get.
  destruct (redis_up r) eqn:Hup; [|done].
  destruct (redis_keys r !! lock_key _ _) as [entry|] eqn:Hkey.
  - destruct (RedisClient.alive now entry); [done|].
    intros [= <-]. simpl. split_and!; [done..|].
    intros session_id' t. unfold get_session_state, RedisClient.get. simpl.
    rewrite Hup, lookup_insert_ne; [done|apply lock_key_ne_session_key].
  - intros [= <-]. simpl. split_and!; [done..|].
    intros session_id' t. unfold get_session_state, RedisClient.get. simpl.
    rewrite Hup, lookup_insert_ne; [done|apply lock_key_ne_session_key].
Qed.

Lemma release_submission_lock_get_session session_id question_id now r
    session_id' t :
  get_session_state session_id' t
    (release_submission_lock session_id question_id now r).2
  = get_session_state session_id' t r.
Proof.
  unfold release_submission_lock.
  destruct (RedisClient.delete _ _ _) as [[n r']|] eqn:Hdel; [|done].
  apply delete_up in Hdel as (Hup & Hup' & Hkeys). simpl.
  unfold get_session_state, RedisClient.get.
  rewrite Hup, Hup', Hkeys, lookup_delete_ne; [done|].
  apply lock_key_ne_session_key.
Qed.

(** A released lock can be taken again at once. *)
Lemma acquire_after_release session_id question_id now now' r :
  redis_up r = true ->
  (acquire_submission_lock session_id question_id now'
     (release_submission_lock session_id question_id now r).2).1 = true.
Proof.
  intros Hup. unfold release_submission_lock.
  destruct (RedisClient.delete _ _ _) as [[n r']|] eqn:Hdel.
  - apply delete_up in Hdel as (_ & Hup' & Hkeys). simpl.
    unfold acquire_submission_lock, RedisClient.set_nx, RedisClient.get.
    by rewrite Hup', Hkeys, lookup_delete_eq.
  - unfold RedisClient.delete, RedisClient.get in Hdel. rewrite Hup in Hdel.
    by destruct (redis_keys r !! _).
Qed.

End RedisFacts.

(** ** The three-tier cache *)

Section CacheFacts.
Context {W : Type} `{!PoolServices W}.
Import CacheManager.

(** Whatever every call of the services preserves, [get_question_pool]
    preserves. *)
Lemma get_question_pool_preserves {A} (proj : W -> A)
    level level_id fetch_all_pages now stats w :
  (forall pool_id now w,
     proj (tier1_get_cached_question_pool pool_id now w).2 = proj w) ->
  (forall pool_id pool_data ttl_hours now w,
     proj (tier1_cache_question_pool pool_id pool_data ttl_hours now w).2 = proj w) ->
  (forall pool_id now w,
     proj (tier2_get_cached_question_pool pool_id now w).2 = proj w) ->
  (forall pool_id pool_data now w,
     proj (tier2_cache_question_pool pool_id pool_data now w).2 = proj w) ->
  (forall level level_id now w,
     proj (tier3_fetch_all_pages level level_id now w).2 = proj w) ->
  (forall level level_id now w,
     proj (tier3_fetch_question_pool level level_id now w).2 = proj w) ->
  proj (get_question_pool level level_id fetch_all_pages now stats w).2 = proj w.
Proof.
  intros H1 H1c H2 H2c H3a H3p.
  assert (forall pool_id pool_data now w,
            proj (_cache_to_redis pool_id pool_data now w).2 = proj w) as Hredis.
  { intros pool_id pool_data now' w'. unfold _cache_to_redis.
    specialize (H1c pool_id pool_data 24%Z now' w').
    by destruct (tier1_cache_question_pool _ _ _ _ _) as [[[?|] ?] ?]. }
  assert (forall pool_id pool_data now w,
            proj (_cache_to_supabase pool_id pool_data now w).2 = proj w) as Hsupa.
  { intros pool_id pool_data now' w'. unfold _cache_to_supabase.
    specialize (H2c pool_id pool_data now' w').
    by destruct (tier2_cache_question_pool _ _ _ _) as [[[?|] ?] ?]. }
  unfold get_question_pool, fetch_from_external, _cache_to_all_tiers.
  set (pool_id := level +:+ "_" +:+ level_id).
  specialize (H1 pool_id now w).
  destruct (tier1_get_cached_question_pool _ _ _) as [redis_data w1].
  simpl in H1. rewrite <- H1.
  specialize (H2 pool_id now w1).
  destruct (tier2_get_cached_question_pool _ _ _) as [supabase_data w2].
  simpl in H2. rewrite <- H2.
  assert (proj
    (let '(raw_data, w0) :=
       if fetch_all_pages then tier3_fetch_all_pages level level_id now w2
       else tier3_fetch_question_pool level level_id now w2 in
     match raw_data with
     | Returns (Some raw_data0) =>
         match tier3_transform_to_internal_format raw_data0 with
         | Returns (Some pool_data) =>
             let '(_, pool_data0, w3) :=
               let '(ok2, pool_data0, w3) :=
                 _cache_to_supabase pool_id pool_data now w0 in
               let '(ok1, pool_data1, w4) :=
                 _cache_to_redis pool_id pool_data0 now w3 in
               (ok2 && ok1, pool_data1, w4) in
             (Some pool_data0, w3)
         | _ => (None, w0)
         end
     | _ => (None, w0)
     end).2 = proj w2) as Hexternal.
  { specialize (H3a level level_id now w2).
    specialize (H3p level level_id now w2).
    destruct fetch_all_pages;
      [destruct (tier3_fetch_all_pages _ _ _ _) as [raw_data w3]
      |destruct (tier3_fetch_question_pool _ _ _ _) as [raw_data w3]];
      simpl in *.
    all: destruct raw_data as [[raw_data|]|]; try done.
    all: destruct (tier3_transform_to_internal_format raw_data)
           as [[pool_data|]|]; try done.
    all: pose proof (Hsupa pool_id pool_data now w3) as Hs;
         destruct (_cache_to_supabase _ _ _ _) as [[ok2 pool2] w4];
         pose proof (Hredis pool_id pool2 now w4) as Hr;
         destruct (_cache_to_redis _ _ _ _) as [[ok1 pool1] w5];
         simpl in *; congruence. }
  destruct redis_data as [[redis_data|]|]; [done|..].
  all: destruct supabase_data as [[supabase_data|]|].
  1,4: pose proof (Hredis pool_id supabase_data now w2) as Hr;
       by destruct (_cache_to_redis _ _ _ _) as [[? ?] ?].
  all: destruct (let '(raw_data, w0) := _ in _) as [pool_data w3];
       exact Hexternal.
Qed.

(** C9. Whatever the three services do, [get_question_pool] returns: an
    exception of Tier 1 or Tier 2 counts as a miss and the next tier is
    consulted.  The result is null exactly when Tier 1 yields no pool,
    Tier 2, consulted in the state Tier 1 left, yields none, and Tier 3,
    consulted after both, yields none, be it by the fetch or by the
    transformation. *)
Theorem get_question_pool_null_iff_all_tiers_fail
    (level level_id : string) (fetch_all_pages : bool) (now : Z)
    (stats : CacheStats) (w : W) :
  let pool_id := level +:+ "_" +:+ level_id in
  let tier1 := tier1_get_cached_question_pool pool_id now w in
  let tier2 := tier2_get_cached_question_pool pool_id now tier1.2 in
  let tier3 :=
    if fetch_all_pages then tier3_fetch_all_pages level level_id now tier2.2
    else tier3_fetch_question_pool level level_id now tier2.2 in
  let transformed :=
    match tier3.1 with
    | Returns (Some raw_data) => tier3_transform_to_internal_format raw_data
    | _ => Returns None
    end in
  (get_question_pool level level_id fetch_all_pages now stats w).1.1 = None
  <-> yields_data tier1.1 = false /\ yields_data tier2.1 = false /\
      yields_data tier3.1 && yields_data transformed = false.
Proof.
  cbv zeta. unfold get_question_pool, fetch_from_external.
  destruct (tier1_get_cached_question_pool _ now w) as [[[redis_data|]|] w1];
    simpl; [split; [done|by intros [? _]]|..].
  all: destruct (tier2_get_cached_question_pool _ now w1)
         as [[[supabase_data|]|] w2]; simpl.
  1,4: destruct (_cache_to_redis _ _ _ _) as [[? ?] ?]; simpl;
       split; [done|by intros (_ & ? & _)].
  all: destruct (if fetch_all_pages then _ else _) as [[[raw_data|]|] w3]; simpl;
       try (split; done).
  all: destruct (tier3_transform_to_internal_format raw_data) as [[pool_data|]|];
       simpl; try (split; done).
  all: destruct (_cache_to_all_tiers _ _ _ _) as [[? ?] ?]; simpl;
       split; [done|by intros (_ & _ & ?)].
Qed.

End CacheFacts.

(** With both cache tiers raising on every call, the pool still comes
    from the remote source. *)
Example get_question_pool_survives_broken_caches :
  (@CacheManager.get_question_pool unit Samples.broken_caches
     "topic" "X" true 0 Samples.zero_stats ()).1.1 <> None.
Proof. discriminate. Qed.

(** ** The session coordinator *)

Section MainFacts.
Import Main.

(** *** Frame properties of the question service

    Loading questions never changes whether the hot store is reachable. *)

Lemma cache_questions_up qs now r :
  redis_up (QuestionService.cache_questions qs now r) = redis_up r.
Proof.
  unfold QuestionService.cache_questions. revert r.
  induction qs as [|q qs IH]; intros r; [done|].
  simpl. by rewrite IH, cache_question_up.
Qed.

Lemma cache_manager_up level level_id fetch_all_pages now stats (w : World) :
  redis_up (w_redis
    (CacheManager.get_question_pool level level_id fetch_all_pages now stats w).2)
  = redis_up (w_redis w).
Proof.
  apply (get_question_pool_preserves (fun w => redis_up (w_redis w))); try done.
  - intros pool_id pool_data ttl_hours now' w'. simpl.
    pose proof (cache_question_pool_up pool_id pool_data ttl_hours now'
                  (w_redis w')) as Hup.
    by destruct (RedisService.cache_question_pool _ _ _ _ _) as [[? ?] ?].
  - intros pool_id now' w'. simpl.
    by destruct (SupabaseService.get_cached_question_pool _ _ _).
  - intros pool_id pool_data now' w'. simpl.
    by destruct (SupabaseService.cache_question_pool _ _ _ _).
Qed.

Lemma get_questions_up pool_id now w :
  redis_up (w_redis (QuestionService.get_questions pool_id now w).2)
  = redis_up (w_redis w).
Proof.
  unfold QuestionService.get_questions.
  destruct pool_id as [pool_id|]; [|done].
  case_bool_decide; [done|].
  destruct (QuestionService.split_underscore pool_id) as [[level level_id]|].
  - unfold QuestionService.get_questions_from_external,
      QuestionService.get_question_pool.
    pose proof (cache_manager_up level level_id true now (w_stats w) w) as Hup.
    destruct (CacheManager.get_question_pool _ _ _ _ _ _) as [[[pool|] stats] w'];
      exact Hup.
  - simpl. apply cache_questions_up.
Qed.

Lemma get_question_by_id_up question_id now w :
  redis_up (w_redis (QuestionService.get_question_by_id question_id now w).2)
  = redis_up (w_redis w).
Proof.
  unfold QuestionService.get_question_by_id.
  destruct (RedisService.get_cached_question _ _ _); [done|].
  destruct (SupabaseService.get_question_by_id _ _); [|done].
  simpl. apply cache_question_up.
Qed.

(** Loading questions leaves the reachability of the warm store and the
    response records as they were. *)
Lemma cache_manager_responses level level_id fetch_all_pages now stats (w : World) :
  let w' :=
    (CacheManager.get_question_pool level level_id fetch_all_pages now stats w).2 in
  db_up (w_db w') = db_up (w_db w) /\
  test_responses (w_db w') = test_responses (w_db w).
Proof.
  cbv zeta.
  pose proof (get_question_pool_preserves
                (fun w => (db_up (w_db w), test_responses (w_db w)))
                level level_id fetch_all_pages now stats w) as Hpres.
  simpl in Hpres.
  assert (forall db pool_id,
            db_up (SupabaseService.invalidate_question_pool pool_id db).2 = db_up db /\
            test_responses (SupabaseService.invalidate_question_pool pool_id db).2
            = test_responses db) as Hinv.
  { intros db pool_id. unfold SupabaseService.invalidate_question_pool.
    by destruct (db_up db) eqn:Hup. }
  enough ((db_up (w_db (CacheManager.get_question_pool level level_id
                          fetch_all_pages now stats w).2),
           test_responses (w_db (CacheManager.get_question_pool level level_id
                          fetch_all_pages now stats w).2))
          = (db_up (w_db w), test_responses (w_db w))) as [= -> ->]; [done|].
  apply Hpres; try done.
  - intros pool_id pool_data ttl_hours now' w'.
    by destruct (RedisService.cache_question_pool _ _ _ _ _) as [[? ?] ?].
  - intros pool_id now' w'.
    unfold SupabaseService.get_cached_question_pool.
    destruct (db_up (w_db w')) eqn:Hup; [|simpl; by rewrite Hup].
    destruct (filter _ _) as [|pool_meta rest]; [simpl; by rewrite Hup|].
    case_bool_decide; [|simpl; by rewrite Hup]. simpl.
    destruct (Hinv (w_db w') pool_id) as [-> ->]. by rewrite Hup.
  - intros pool_id pool_data now' w'.
    unfold SupabaseService.cache_question_pool.
    destruct (db_up (w_db w')) eqn:Hup; [|simpl; by rewrite Hup].
    destruct (pool_questions pool_data) as [|q qs]; [simpl; by rewrite Hup|].
    destruct (mapM _ _); simpl; by rewrite Hup.
Qed.

Lemma get_questions_responses pool_id now w :
  db_up (w_db (QuestionService.get_questions pool_id now w).2) = db_up (w_db w) /\
  test_responses (w_db (QuestionService.get_questions pool_id now w).2)
  = test_responses (w_db w).
Proof.
  unfold QuestionService.get_questions.
  destruct pool_id as [pool_id|]; [|done].
  case_bool_decide; [done|].
  destruct (QuestionService.split_underscore pool_id) as [[level level_id]|];
    [|done].
  unfold QuestionService.get_questions_from_external,
    QuestionService.get_question_pool.
  pose proof (cache_manager_responses level level_id true now (w_stats w) w) as Hdb.
  by destruct (CacheManager.get_question_pool _ _ _ _ _ _) as [[[pool|] stats] w'].
Qed.

Lemma get_question_by_id_db question_id now w :
  w_db (QuestionService.get_question_by_id question_id now w).2 = w_db w.
Proof.
  unfold QuestionService.get_question_by_id.
  destruct (RedisService.get_cached_question _ _ _); [done|].
  by destruct (SupabaseService.get_question_by_id _ _).
Qed.

Lemma update_user_proficiency_responses student_id proficiency now db :
  db_up (SupabaseService.update_user_proficiency student_id proficiency now db).2
  = db_up db /\
  test_responses
    (SupabaseService.update_user_proficiency student_id proficiency now db).2
  = test_responses db.
Proof.
  unfold SupabaseService.update_user_proficiency.
  destruct (db_up db) eqn:Hup; [|done].
  case_bool_decide; simpl; by rewrite ?Hup.
Qed.

(** *** Starting a session *)

(** The successful run of [start_test], step by step. *)
Lemma start_test_starts data uuid now w student_id next_question :
  start_student_id data = Some student_id ->
  student_id <> ""%string ->
  let loaded := QuestionService.get_questions (start_question_pool_id data) now w in
  loaded.1 <> [] ->
  let concept_names :=
    default default_concept_names (start_concept_names data) in
  let created :=
    SupabaseService.get_or_create_student student_id concept_names now
      (w_db loaded.2) in
  (exists row, created.1 = Returns row) ->
  let stored := SupabaseService.get_current_proficiency student_id created.2 in
  let initial_proficiency :=
    match stored with
    | [] => repeat (1 / 2) (length concept_names)
    | _ => stored
    end in
  let db :=
    match stored with
    | [] =>
        (SupabaseService.create_user_proficiency student_id initial_proficiency
           concept_names now created.2).2
    | _ => created.2
    end in
  AdaptiveEngine.select_next_question loaded.1
    (QuestionService.create_q_matrix loaded.1) initial_proficiency []
    = Some next_question ->
  start_test data uuid now w =
    ({| status_code := 200;
        body := StartedBody uuid student_id initial_proficiency concept_names
                  next_question |},
     {| w_redis :=
          (RedisService.store_session_state uuid
             {| st_student_id := student_id;
                st_question_pool_id := start_question_pool_id data;
                st_current_proficiency := initial_proficiency;
                st_next_question_id := q_id next_question;
                st_status := "active"; st_questions_answered := 0;
                st_correct_count := 0;
                st_end_criteria :=
                  default default_end_criteria (start_end_criteria data);
                st_last_activity := None |} now (w_redis loaded.2)).2;
        w_db :=
          (SupabaseService.create_session uuid student_id
             (start_question_pool_id data) initial_proficiency now db).2;
        w_remote := w_remote loaded.2;
        w_stats := w_stats loaded.2 |}).
Proof.
  intros Hid Hne loaded Hloaded concept_names created [row Hrow] stored
    initial_proficiency db Hnext.
  unfold start_test. rewrite Hid, bool_decide_eq_false_2 by done.
  fold loaded. destruct loaded as [qs w1] eqn:Hqs. simpl in *.
  destruct qs as [|q qs]; [done|].
  fold concept_names. fold created.
  destruct created as [student db1] eqn:Hcreated. simpl in *. subst student.
  fold stored. destruct stored as [|value values] eqn:Hstored; simpl in *.
  - subst initial_proficiency db. by rewrite Hnext.
  - subst initial_proficiency db. by rewrite Hnext.
Qed.

(** [uploaded_world] becomes [started_world] when the start request of
    the test suite is served. *)
Lemma start_test_reaches_started_world :
  start_test Samples.start_request "sess-1" 0 Samples.uploaded_world
  = ({| status_code := 200;
        body := StartedBody "sess-1" "test_student_123" (repeat (1 / 2) 5)
                  default_concept_names Samples.pool_q1 |},
     Samples.started_world).
Proof.
  rewrite (start_test_starts Samples.start_request "sess-1" 0
             Samples.uploaded_world "test_student_123" Samples.pool_q1).
  - vm_compute. reflexivity.
  - reflexivity.
  - done.
  - vm_compute. done.
  - eexists. vm_compute. reflexivity.
  - apply select_next_question_first_max with (rest := [Samples.pool_q2]).
    + vm_compute. reflexivity.
    + apply Forall_cons. split; [|by apply Forall_nil].
      right. vm_compute. reflexivity.
Qed.

(** C3 (what the code does).  The [next_question] of every successful
    start is a question dict of the loaded pool, returned as it stands
    there: nothing is removed from it, so it carries the correct answer
    whenever the pool does. *)
Theorem start_test_returns_pool_question_verbatim
    (data : StartRequest) (uuid : string) (now : Z) (w : World) :
  status_code (start_test data uuid now w).1 = 200%Z ->
  exists student_id initial_proficiency concept_names next_question,
    body (start_test data uuid now w).1
      = StartedBody uuid student_id initial_proficiency concept_names
          next_question /\
    next_question
      ∈ (QuestionService.get_questions (start_question_pool_id data) now w).1.
Proof.
  unfold start_test.
  destruct (start_student_id data) as [student_id|]; [|by intros [=]].
  case_bool_decide; [by intros [=]|].
  destruct (QuestionService.get_questions _ _ _) as [qs w1]. simpl.
  destruct qs as [|q qs]; [by intros [=]|].
  destruct (SupabaseService.get_or_create_student _ _ _ _) as [[row|] db];
    [|by intros [=]].
  destruct (SupabaseService.get_current_proficiency _ _) as [|value stored].
  - destruct (AdaptiveEngine.select_next_question _ _ _ _) as [next|] eqn:Hnext;
      [|by intros [=]].
    intros _. simpl. eexists _, _, _, _. split; [reflexivity|].
    by eapply select_next_question_elem.
  - destruct (AdaptiveEngine.select_next_question _ _ _ _) as [next|] eqn:Hnext;
      [|by intros [=]].
    intros _. simpl. eexists _, _, _, _. split; [reflexivity|].
    by eapply select_next_question_elem.
Qed.

Lemma start_test_on_test_world :
  exists w',
    start_test Samples.start_request "sess-1" 0 Samples.test_world
    = ({| status_code := 200;
          body := StartedBody "sess-1" "test_student_123" (repeat (1 / 2) 5)
                    default_concept_names Samples.pool_q1 |}, w').
Proof.
  eexists.
  rewrite (start_test_starts Samples.start_request "sess-1" 0
             Samples.test_world "test_student_123" Samples.pool_q1).
  - vm_compute. reflexivity.
  - reflexivity.
  - done.
  - vm_compute. done.
  - eexists. vm_compute. reflexivity.
  - apply select_next_question_single. vm_compute. reflexivity.
Qed.

Lemma start_test_returns_pool_question_verbatim_witness :
  exists student_id initial_proficiency concept_names next_question,
    body (start_test Samples.start_request "sess-1" 0 Samples.test_world).1
      = StartedBody "sess-1" student_id initial_proficiency concept_names
          next_question /\
    next_question
      ∈ (QuestionService.get_questions
           (start_question_pool_id Samples.start_request) 0 Samples.test_world).1.
Proof.
  apply (start_test_returns_pool_question_verbatim Samples.start_request
           "sess-1" 0 Samples.test_world).
  destruct start_test_on_test_world as [w' ->]. reflexivity.
Defined.

(** On the pool of the test suite the start response hands the client the
    correct answer ["4"] of its first question. *)
Lemma start_test_discloses_correct_answer :
  exists student_id initial_proficiency concept_names next_question,
    body (start_test Samples.start_request "sess-1" 0 Samples.test_world).1
      = StartedBody "sess-1" student_id initial_proficiency concept_names
          next_question /\
    q_correct_answer next_question = Some "4"%string.
Proof.
  destruct start_test_on_test_world as [w' ->].
  eexists _, _, _, _. split; reflexivity.
Qed.

(** *** Submitting a response *)

(** The submission never changes whether the hot store is reachable. *)
Lemma submit_locked_up session_id question_id response now w :
  redis_up (w_redis (submit_locked session_id question_id response now w).2)
  = redis_up (w_redis w).
Proof.
  unfold submit_locked.
  destruct (RedisService.get_session_state _ _ _) as [state|]; [|done].
  case_bool_decide; [done|].
  pose proof (get_question_by_id_up question_id now w) as Hq.
  destruct (QuestionService.get_question_by_id _ _ _) as [[question|] w1];
    [|exact Hq].
  pose proof (get_questions_up (st_question_pool_id state) now w1) as Hqs.
  destruct (QuestionService.get_questions _ _ _) as [qs w2].
  simpl in Hq, Hqs.
  destruct (AdaptiveEngine.should_continue _ _ _).
  - destruct (AdaptiveEngine.select_next_question _ _ _ _); simpl;
      rewrite ?store_session_state_up, update_session_proficiency_up; simpl;
      congruence.
  - simpl. rewrite delete_session_state_up. simpl. congruence.
Qed.

(** Under the lock, the answer is never the duplicate-submission error. *)
Lemma submit_locked_not_duplicate session_id question_id response now w
    http_response :
  (submit_locked session_id question_id response now w).1 = Returns http_response ->
  status_code http_response <> 409%Z.
Proof.
  unfold submit_locked.
  destruct (RedisService.get_session_state _ _ _) as [state|];
    [|by intros [= <-]].
  case_bool_decide; [by intros [= <-]|].
  destruct (QuestionService.get_question_by_id _ _ _) as [[question|] w1];
    [|by intros [= <-]].
  destruct (QuestionService.get_questions _ _ _) as [qs w2].
  destruct (AdaptiveEngine.should_continue _ _ _); [|by intros [= <-]].
  destruct (AdaptiveEngine.select_next_question _ _ _ _); by intros [= <-].
Qed.

(** What a continue answer of the locked body tells about the hot state
    before and after. *)
Lemma submit_locked_continue session_id question_id response now w
    http_response w' new_proficiency next_question questions_answered :
  submit_locked session_id question_id response now w
    = (Returns http_response, w') ->
  body http_response
    = ContinueBody new_proficiency next_question questions_answered ->
  exists state question,
    RedisService.get_session_state session_id now (w_redis w) = Some state /\
    (QuestionService.get_question_by_id question_id now w).1 = Some question /\
    new_proficiency =
      AdaptiveEngine.update_ability learning_rate (st_current_proficiency state)
        question response
        (QuestionService.create_q_matrix
           (QuestionService.get_questions (st_question_pool_id state) now
              (QuestionService.get_question_by_id question_id now w).2).1) /\
    questions_answered = (st_questions_answered state + 1)%Z /\
    RedisService.get_session_state session_id now (w_redis w') =
      Some {| st_student_id := st_student_id state;
              st_question_pool_id := st_question_pool_id state;
              st_current_proficiency := st_current_proficiency state;
              st_next_question_id := q_id next_question;
              st_status := st_status state;
              st_questions_answered := st_questions_answered state;
              st_correct_count :=
                (st_correct_count state
                 + (if bool_decide (response = 1%Z) then 1 else 0))%Z;
              st_end_criteria := st_end_criteria state;
              st_last_activity := Some now |}.
Proof.
  unfold submit_locked.
  destruct (RedisService.get_session_state _ _ _) as [state|] eqn:Hstate;
    [|by intros [= <- <-]].
  case_bool_decide; [by intros [= <- <-]|].
  pose proof (get_question_by_id_up question_id now w) as Hq.
  destruct (QuestionService.get_question_by_id _ _ _) as [[question|] w1];
    [|by intros [= <- <-]].
  pose proof (get_questions_up (st_question_pool_id state) now w1) as Hqs.
  destruct (QuestionService.get_questions _ _ w1) as [qs w2] eqn:Hpool.
  simpl in Hq, Hqs.
  destruct (AdaptiveEngine.should_continue _ _ _); [|by intros [= <- <-]].
  destruct (AdaptiveEngine.select_next_question _ _ _ _) as [next|];
    [|by intros [=]].
  intros [= <- <-] [= <- <- <-].
  exists state, question. simpl. rewrite Hpool. simpl.
  do 4 (split; [done|]).
  rewrite get_session_state_after_store; [done|].
  rewrite update_session_proficiency_up. simpl.
  apply get_session_state_up in Hstate. congruence.
Qed.

(** The durable writes of a submission append exactly one response
    record, for the submitted session and question. *)
Lemma durable_writes_append student_id session_id question_id response before
    after now db :
  db_up db = true ->
  let db' :=
    (SupabaseService.update_session_activity session_id now
       (SupabaseService.store_response student_id session_id question_id
          response before after now
          (SupabaseService.update_user_proficiency student_id after now db).2).2).2 in
  db_up db' = true /\
  exists row,
    r_session_id row = session_id /\ r_question_id row = question_id /\
    test_responses db' = test_responses db ++ [row].
Proof.
  intros Hup.
  destruct (update_user_proficiency_responses student_id after now db)
    as [Hup1 Hrows1].
  cbv zeta.
  unfold SupabaseService.update_session_activity, SupabaseService.store_response.
  rewrite Hup1, Hup. simpl. rewrite Hup1, Hup. simpl.
  split; [by rewrite Hup1, Hup|].
  eexists. split; [|split; [|by rewrite Hrows1]]; done.
Qed.

Lemma complete_session_responses session_id final total correct now db :
  db_up (SupabaseService.complete_session session_id final total correct now db).2
  = db_up db /\
  test_responses
    (SupabaseService.complete_session session_id final total correct now db).2
  = test_responses db.
Proof.
  unfold SupabaseService.complete_session.
  destruct (db_up db) eqn:Hup; simpl; by rewrite ?Hup.
Qed.

(** Every answered submission, continue or completed, has stored its
    response record. *)
Lemma submit_locked_stores_row session_id question_id response now w
    http_response w' :
  submit_locked session_id question_id response now w
    = (Returns http_response, w') ->
  status_code http_response = 200%Z ->
  db_up (w_db w) = true ->
  db_up (w_db w') = true /\
  exists row,
    r_session_id row = session_id /\ r_question_id row = question_id /\
    test_responses (w_db w') = test_responses (w_db w) ++ [row].
Proof.
  unfold submit_locked.
  destruct (RedisService.get_session_state _ _ _) as [state|];
    [|by intros [= <- <-]].
  case_bool_decide; [by intros [= <- <-]|].
  pose proof (get_question_by_id_db question_id now w) as Hq.
  destruct (QuestionService.get_question_by_id _ _ _) as [[question|] w1];
    [|by intros [= <- <-]].
  destruct (get_questions_responses (st_question_pool_id state) now w1)
    as [Hup2 Hrows2].
  destruct (QuestionService.get_questions _ _ w1) as [qs w2].
  simpl in Hq, Hup2, Hrows2. intros Hrun _ Hup.
  assert (db_up (w_db w2) = true) as Hup' by congruence.
  destruct (durable_writes_append (st_student_id state) session_id question_id
              response (st_current_proficiency state)
              (AdaptiveEngine.update_ability learning_rate
                 (st_current_proficiency state) question response
                 (QuestionService.create_q_matrix qs)) now (w_db w2) Hup')
    as (Hup3 & row & Hsid & Hqid & Hrows3).
  simpl in Hrun.
  destruct (AdaptiveEngine.should_continue _ _ _).
  - destruct (AdaptiveEngine.select_next_question _ _ _ _); [|done].
    injection Hrun as <- <-. simpl. split; [done|].
    exists row. do 2 (split; [done|]). rewrite Hrows3. congruence.
  - injection Hrun as <- <-. simpl.
    match goal with
    | |- context [SupabaseService.complete_session ?a ?b ?c ?d ?e ?f] =>
        destruct (complete_session_responses a b c d e f) as [-> ->]
    end.
    split; [done|].
    exists row. do 2 (split; [done|]). rewrite Hrows3. congruence.
Qed.

(** The run of [submit_response] that answers ["continue"], step by
    step. *)
Lemma submit_response_continues data now w session_id question_id response
    state question next_question :
  sr_session_id data = Some session_id ->
  sr_question_id data = Some question_id ->
  sr_response data = Some response ->
  session_id <> ""%string ->
  let lock :=
    RedisService.acquire_submission_lock session_id question_id now (w_redis w) in
  lock.1 = true ->
  let locked := with_redis w lock.2 in
  RedisService.get_session_state session_id now (w_redis locked) = Some state ->
  st_status state = "active"%string ->
  let loaded := QuestionService.get_question_by_id question_id now locked in
  loaded.1 = Some question ->
  let pool :=
    QuestionService.get_questions (st_question_pool_id state) now loaded.2 in
  let q_matrix := QuestionService.create_q_matrix pool.1 in
  let new_proficiency :=
    AdaptiveEngine.update_ability learning_rate (st_current_proficiency state)
      question response q_matrix in
  let db :=
    (SupabaseService.update_session_activity session_id now
       (SupabaseService.store_response (st_student_id state) session_id
          question_id response (st_current_proficiency state) new_proficiency now
          (SupabaseService.update_user_proficiency (st_student_id state)
             new_proficiency now (w_db pool.2)).2).2).2 in
  let responses :=
    SupabaseService.get_user_responses (st_student_id state) (Some session_id) db in
  AdaptiveEngine.should_continue responses new_proficiency (st_end_criteria state)
    = true ->
  AdaptiveEngine.select_next_question pool.1 q_matrix new_proficiency responses
    = Some next_question ->
  submit_response data now w =
    ({| status_code := 200;
        body := ContinueBody new_proficiency next_question
                  (st_questions_answered state + 1) |},
     {| w_redis :=
          (RedisService.release_submission_lock session_id question_id now
             (RedisService.store_session_state session_id
                {| st_student_id := st_student_id state;
                   st_question_pool_id := st_question_pool_id state;
                   st_current_proficiency := st_current_proficiency state;
                   st_next_question_id := q_id next_question;
                   st_status := st_status state;
                   st_questions_answered := st_questions_answered state;
                   st_correct_count :=
                     (st_correct_count state
                      + (if bool_decide (response = 1%Z) then 1 else 0))%Z;
                   st_end_criteria := st_end_criteria state;
                   st_last_activity := st_last_activity state |} now
                (RedisService.update_session_proficiency session_id
                   new_proficiency (st_questions_answered state + 1) now
                   (w_redis pool.2)).2).2).2;
        w_db := db;
        w_remote := w_remote pool.2;
        w_stats := w_stats pool.2 |}).
Proof.
  cbv zeta.
  intros Hsid Hqid Hresponse Hne Hlock Hstate Hactive Hquestion Hcontinue Hnext.
  unfold submit_response. rewrite Hsid, Hqid, Hresponse.
  rewrite bool_decide_eq_false_2 by done.
  destruct (RedisService.acquire_submission_lock _ _ _ _) as [acquired r].
  simpl in *. subst acquired.
  unfold submit_locked. simpl. rewrite Hstate.
  rewrite bool_decide_eq_false_2 by (by intros []).
  destruct (QuestionService.get_question_by_id _ _ _) as [found w1].
  simpl in *. subst found.
  destruct (QuestionService.get_questions _ _ _) as [qs w2].
  simpl in *. by rewrite Hcontinue, Hnext.
Qed.

(** The three ways [submit_response] can go: rejected by validation,
    whatever the time and state; rejected because the lock is held; or run
    under the lock and followed by its release. *)
Lemma submit_response_cases data :
  (forall now w,
     submit_response data now w =
       (error_response 400 "session_id, question_id, and response are required",
        w))
  \/ exists session_id question_id response,
       sr_session_id data = Some session_id /\
       sr_question_id data = Some question_id /\
       sr_response data = Some response /\
       forall now w,
         let lock :=
           RedisService.acquire_submission_lock session_id question_id now
             (w_redis w) in
         let run :=
           submit_locked session_id question_id response now
             (with_redis w lock.2) in
         submit_response data now w =
           if lock.1 then
             (match run.1 with
              | Returns http_response => http_response
              | Raises => internal_server_error
              end,
              with_redis run.2
                (RedisService.release_submission_lock session_id question_id
                   now (w_redis run.2)).2)
           else
             (error_response 409 "This question has already been submitted",
              with_redis w lock.2).
Proof.
  unfold submit_response.
  destruct (sr_session_id data) as [session_id|]; [|by left].
  destruct (sr_question_id data) as [question_id|]; [|by left].
  destruct (sr_response data) as [response|]; [|by left].
  case_bool_decide; [by left|]. right.
  exists session_id, question_id, response.
  do 3 (split; [reflexivity|]). intros now w. cbv zeta.
  destruct (RedisService.acquire_submission_lock _ _ _ _) as [[] r]; simpl;
    [|done].
  by destruct (submit_locked _ _ _ _ _) as [[?|] ?].
Qed.

(** C4 (what the code does).  The submission lock is released when a
    submit ends, so it only excludes overlapping requests: a submit
    repeated after the first has been answered is never rejected as a
    duplicate, and when both are answered with 200 on a reachable warm
    store, two response records of the same session and question have been
    appended. *)
Theorem resubmission_is_processed_again
    (data : SubmitRequest) (now now' : Z) (w : World) :
  let first := submit_response data now w in
  let second := submit_response data now' first.2 in
  (status_code first.1 <> 409%Z -> status_code second.1 <> 409%Z) /\
  (status_code first.1 = 200%Z -> status_code second.1 = 200%Z ->
   db_up (w_db w) = true ->
   exists session_id question_id row1 row2,
     sr_session_id data = Some session_id /\
     sr_question_id data = Some question_id /\
     r_session_id row1 = session_id /\ r_question_id row1 = question_id /\
     r_session_id row2 = session_id /\ r_question_id row2 = question_id /\
     test_responses (w_db second.2) = test_responses (w_db w) ++ [row1; row2]).
Proof.
  cbv zeta.
  destruct (submit_response_cases data)
    as [Hinvalid|(sid & qid & response & Hsid & Hqid & Hresp & Hrun)].
  { rewrite !Hinvalid. simpl. split; [done|]. intros [=]. }
  rewrite (Hrun now w). cbv zeta.
  destruct (RedisService.acquire_submission_lock sid qid now (w_redis w))
    as [[] r] eqn:Hlock; simpl; [|split; [done|intros [=]]].
  destruct (submit_locked sid qid response now (with_redis w r))
    as [result1 w1] eqn:Hrun1. simpl.
  assert (redis_up (w_redis w1) = true) as Hup.
  { pose proof (submit_locked_up sid qid response now (with_redis w r)) as Hup.
    rewrite Hrun1 in Hup. simpl in Hup. rewrite Hup.
    by apply acquire_submission_lock_spec in Hlock as (_ & ? & _). }
  rewrite Hrun. cbv zeta. simpl.
  pose proof (acquire_after_release sid qid now now' (w_redis w1) Hup) as Hfree.
  destruct (RedisService.acquire_submission_lock sid qid now' _)
    as [acquired r'] eqn:Hlock'. simpl in Hfree. subst acquired. simpl.
  destruct (submit_locked sid qid response now' _) as [result2 w2] eqn:Hrun2.
  simpl. split.
  - intros _. destruct result2 as [r2|]; [|done].
    eapply submit_locked_not_duplicate. by rewrite Hrun2.
  - destruct result1 as [r1|]; [|by intros [=]].
    destruct result2 as [r2|]; [|by intros _ [=]].
    intros Hok1 Hok2 Hdb.
    destruct (submit_locked_stores_row _ _ _ _ _ _ _ Hrun1 Hok1 Hdb)
      as (Hdb1 & row1 & Hs1 & Hq1 & Hrows1).
    destruct (submit_locked_stores_row _ _ _ _ _ _ _ Hrun2 Hok2 Hdb1)
      as (Hdb2 & row2 & Hs2 & Hq2 & Hrows2).
    exists sid, qid, row1, row2. do 6 (split; [done|]).
    simpl in *. rewrite Hrows2, Hrows1. by rewrite <- app_assoc.
Qed.

(** C1 (what the code does).  After every submit that answers
    ["continue"], the hot state of the session holds the new next question
    id and a refreshed [last_activity], but the proficiency vector and the
    [questions_answered] counter it had before the call: the state written
    last is the copy read at the start of the request, not the one
    [update_session_proficiency] has just stored. *)
Theorem submit_continue_leaves_stale_hot_state
    (data : SubmitRequest) (now : Z) (w : World) (http_response : HttpResponse)
    (w' : World) (new_proficiency : list R) (next_question : Question)
    (questions_answered : Z) :
  submit_response data now w = (http_response, w') ->
  body http_response
    = ContinueBody new_proficiency next_question questions_answered ->
  exists session_id question_id response state state' question,
    sr_session_id data = Some session_id /\
    sr_question_id data = Some question_id /\
    sr_response data = Some response /\
    let locked :=
      with_redis w
        (RedisService.acquire_submission_lock session_id question_id now
           (w_redis w)).2 in
    let loaded := QuestionService.get_question_by_id question_id now locked in
    let pool :=
      QuestionService.get_questions (st_question_pool_id state) now loaded.2 in
    RedisService.get_session_state session_id now (w_redis w) = Some state /\
    loaded.1 = Some question /\
    new_proficiency =
      AdaptiveEngine.update_ability learning_rate (st_current_proficiency state)
        question response (QuestionService.create_q_matrix pool.1) /\
    questions_answered = (st_questions_answered state + 1)%Z /\
    RedisService.get_session_state session_id now (w_redis w') = Some state' /\
    st_current_proficiency state' = st_current_proficiency state /\
    st_questions_answered state' = st_questions_answered state /\
    st_next_question_id state' = q_id next_question /\
    st_last_activity state' = Some now.
Proof.
  unfold submit_response.
  destruct (sr_session_id data) as [session_id|]; [|by intros [= <- <-]].
  destruct (sr_question_id data) as [question_id|]; [|by intros [= <- <-]].
  destruct (sr_response data) as [response|]; [|by intros [= <- <-]].
  case_bool_decide; [by intros [= <- <-]|].
  destruct (RedisService.acquire_submission_lock _ _ _ _) as [acquired r]
    eqn:Hlock.
  destruct acquired; [|by intros [= <- <-]].
  destruct (submit_locked _ _ _ _ _) as [result w1] eqn:Hlocked.
  destruct result as [locked_response|]; [|by intros [= <- <-]].
  intros [= <- <-] Hbody.
  destruct (submit_locked_continue _ _ _ _ _ _ _ _ _ _ Hlocked Hbody)
    as (state & question & Hstate & Hquestion & Hnew & Hcount & Hafter).
  pose proof (acquire_submission_lock_spec _ _ _ _ _ Hlock) as (_ & _ & Hsame).
  exists session_id, question_id, response, state. eexists. exists question.
  do 3 (split; [done|]). rewrite Hlock. simpl.
  split; [by rewrite <- Hsame|]. split; [done|]. split; [done|].
  split; [done|].
  split; [by rewrite release_submission_lock_get_session|].
  done.
Qed.

(** *** The sample session

    In the runs below the updated proficiency vectors are kept symbolic:
    only their length matters to the services. *)

Ltac hide_updates :=
  repeat match goal with
  | |- context [AdaptiveEngine.update_ability ?lr ?p ?q ?r ?m] =>
      lazymatch constr:((p, q, m)) with
      | context [AdaptiveEngine.update_ability] => fail
      | _ => idtac
      end;
      let H := fresh "Hlen" in
      let new := fresh "new" in
      assert (length (AdaptiveEngine.update_ability lr p q r m) = 5%nat) as H
        by (rewrite update_ability_same_length; vm_compute; reflexivity);
      revert H; generalize (AdaptiveEngine.update_ability lr p q r m);
      intros new H;
      destruct new as [|? [|? [|? [|? [|? [|]]]]]]; try discriminate H; clear H
  end.

Ltac run_service := hide_updates; vm_compute; reflexivity.

Lemma started_world_has_session :
  RedisService.get_session_state "sess-1" 10 (w_redis Samples.started_world)
    = Some Samples.started_state /\
  db_up (w_db Samples.started_world) = true /\
  (exists row, row ∈ test_sessions (w_db Samples.started_world)
               /\ ses_id row = "sess-1"%string).
Proof.
  split; [vm_compute; reflexivity|]. split; [reflexivity|].
  eexists. split; [apply list_elem_of_here|reflexivity].
Qed.


Lemma first_submit_continues :
  exists new_proficiency w',
    submit_response Samples.submit_request 10 Samples.started_world
    = ({| status_code := 200;
          body := ContinueBody new_proficiency Samples.pool_q2 1 |}, w').
Proof.
  eexists _, _.
  rewrite (submit_response_continues Samples.submit_request 10
             Samples.started_world "sess-1" "test_q1" 1 Samples.started_state
             Samples.cached_q1 Samples.pool_q2);
    [reflexivity|try reflexivity; try done; try run_service..].
  apply select_next_question_single. run_service.
Qed.

Lemma second_submit_continues :
  status_code
    (submit_response Samples.submit_request 11
       (submit_response Samples.submit_request 10 Samples.started_world).2).1
  = 200%Z.
Proof.
  rewrite (submit_response_continues Samples.submit_request 10
             Samples.started_world "sess-1" "test_q1" 1 Samples.started_state
             Samples.cached_q1 Samples.pool_q2);
    [|try reflexivity; try done; try run_service..];
    [|apply select_next_question_single; run_service].
  cbn [snd].
  erewrite (submit_response_continues Samples.submit_request 11 _
              "sess-1" "test_q1" 1 Samples.state_after_submit
              Samples.cached_q1 Samples.pool_q2);
    [reflexivity|try reflexivity; try done; try run_service..].
  apply select_next_question_single. run_service.
Qed.

(** On the started sample session, the response to the first submit
    reports one question answered and a raised proficiency, while the hot
    state left behind still counts zero questions and holds the initial
    proficiency. *)
Lemma submit_continue_leaves_stale_hot_state_witness :
  exists new_proficiency next_question w' state',
    submit_response Samples.submit_request 10 Samples.started_world
      = ({| status_code := 200;
            body := ContinueBody new_proficiency next_question 1 |}, w') /\
    new_proficiency <> repeat (1 / 2) 5 /\
    RedisService.get_session_state "sess-1" 10 (w_redis w') = Some state' /\
    st_current_proficiency state' = repeat (1 / 2) 5 /\
    st_questions_answered state' = 0%Z /\
    st_next_question_id state' = q_id next_question /\
    st_last_activity state' = Some 10%Z.
Proof.
  destruct first_submit_continues as (new & w' & Heq).
  destruct (submit_continue_leaves_stale_hot_state Samples.submit_request 10
              Samples.started_world _ w' new Samples.pool_q2 1 Heq eq_refl)
    as (sid & qid & response & state & state' & question & Hsid & Hqid & Hresp
        & Hstate & Hloaded & Hnew & Hqa & Hafter & Hprof & Hcount & Hnext & Hact).
  injection Hsid as <-. injection Hqid as <-. injection Hresp as <-.
  destruct started_world_has_session as (Hstarted & _ & _).
  rewrite Hstarted in Hstate. injection Hstate as <-.
  exists new, Samples.pool_q2, w', state'.
  split; [exact Heq|].
  split;
    [|split; [exact Hafter|]; split; [rewrite Hprof; reflexivity|];
      split; [rewrite Hcount; reflexivity|]; split; [exact Hnext|exact Hact]].
  assert ((QuestionService.get_question_by_id "test_q1" 10
             (with_redis Samples.started_world
                (RedisService.acquire_submission_lock "sess-1" "test_q1" 10
                   (w_redis Samples.started_world)).2)).1
          = Some Samples.cached_q1) as Hcached by (vm_compute; reflexivity).
  rewrite Hcached in Hloaded. injection Hloaded as <-.
  match type of Hnew with
  | _ = AdaptiveEngine.update_ability _ _ _ _ ?q_matrix =>
      destruct (update_ability_raises_first_component learning_rate
                  (st_current_proficiency Samples.started_state)
                  Samples.cached_q1 q_matrix (1 / 2))
        as (t' & Ht' & Hlt);
        [| |vm_compute; reflexivity|reflexivity|vm_compute; reflexivity| |]
  end.
  - unfold learning_rate. lra.
  - change (AdaptiveEngine.discrimination_of Samples.cached_q1) with 1. lra.
  - lra.
  - intros Hsame. rewrite <- Hnew, Hsame in Ht'. injection Ht' as <-. lra.
Defined.

(** On the started sample session, the same submit sent again one second
    after the first is processed again, and two response records of
    session ["sess-1"] and question ["test_q1"] end up in the warm
    store. *)
Lemma resubmission_is_processed_again_witness :
  let first :=
    submit_response Samples.submit_request 10 Samples.started_world in
  let second := submit_response Samples.submit_request 11 first.2 in
  status_code second.1 <> 409%Z /\
  exists session_id question_id row1 row2,
    sr_session_id Samples.submit_request = Some session_id /\
    sr_question_id Samples.submit_request = Some question_id /\
    r_session_id row1 = session_id /\ r_question_id row1 = question_id /\
    r_session_id row2 = session_id /\ r_question_id row2 = question_id /\
    test_responses (w_db second.2)
    = test_responses (w_db Samples.started_world) ++ [row1; row2].
Proof.
  destruct (resubmission_is_processed_again Samples.submit_request 10 11
              Samples.started_world) as [Hnot Hrows].
  assert (status_code
            (submit_response Samples.submit_request 10 Samples.started_world).1
          = 200%Z) as Hfirst.
  { destruct first_submit_continues as (new & w' & ->). reflexivity. }
  split.
  - apply Hnot. rewrite Hfirst. discriminate.
  - apply Hrows; [exact Hfirst|exact second_submit_continues|reflexivity].
Defined.

(** *** Ending a session *)

Lemma finish_session_id session_id final_proficiency total correct now row :
  ses_id (SupabaseService.finish_session session_id final_proficiency total
            correct now row) = ses_id row.
Proof. unfold SupabaseService.finish_session. by case_bool_decide. Qed.

Lemma filter_finish_session session_id final_proficiency total correct now rows :
  filter (fun row => ses_id row = session_id)
    (map (SupabaseService.finish_session session_id final_proficiency total
            correct now) rows)
  = map (SupabaseService.finish_session session_id final_proficiency total
           correct now)
      (filter (fun row => ses_id row = session_id) rows).
Proof.
  induction rows as [|row rows IH]; [done|].
  rewrite map_cons, !filter_cons, finish_session_id.
  case_decide; [rewrite map_cons|]; by rewrite IH.
Qed.

(** The row [get_session] finds once [complete_session] has run. *)
Lemma get_session_after_complete session_id final_proficiency total correct
    now db :
  db_up db = true ->
  (exists row, row ∈ test_sessions db /\ ses_id row = session_id) ->
  exists row,
    SupabaseService.get_session session_id
      (SupabaseService.complete_session session_id final_proficiency total
         correct now db).2 = Some row /\
    ses_status row = "completed"%string /\
    ses_final_proficiency row = Some final_proficiency /\
    ses_total_questions row = total /\
    ses_accuracy row = Some (SupabaseService.accuracy_of correct total).
Proof.
  intros Hup (row & Hin & Hid).
  unfold SupabaseService.get_session, SupabaseService.complete_session.
  rewrite Hup. simpl. rewrite Hup, filter_finish_session.
  destruct (filter _ (test_sessions db)) as [|first rest] eqn:Hf.
  { assert (row ∈ filter (fun row => ses_id row = session_id) (test_sessions db))
      as Hrow by (by apply list_elem_of_filter).
    rewrite Hf in Hrow. by apply elem_of_nil in Hrow. }
  assert (ses_id first = session_id) as Hfirst.
  { assert (first ∈ filter (fun row => ses_id row = session_id) (test_sessions db))
      as Hrow by (rewrite Hf; left).
    by apply list_elem_of_filter in Hrow as [? _]. }
  eexists. split; [reflexivity|].
  unfold SupabaseService.finish_session.
  by rewrite bool_decide_eq_true_2.
Qed.

(** Once the hot state of a session is deleted it is not found again. *)
Lemma get_session_state_after_delete session_id now now' r :
  redis_up r = true ->
  RedisService.get_session_state session_id now'
    (RedisService.delete_session_state session_id now r).2 = None.
Proof.
  intros Hup.
  unfold RedisService.delete_session_state, RedisService.get_session_state,
    RedisClient.delete, RedisClient.get.
  rewrite Hup. destruct (redis_keys r !! _); simpl;
    by rewrite lookup_delete_eq.
Qed.

(** What the two calls of [end_test] answer on a session that is in the
    hot store and has its row in the warm store. *)
Lemma end_test_twice session_id now now' w state :
  RedisService.get_session_state session_id now (w_redis w) = Some state ->
  db_up (w_db w) = true ->
  (exists row, row ∈ test_sessions (w_db w) /\ ses_id row = session_id) ->
  let first := end_test session_id now w in
  let second := end_test session_id now' first.2 in
  let accuracy :=
    SupabaseService.accuracy_of (st_correct_count state)
      (st_questions_answered state) in
  first.1 =
    {| status_code := 200;
       body := FinalBody "ended" (Some (st_current_proficiency state))
                 (st_questions_answered state) (Some accuracy) |} /\
  second.1 =
    {| status_code := 200;
       body := FinalBody "completed" (Some (st_current_proficiency state))
                 (st_questions_answered state) (Some accuracy) |} /\
  second.2 = first.2.
Proof.
  intros Hstate Hup Hrow first second accuracy.
  assert (first =
    ({| status_code := 200;
        body := FinalBody "ended" (Some (st_current_proficiency state))
                  (st_questions_answered state) (Some accuracy) |},
     with_redis
       (with_db w
          (SupabaseService.complete_session session_id
             (st_current_proficiency state) (st_questions_answered state)
             (st_correct_count state) now (w_db w)).2)
       (RedisService.delete_session_state session_id now (w_redis w)).2))
    as Hfirst.
  { subst first. unfold end_test. by rewrite Hstate. }
  split; [by rewrite Hfirst|].
  subst second. rewrite Hfirst. unfold end_test. simpl.
  rewrite get_session_state_after_delete
    by (by eapply get_session_state_up).
  destruct (get_session_after_complete session_id (st_current_proficiency state)
              (st_questions_answered state) (st_correct_count state) now
              (w_db w) Hup Hrow) as (row & -> & -> & -> & -> & ->).
  done.
Qed.

(** C7 (as amended).  On a session present in the hot store whose row is
    in a reachable warm store, the second call of [end_test] changes no
    state and reports the final proficiency, the total number of questions
    and the accuracy the first call reported; its status is ["completed"]
    where the first call answered ["ended"]. *)
Theorem end_test_second_call_repeats_results
    (session_id : string) (now now' : Z) (w : World) (state : SessionState) :
  RedisService.get_session_state session_id now (w_redis w) = Some state ->
  db_up (w_db w) = true ->
  (exists row, row ∈ test_sessions (w_db w) /\ ses_id row = session_id) ->
  let first := end_test session_id now w in
  let second := end_test session_id now' first.2 in
  second.2 = first.2 /\
  exists final_proficiency total_questions accuracy,
    first.1 = {| status_code := 200;
                 body := FinalBody "ended" final_proficiency total_questions
                           accuracy |} /\
    second.1 = {| status_code := 200;
                  body := FinalBody "completed" final_proficiency total_questions
                            accuracy |} /\
    final_proficiency = Some (st_current_proficiency state) /\
    total_questions = st_questions_answered state.
Proof.
  intros Hstate Hup Hrow first second.
  destruct (end_test_twice session_id now now' w state Hstate Hup Hrow)
    as (Hfirst & Hsecond & Hsame).
  split; [exact Hsame|].
  eexists _, _, _. split; [exact Hfirst|]. split; [exact Hsecond|]. done.
Qed.

Lemma end_test_second_call_repeats_results_witness :
  let first := end_test "sess-1" 10 Samples.started_world in
  let second := end_test "sess-1" 20 first.2 in
  second.2 = first.2 /\
  exists final_proficiency total_questions accuracy,
    first.1 = {| status_code := 200;
                 body := FinalBody "ended" final_proficiency total_questions
                           accuracy |} /\
    second.1 = {| status_code := 200;
                  body := FinalBody "completed" final_proficiency total_questions
                            accuracy |} /\
    final_proficiency = Some (st_current_proficiency Samples.started_state) /\
    total_questions = st_questions_answered Samples.started_state.
Proof.
  apply (end_test_second_call_repeats_results "sess-1" 10 20
           Samples.started_world Samples.started_state);
    apply started_world_has_session.
Defined.

(** C7 as stated fails: the two calls do not return the same payload,
    their statuses differ. *)
Lemma end_test_second_call_changes_status :
  let first := end_test "sess-1" 10 Samples.started_world in
  let second := end_test "sess-1" 20 first.2 in
  first.1 <> second.1.
Proof.
  destruct started_world_has_session as (Hstate & Hup & Hrow).
  destruct (end_test_twice "sess-1" 10 20 Samples.started_world
              Samples.started_state Hstate Hup Hrow) as (Hfirst & Hsecond & _).
  intros first second. subst first second. rewrite Hfirst, Hsecond.
  intros [=].
Qed.

End MainFacts.

(** * Further properties of the code *)

(** ** The adaptive engine: ranges and the stopping rule *)

Section EngineInvariants.
Import AdaptiveEngine.
















(** X6. Between the minimum and the maximum number of questions the
    stopping rule goes by its type: fixed length continues; a type that is
    none of fixed length, precision and classification stops; and
    classification stops on an empty proficiency vector, whose confidence
    is nan. *)
Theorem should_continue_between_bounds
    (responses : list Response) (proficiency : list R) (end_criteria : EndCriteria) :
  let criteria_type := default "fixed_length"%string (ec_type end_criteria) in
  (default 5 (ec_min_questions end_criteria) <= Z.of_nat (length responses)
   < default 20 (ec_max_questions end_criteria))%Z ->
  (criteria_type = "fixed_length"%string ->
   should_continue responses proficiency end_criteria = true) /\
  (criteria_type <> "fixed_length"%string ->
   criteria_type <> "precision"%string ->
   criteria_type <> "classification"%string ->
   should_continue responses proficiency end_criteria = false) /\
  (criteria_type = "classification"%string -> proficiency = [] ->
   should_continue responses proficiency end_criteria = false).
Proof.
  intros criteria_type [Hmin Hmax]. unfold should_continue.
  fold criteria_type.
  rewrite bool_decide_eq_false_2 by lia.
  rewrite bool_decide_eq_false_2 by lia.
  split_and!.
  - intros ->. simpl. apply bool_decide_eq_true_2. lia.
  - intros H1 H2 H3.
    by rewrite !bool_decide_eq_false_2.
  - by intros -> ->.
Qed.

Lemma should_continue_between_bounds_witness :
  let responses := [Samples.response_to "q1"; Samples.response_to "q2"] in
  should_continue responses [1 / 2] (Samples.criteria "fixed_length" 2 5) = true /\
  should_continue responses [1 / 2] (Samples.criteria "adaptive" 2 5) = false /\
  should_continue responses [] (Samples.criteria "classification" 2 5) = false.
Proof.
  intros responses.
  destruct (should_continue_between_bounds responses [1 / 2]
              (Samples.criteria "fixed_length" 2 5)) as (Hfixed & _ & _);
    [simpl; lia|].
  destruct (should_continue_between_bounds responses [1 / 2]
              (Samples.criteria "adaptive" 2 5)) as (_ & Hother & _);
    [simpl; lia|].
  destruct (should_continue_between_bounds responses []
              (Samples.criteria "classification" 2 5)) as (_ & _ & Hempty);
    [simpl; lia|].
  split_and!.
  - by apply Hfixed.
  - by apply Hother.
  - by apply Hempty.
Defined.

End EngineInvariants.

(** ** The hot store: locks, caches and cleanup *)

Section HotStoreFacts.
Import RedisService.

Lemma acquire_submission_lock_entry session_id question_id now r r' :
  acquire_submission_lock session_id question_id now r = (true, r') ->
  redis_up r' = true /\
  redis_keys r' !! lock_key session_id question_id = Some ((now + 5)%Z, RLock).
Proof.
  unfold acquire_submission_lock, RedisClient.set_nx, RedisClient.get.
  destruct (redis_up r) eqn:Hup; [|done].
  destruct (redis_keys r !! lock_key _ _) as [entry|].
  - destruct (RedisClient.alive now entry); [done|].
    intros [= <-]. simpl. by rewrite lookup_insert_eq.
  - intros [= <-]. simpl. by rewrite lookup_insert_eq.
Qed.

(** X7. A submission lock that has been taken is refused to every further
    request until five seconds after it was taken, and is granted again
    from then on even if it was never released. *)
Theorem submission_lock_expires_after_five_seconds
    (session_id question_id : string) (now : Z) (r r' : Redis) :
  acquire_submission_lock session_id question_id now r = (true, r') ->
  (forall t, (t < now + 5)%Z ->
     acquire_submission_lock session_id question_id t r' = (false, r')) /\
  (forall t, (now + 5 <= t)%Z ->
     (acquire_submission_lock session_id question_id t r').1 = true).
Proof.
  intros Hacquire.
  apply acquire_submission_lock_entry in Hacquire as [Hup Hkey].
  unfold acquire_submission_lock, RedisClient.set_nx, RedisClient.get.
  rewrite Hup, Hkey. unfold RedisClient.alive. simpl. split; intros t Ht.
  - by rewrite bool_decide_eq_true_2.
  - by rewrite bool_decide_eq_false_2 by lia.
Qed.

Lemma submission_lock_expires_after_five_seconds_witness :
  let r' :=
    (acquire_submission_lock "sess-1" "test_q1" 10 Samples.empty_redis).2 in
  (forall t, (t < 10 + 5)%Z ->
     acquire_submission_lock "sess-1" "test_q1" t r' = (false, r')) /\
  (forall t, (10 + 5 <= t)%Z ->
     (acquire_submission_lock "sess-1" "test_q1" t r').1 = true).
Proof.
  apply (submission_lock_expires_after_five_seconds "sess-1" "test_q1" 10
           Samples.empty_redis).
  vm_compute. reflexivity.
Defined.

(** X8. A question written to the hot question cache is read back for one
    hour, without its correct answer and otherwise unchanged, and is gone
    afterwards. *)
Theorem cached_question_never_carries_the_answer
    (question_id : string) (question : Question) (now : Z) (r : Redis) :
  redis_up r = true ->
  forall t,
    get_cached_question question_id t (cache_question question_id question now r).2
    = if bool_decide (t < now + 3600)%Z
      then Some (strip_correct_answer question) else None.
Proof.
  intros Hup t. unfold cache_question.
  destruct (RedisClient.setex _ _ _ _ _) as [r'|] eqn:Hset.
  - unfold get_cached_question. simpl.
    rewrite (get_after_setex _ _ _ _ _ _ t Hset). by case_bool_decide.
  - unfold RedisClient.setex in Hset. by rewrite Hup in Hset.
Qed.

Lemma cached_question_never_carries_the_answer_witness :
  get_cached_question "test_q1" 3599
    (cache_question "test_q1" Samples.test_q1 0 Samples.empty_redis).2
  = Some (strip_correct_answer Samples.test_q1) /\
  get_cached_question "test_q1" 3600
    (cache_question "test_q1" Samples.test_q1 0 Samples.empty_redis).2
  = None.
Proof.
  split.
  - apply (cached_question_never_carries_the_answer "test_q1" Samples.test_q1 0
             Samples.empty_redis eq_refl 3599).
  - apply (cached_question_never_carries_the_answer "test_q1" Samples.test_q1 0
             Samples.empty_redis eq_refl 3600).
Defined.

(** An invalidated pool is not found, whether the server is reachable
    or not. *)
Lemma hot_pool_gone_after_invalidate pool_id now now' r :
  RedisService.get_cached_question_pool pool_id now'
    (RedisService.invalidate_question_pool pool_id now r).2 = None.
Proof.
  unfold RedisService.invalidate_question_pool.
  destruct (RedisClient.delete _ _ _) as [[n r']|] eqn:Hdel.
  - apply delete_up in Hdel as (_ & Hup' & Hkeys). simpl.
    unfold RedisService.get_cached_question_pool, RedisClient.get.
    by rewrite Hup', Hkeys, lookup_delete_eq.
  - simpl. unfold RedisService.get_cached_question_pool, RedisClient.get.
    unfold RedisClient.delete, RedisClient.get in Hdel.
    destruct (redis_up r); [|done]. by destruct (redis_keys r !! _).
Qed.

(** X9. A pool written to Tier 1 comes back stamped with the tier
    ["redis"] and the time of writing.  With a positive lifetime of
    [ttl_hours] hours, within what a [timedelta] holds, the write succeeds
    and the pool is read back as stamped until the lifetime ends and not
    afterwards.  A lifetime that is not positive is refused by the
    server: the write reports failure and leaves the store as it was, an
    older entry of the pool included.  Either way the pool is not found
    any more once it has been invalidated. *)
Theorem hot_pool_cache_round_trip
    (pool_id : string) (pool_data : Pool) (ttl_hours now : Z) (r : Redis) :
  redis_up r = true ->
  let stored := cache_question_pool pool_id pool_data ttl_hours now r in
  stored.1.2 = stamp_pool "redis" now pool_data /\
  ((0 < ttl_hours <= 23999999999)%Z ->
   stored.1.1 = true /\
   forall t,
     get_cached_question_pool pool_id t stored.2
     = if bool_decide (t < now + ttl_hours * 3600)%Z
       then Some (stamp_pool "redis" now pool_data) else None) /\
  ((ttl_hours <= 0)%Z -> stored.1.1 = false /\ stored.2 = r) /\
  (forall t t',
     get_cached_question_pool pool_id t'
       (invalidate_question_pool pool_id t stored.2).2 = None).
Proof.
  intros Hup stored.
  assert (redis_up stored.2 = true) as Hup'.
  { subst stored. by rewrite cache_question_pool_up. }
  unfold cache_question_pool in stored.
  destruct (RedisClient.setex _ _ _ _ _) as [r'|] eqn:Hset;
    subst stored; simpl in *.
  - assert (0 < ttl_hours * 3600)%Z as Hpos.
    { unfold RedisClient.setex in Hset. rewrite Hup in Hset.
      by case_bool_decide. }
    split_and!; [done| | |].
    + intros _. split; [done|]. intros t. unfold get_cached_question_pool.
      rewrite (get_after_setex _ _ _ _ _ _ t Hset). by case_bool_decide.
    + lia.
    + intros t t'. by apply hot_pool_gone_after_invalidate.
  - assert (~ (0 < ttl_hours * 3600)%Z) as Hneg.
    { unfold RedisClient.setex in Hset. rewrite Hup in Hset.
      by case_bool_decide. }
    split_and!; [done| |done|].
    + lia.
    + intros t t'. by apply hot_pool_gone_after_invalidate.
Qed.

Lemma hot_pool_cache_round_trip_witness :
  let stored :=
    cache_question_pool "topic_X" Samples.topic_pool 24 0 Samples.empty_redis in
  let refused :=
    cache_question_pool "topic_X" Samples.topic_pool 0 10 stored.2 in
  (stored.1.1 = true /\
   forall t,
     get_cached_question_pool "topic_X" t stored.2
     = if bool_decide (t < 0 + 24 * 3600)%Z
       then Some (stamp_pool "redis" 0 Samples.topic_pool) else None) /\
  (refused.1.1 = false /\ refused.2 = stored.2) /\
  (forall t t',
     get_cached_question_pool "topic_X" t'
       (invalidate_question_pool "topic_X" t stored.2).2 = None).
Proof.
  intros stored refused.
  destruct (hot_pool_cache_round_trip "topic_X" Samples.topic_pool 24 0
              Samples.empty_redis eq_refl) as (_ & Hwritten & _ & Hgone).
  destruct (hot_pool_cache_round_trip "topic_X" Samples.topic_pool 0 10
              stored.2 eq_refl) as (_ & _ & Hrefused & _).
  split_and!.
  - apply Hwritten. lia.
  - apply Hwritten. lia.
  - apply Hrefused. lia.
  - apply Hrefused. lia.
  - exact Hgone.
Defined.

(** *** Cleanup of inactive sessions *)



Lemma other_keys_do_not_match session_id question_id pool_id :
  matches_session_pattern (lock_key session_id question_id) = false /\
  matches_session_pattern (pool_key pool_id) = false /\
  matches_session_pattern (question_key question_id) = false.
Proof. done. Qed.

Lemma cleanup_step_spec threshold now c r key :
  redis_up r = true ->
  cleanup_step threshold now (c, r) key =
    match redis_keys r !! key with
    | Some entry =>
        if inactive threshold now entry
        then ((c + 1)%Z,
              {| redis_up := true; redis_keys := delete key (redis_keys r) |})
        else (c, r)
    | None => (c, r)
    end.
Proof.
  intros Hup. unfold cleanup_step, RedisClient.delete, RedisClient.get, inactive.
  rewrite Hup. destruct (redis_keys r !! key) as [[deadline value]|]; [|done].
  simpl. destruct (RedisClient.alive now (deadline, value)); [|done].
  destruct value as [state| | |]; try done. simpl.
  destruct (st_last_activity state); [|done]. by case_bool_decide.
Qed.






Lemma cleanup_loop_idle threshold now keys c r :
  redis_up r = true ->
  (forall key entry, redis_keys r !! key = Some entry ->
     inactive threshold now entry = false) ->
  foldl (cleanup_step threshold now) (c, r) keys = (c, r).
Proof.
  intros Hup Hidle. induction keys as [|k keys IH]; [done|].
  cbn [foldl]. rewrite cleanup_step_spec by done.
  destruct (redis_keys r !! k) as [entry|] eqn:Hk; [|done].
  by rewrite (Hidle k entry Hk).
Qed.

(** X11. If every session state of the hot store expires at most
    [lifetime] seconds after its last activity, a cleanup whose threshold
    is at least that lifetime removes nothing and returns 0, at whatever
    time it runs: such a state has expired before it counts as
    inactive. *)
Theorem cleanup_spares_states_within_their_lifetime
    (lifetime inactivity_minutes now : Z) (r : Redis) :
  session_lifetime_within lifetime r ->
  (lifetime <= inactivity_minutes * 60)%Z ->
  cleanup_inactive_sessions inactivity_minutes now r = (0%Z, r).
Proof.
  intros Hr Hminutes.
  unfold cleanup_inactive_sessions, session_keys.
  destruct (redis_up r) eqn:Hup; [|done].
  apply cleanup_loop_idle; [done|].
  intros key [deadline value] Hkey. unfold inactive, RedisClient.alive. simpl.
  case_bool_decide as Halive; [|done]. simpl.
  destruct value as [state| | |]; try done.
  destruct (st_last_activity state) as [last_activity|] eqn:Hlast; [|done].
  pose proof (Hr key deadline state last_activity Hkey Hlast).
  apply bool_decide_eq_false_2. lia.
Qed.

Lemma cleanup_spares_states_within_their_lifetime_witness :
  let r :=
    {| redis_up := true;
       redis_keys :=
         {[ session_key "sess-1" :=
              (1802%Z, RSession (set_last_activity 0 Samples.stale_state)) ]} |} in
  cleanup_inactive_sessions 31 1801 r = (0%Z, r).
Proof.
  apply (cleanup_spares_states_within_their_lifetime 1802 31 1801).
  - intros key deadline state last_activity Hkey Hlast. simpl in Hkey.
    apply lookup_singleton_Some in Hkey as [_ Hentry].
    injection Hentry as <- <-. simpl in Hlast. injection Hlast as <-. lia.
  - lia.
Defined.

End HotStoreFacts.

(** ** The warm store: students, proficiencies, responses and Tier 2 *)

Section WarmStoreFacts.
Import SupabaseService.

Lemma insert_by_Permutation {A} (leb : A -> A -> bool) x l :
  insert_by leb x l ≡ₚ x :: l.
Proof.
  induction l as [|y l IH]; [done|]. simpl.
  destruct (leb x y); [done|]. rewrite IH. apply Permutation_swap.
Qed.

Lemma order_by_Permutation {A} (leb : A -> A -> bool) l : order_by leb l ≡ₚ l.
Proof.
  induction l as [|x l IH]; [done|]. unfold order_by in *. simpl.
  by rewrite insert_by_Permutation, IH.
Qed.

Lemma insert_by_fmap {A} (leb : A -> A -> bool) (f : A -> A) x l :
  (forall a b, leb (f a) (f b) = leb a b) ->
  insert_by leb (f x) (map f l) = map f (insert_by leb x l).
Proof.
  intros Hleb. induction l as [|y l IH]; [done|]. simpl. rewrite Hleb.
  destruct (leb x y); [done|]. simpl. by rewrite IH.
Qed.

Lemma order_by_fmap {A} (leb : A -> A -> bool) (f : A -> A) l :
  (forall a b, leb (f a) (f b) = leb a b) ->
  order_by leb (map f l) = map f (order_by leb l).
Proof.
  intros Hleb. induction l as [|x l IH]; [done|]. unfold order_by in *. simpl.
  by rewrite IH, insert_by_fmap.
Qed.

Lemma filter_fmap_preserved {A} (P : A -> Prop) `{!forall x, Decision (P x)}
    (f : A -> A) l :
  (forall x, P (f x) <-> P x) ->
  filter P (map f l) = map f (filter P l).
Proof.
  intros HP. induction l as [|x l IH]; [done|]. simpl.
  destruct (decide (P x)) as [Hx|Hx].
  - rewrite !filter_cons_True by (done || by apply HP). simpl. by rewrite IH.
  - rewrite !filter_cons_False by (done || by rewrite HP). done.
Qed.

Lemma filter_filter_not {A} (P : A -> Prop) `{!forall x, Decision (P x)}
    (l : list A) :
  filter P (filter (fun x => ~ P x) l) = [].
Proof.
  induction l as [|x l IH]; [done|]. destruct (decide (P x)).
  - by rewrite (filter_cons_False (fun x => ~ P x)) by tauto.
  - rewrite (filter_cons_True (fun x => ~ P x)) by done.
    by rewrite filter_cons_False.
Qed.

(** *** Students and their proficiency *)

Lemma filter_proficiency_records student_id next_id proficiency concept_names now :
  filter (fun row => pr_student_id row = student_id)
    (proficiency_records student_id next_id proficiency concept_names now)
  = proficiency_records student_id next_id proficiency concept_names now.
Proof.
  revert next_id proficiency.
  induction concept_names as [|name names IH]; intros next_id proficiency;
    [done|].
  simpl. rewrite filter_cons_True by done. by rewrite IH.
Qed.

Lemma proficiency_records_values student_id next_id n concept_names now :
  length concept_names = n ->
  map pr_proficiency_value
    (proficiency_records student_id next_id (repeat (1 / 2) n) concept_names now)
  = replicate n (1 / 2).
Proof.
  revert next_id n.
  induction concept_names as [|name names IH]; intros next_id n <-; [done|].
  simpl. f_equal. by apply IH.
Qed.

(** X12. [get_or_create_student] is idempotent: called again for the same
    student, at any later time and with any concept names, it returns what
    the first call returned and writes nothing. *)
Theorem get_or_create_student_is_idempotent
    (student_id : string) (concept_names concept_names' : list string)
    (now now' : Z) (db : Supabase) :
  let first := get_or_create_student student_id concept_names now db in
  get_or_create_student student_id concept_names' now' first.2 = first.
Proof.
  unfold get_or_create_student. destruct (db_up db) eqn:Hup; simpl.
  2:{ by rewrite Hup. }
  destruct (filter _ (students db)) as [|row rows] eqn:Hrows; simpl.
  - unfold create_user_proficiency. simpl. rewrite Hup. simpl. rewrite Hup.
    rewrite filter_app, Hrows. simpl. rewrite filter_cons_True by done.
    simpl. done.
  - by rewrite Hup, Hrows.
Qed.

(** X13. For a student unknown to a reachable warm store (no student row,
    no proficiency row), [get_or_create_student] creates one proficiency
    row per concept name, and the proficiency read back is 0.5 on every
    concept. *)
Theorem new_student_starts_at_one_half
    (student_id : string) (concept_names : list string) (now : Z) (db : Supabase) :
  db_up db = true ->
  filter (fun row => stu_id row = student_id) (students db) = [] ->
  filter (fun row => pr_student_id row = student_id) (student_proficiencies db)
    = [] ->
  get_current_proficiency student_id
    (get_or_create_student student_id concept_names now db).2
  = replicate (length concept_names) (1 / 2).
Proof.
  intros Hup Hnew Hrows. unfold get_or_create_student.
  rewrite Hup, Hnew. unfold create_user_proficiency. simpl. rewrite Hup. simpl.
  unfold get_current_proficiency. simpl. rewrite Hup.
  unfold proficiency_rows. simpl.
  rewrite filter_app, Hrows, filter_proficiency_records. simpl.
  symmetry. apply replicate_Permutation.
  rewrite order_by_Permutation.
  by rewrite proficiency_records_values.
Qed.

Lemma new_student_starts_at_one_half_witness :
  get_current_proficiency "test_student_123"
    (get_or_create_student "test_student_123" Main.default_concept_names 0
       Samples.uploaded_db).2
  = replicate (length Main.default_concept_names) (1 / 2).
Proof.
  apply (new_student_starts_at_one_half "test_student_123"
           Main.default_concept_names 0 Samples.uploaded_db);
    reflexivity.
Defined.

(** The loop of [update_user_proficiency] applies to every row of the
    table the updates of all fetched rows. *)
Lemma update_loop_rows now us (table : list ProficiencyRow) :
  foldl (fun table '(record, value) =>
           map (set_proficiency_value (pr_id record) value now) table)
        table us
  = map (row_updates now us) table.
Proof.
  revert table. induction us as [|[record value] us IH]; intros table.
  - simpl. by rewrite map_id.
  - cbn [foldl]. rewrite IH, map_map. done.
Qed.

Lemma row_updates_cons now record value us x :
  row_updates now ((record, value) :: us) x
  = row_updates now us (set_proficiency_value (pr_id record) value now x).
Proof. reflexivity. Qed.

Lemma row_updates_keys now us x :
  pr_id (row_updates now us x) = pr_id x /\
  pr_student_id (row_updates now us x) = pr_student_id x /\
  pr_concept_name (row_updates now us x) = pr_concept_name x.
Proof.
  revert x. induction us as [|[record value] us IH]; intros x; [done|].
  rewrite row_updates_cons.
  destruct (IH (set_proficiency_value (pr_id record) value now x)) as (-> & -> & ->).
  unfold set_proficiency_value. by case_bool_decide.
Qed.

Lemma row_updates_untouched now us x :
  pr_id x ∉ map (fun u : ProficiencyRow * R => pr_id u.1) us ->
  row_updates now us x = x.
Proof.
  revert x. induction us as [|[record value] us IH]; intros x Hx; [done|].
  rewrite row_updates_cons. rewrite fmap_cons in Hx.
  apply not_elem_of_cons in Hx as [Hne Hx]. simpl in Hne.
  unfold set_proficiency_value. rewrite bool_decide_eq_false_2 by done.
  by apply IH.
Qed.

Lemma row_updates_value now rows values i x v :
  NoDup (map pr_id rows) ->
  rows !! i = Some x -> values !! i = Some v ->
  pr_proficiency_value (row_updates now (zip rows values) x) = v.
Proof.
  revert values i. induction rows as [|y rows IH]; intros values i Hnd Hx Hv;
    [done|].
  destruct values as [|w values]; [done|].
  rewrite fmap_cons in Hnd. apply NoDup_cons in Hnd as [Hy Hnd].
  change (zip (y :: rows) (w :: values)) with ((y, w) :: zip rows values).
  rewrite row_updates_cons.
  destruct i as [|i].
  - injection Hx as ->. injection Hv as ->.
    unfold set_proficiency_value. rewrite bool_decide_eq_true_2 by done.
    rewrite row_updates_untouched; [done|]. simpl.
    intros Hin. apply Hy. apply list_elem_of_fmap in Hin as ([r u] & -> & Hin).
    apply elem_of_zip_l in Hin. simpl. by apply list_elem_of_fmap_2.
  - simpl in Hx, Hv.
    assert (pr_id x <> pr_id y) as Hne.
    { intros Heq. apply Hy. rewrite <- Heq.
      apply list_elem_of_fmap_2. by eapply list_elem_of_lookup_2. }
    unfold set_proficiency_value. rewrite bool_decide_eq_false_2 by done.
    by eapply IH.
Qed.

(** X14. A proficiency vector that [update_user_proficiency] has accepted
    is the vector [get_current_proficiency] reads back, component for
    component in the order of the concept names, provided the student's
    rows have distinct ids. *)
Theorem update_user_proficiency_round_trip
    (student_id : string) (proficiency : list R) (now : Z) (db : Supabase) :
  NoDup (map pr_id (proficiency_rows student_id db)) ->
  (update_user_proficiency student_id proficiency now db).1 = true ->
  get_current_proficiency student_id
    (update_user_proficiency student_id proficiency now db).2
  = proficiency.
Proof.
  intros Hnd. unfold update_user_proficiency.
  destruct (db_up db) eqn:Hup; [|done].
  case_bool_decide as Hshape; [done|]. intros _. simpl.
  assert (length (proficiency_rows student_id db) = length proficiency) as Hlen.
  { destruct (decide (length (proficiency_rows student_id db)
                      = length proficiency)); [done|].
    exfalso. apply Hshape. by right. }
  unfold get_current_proficiency. simpl. rewrite Hup.
  set (rows := proficiency_rows student_id db) in *.
  unfold proficiency_rows. simpl.
  rewrite update_loop_rows.
  rewrite filter_fmap_preserved.
  2:{ intros x. by destruct (row_updates_keys now (zip rows proficiency) x)
        as (_ & -> & _). }
  rewrite order_by_fmap.
  2:{ intros a b.
      destruct (row_updates_keys now (zip rows proficiency) a) as (_ & _ & ->).
      by destruct (row_updates_keys now (zip rows proficiency) b) as (_ & _ & ->). }
  fold (proficiency_rows student_id db). fold rows.
  apply list_eq. intros i. rewrite !list_lookup_fmap.
  destruct (rows !! i) as [x|] eqn:Hx; simpl.
  - destruct (lookup_lt_is_Some_2 proficiency i) as [v Hv].
    { rewrite <- Hlen. by eapply lookup_lt_Some. }
    rewrite Hv. f_equal. by eapply row_updates_value.
  - symmetry. apply lookup_ge_None. rewrite <- Hlen. by apply lookup_ge_None.
Qed.

Lemma update_user_proficiency_round_trip_witness :
  get_current_proficiency "test_student_123"
    (update_user_proficiency "test_student_123" [1; 2; 3; -1; -2] 10
       Samples.started_db).2
  = [1; 2; 3; -1; -2].
Proof.
  apply (update_user_proficiency_round_trip "test_student_123"
           [1; 2; 3; -1; -2] 10 Samples.started_db).
  - apply (bool_decide_unpack _). vm_compute. exact I.
  - vm_compute. reflexivity.
Defined.

(** *** Response records *)

Lemma insert_by_timestamp_sorted (x : Response) l :
  StronglySorted (fun a b => (r_timestamp a <= r_timestamp b)%Z) l ->
  StronglySorted (fun a b => (r_timestamp a <= r_timestamp b)%Z)
    (insert_by (fun a b => (r_timestamp a <=? r_timestamp b)%Z) x l).
Proof.
  induction 1 as [|y l Hl IH Hy]; simpl.
  - repeat constructor.
  - destruct (Z.leb_spec (r_timestamp x) (r_timestamp y)) as [Hle|Hgt].
    + constructor; [by constructor|]. constructor; [done|].
      eapply Forall_impl; [exact Hy|]. simpl. intros z Hz. lia.
    + constructor; [done|].
      rewrite insert_by_Permutation. constructor; [lia|done].
Qed.

Lemma order_by_timestamp_sorted (l : list Response) :
  StronglySorted (fun a b => (r_timestamp a <= r_timestamp b)%Z)
    (order_by (fun a b => (r_timestamp a <=? r_timestamp b)%Z) l).
Proof.
  induction l as [|x l IH]; [constructor|].
  unfold order_by in *. simpl. by apply insert_by_timestamp_sorted.
Qed.

(** X15. From a reachable warm store, [get_user_responses] for a student
    and a non-empty session id returns the response records of that
    student and that session, all of them and no others, in ascending
    order of their timestamps. *)
Theorem get_user_responses_of_one_session
    (student_id session_id : string) (db : Supabase) :
  db_up db = true ->
  session_id <> ""%string ->
  let responses := get_user_responses student_id (Some session_id) db in
  responses ≡ₚ
    filter (fun row => r_student_id row = student_id /\ r_session_id row = session_id)
      (test_responses db) /\
  StronglySorted (fun a b => (r_timestamp a <= r_timestamp b)%Z) responses.
Proof.
  intros Hup Hne responses. subst responses. unfold get_user_responses.
  rewrite Hup, bool_decide_eq_false_2 by done. split.
  - rewrite order_by_Permutation, list_filter_filter.
    erewrite list_filter_iff; [reflexivity|]. intros row. simpl. tauto.
  - apply order_by_timestamp_sorted.
Qed.

Lemma get_user_responses_of_one_session_witness :
  let db :=
    (store_response "s1" "sess" "q2" 0 [] [] 5
       (store_response "s1" "sess" "q1" 1 [] [] 9 Samples.empty_db).2).2 in
  let responses := get_user_responses "s1" (Some "sess"%string) db in
  responses ≡ₚ
    filter (fun row => r_student_id row = "s1"%string
                       /\ r_session_id row = "sess"%string)
      (test_responses db) /\
  StronglySorted (fun a b => (r_timestamp a <= r_timestamp b)%Z) responses.
Proof.
  apply (get_user_responses_of_one_session "s1" "sess"
           (store_response "s1" "sess" "q2" 0 [] [] 5
              (store_response "s1" "sess" "q1" 1 [] [] 9 Samples.empty_db).2).2).
  - reflexivity.
  - done.
Defined.

(** *** Tier 2 of the pool cache *)

(** X16. Reading a pool whose Tier 2 entry has expired returns nothing and
    deletes the entry: its metadata row and every question row of the pool
    are gone, [get_questions_by_pool] finds no question of it, and every
    later read misses without touching the store. *)
Theorem expired_warm_pool_is_deleted_on_read
    (pool_id : string) (now : Z) (db : Supabase) (pool_meta : PoolRow)
    (others : list PoolRow) :
  db_up db = true ->
  filter (fun row => pm_id row = pool_id) (question_pools db) = pool_meta :: others ->
  (pm_expires_at pool_meta < now)%Z ->
  let result := get_cached_question_pool pool_id now db in
  result.1 = None /\
  filter (fun row => pm_id row = pool_id) (question_pools result.2) = [] /\
  filter (fun row => qr_pool_id row = pool_id) (questions result.2) = [] /\
  get_questions_by_pool pool_id result.2 = [] /\
  forall t, get_cached_question_pool pool_id t result.2 = (None, result.2).
Proof.
  intros Hup Hmeta Hexpired result.
  assert (result = (None, (invalidate_question_pool pool_id db).2)) as ->.
  { subst result. unfold get_cached_question_pool.
    by rewrite Hup, Hmeta, bool_decide_eq_true_2. }
  set (db' := (invalidate_question_pool pool_id db).2).
  assert (db_up db' = true) as Hup'.
  { subst db'. unfold invalidate_question_pool. by rewrite Hup. }
  assert (filter (fun row => pm_id row = pool_id) (question_pools db') = [])
    as Hpools.
  { subst db'. unfold invalidate_question_pool. rewrite Hup.
    apply filter_filter_not. }
  assert (filter (fun row => qr_pool_id row = pool_id) (questions db') = [])
    as Hquestions.
  { subst db'. unfold invalidate_question_pool. rewrite Hup.
    apply filter_filter_not. }
  cbn [fst snd]. split_and!; [done..| |].
  - unfold get_questions_by_pool. by rewrite Hup', Hquestions.
  - intros t. unfold get_cached_question_pool. by rewrite Hup', Hpools.
Qed.

Lemma expired_warm_pool_is_deleted_on_read_witness :
  let result := get_cached_question_pool "topic_X" 200 Samples.expired_db in
  result.1 = None /\
  filter (fun row => pm_id row = "topic_X"%string) (question_pools result.2) = [] /\
  filter (fun row => qr_pool_id row = "topic_X"%string) (questions result.2) = [] /\
  get_questions_by_pool "topic_X" result.2 = [] /\
  forall t, get_cached_question_pool "topic_X" t result.2 = (None, result.2).
Proof.
  apply (expired_warm_pool_is_deleted_on_read "topic_X" 200 Samples.expired_db
           Samples.expired_pool_row []).
  - reflexivity.
  - reflexivity.
  - simpl. lia.
Defined.

Lemma upsert_row_fresh {A} (same : A -> A -> bool) row table :
  Forall (fun old => same old row = false) table ->
  upsert_row same row table = table ++ [row].
Proof.
  induction 1 as [|old table Hold _ IH]; [done|]. simpl. by rewrite Hold, IH.
Qed.

Lemma upsert_rows_fresh {A} (same : A -> A -> bool) rows :
  forall table,
    Forall (fun row => Forall (fun old => same old row = false) table) rows ->
    (forall i j a b, rows !! i = Some a -> rows !! j = Some b -> i <> j ->
       same a b = false) ->
    upsert_rows same rows table = table ++ rows.
Proof.
  induction rows as [|row rows IH]; intros table Hfresh Hdistinct.
  - by rewrite app_nil_r.
  - apply Forall_cons in Hfresh as [Hrow Hfresh].
    unfold upsert_rows in *. cbn [foldl]. rewrite upsert_row_fresh by done.
    rewrite IH.
    + by rewrite <- app_assoc.
    + apply Forall_forall. intros r Hr. apply Forall_app. split.
      * by eapply Forall_forall in Hfresh.
      * apply list_elem_of_lookup in Hr as [j Hj].
        constructor; [|done].
        apply (Hdistinct 0%nat (S j)); done.
    + intros i j a b Ha Hb Hij. apply (Hdistinct (S i) (S j)); [done..|lia].
Qed.

(** After the upsert of a metadata row, the first row found under its id
    is that row. *)
Lemma head_filter_upsert_row (row : PoolRow) table :
  head (filter (fun old => pm_id old = pm_id row)
          (upsert_row (fun old new => bool_decide (pm_id old = pm_id new)) row table))
  = Some row.
Proof.
  induction table as [|old table IH]; simpl.
  - by rewrite filter_cons_True.
  - case_bool_decide as Hid.
    + by rewrite filter_cons_True.
    + by rewrite filter_cons_False.
Qed.

Lemma cached_question_records pool_id qs :
  Forall (fun q => is_Some (q_correct_answer q)) qs ->
  exists records,
    mapM (cached_question_record pool_id) qs = Some records /\
    map cached_question_of_row records
    = map (fun q => cached_question_of_row
                      {| qr_pool_id := pool_id; qr_question := q |}) qs /\
    map (fun row => q_id (qr_question row)) records = map q_id qs /\
    Forall (fun row => qr_pool_id row = pool_id) records.
Proof.
  induction 1 as [|q qs [answer Hq] _ (records & Hrec & Hmap & Hids & Hpool)].
  - by exists [].
  - destruct (cached_question_record pool_id q) as [row|] eqn:Hrow.
    2:{ unfold cached_question_record in Hrow. by rewrite Hq in Hrow. }
    exists (row :: records).
    assert (mapM (cached_question_record pool_id) (q :: qs)
            = Some (row :: records)) as ->.
    { apply mapM_Some. constructor; [done|]. by apply mapM_Some. }
    unfold cached_question_record in Hrow. rewrite Hq in Hrow.
    injection Hrow as <-. cbn [map]. rewrite Hmap, Hids.
    split_and!; [done| |done|by constructor].
    f_equal. unfold cached_question_of_row. simpl. by rewrite Hq.
Qed.

(** X17. A pool written to Tier 2 of a reachable warm store is read back
    until its seven days are over: with the level, level id, attributes
    and fetch time it was written with, stamped with the tier
    ["supabase"] and the time of writing, and with its questions in their
    order, every optional key filled with its default.  This holds when
    the questions carry a correct answer and distinct ids, and no stored
    question has the pool's id or the id of one of them. *)
Theorem warm_pool_cache_round_trip
    (pool_id : string) (pool_data : Pool) (now t : Z) (db : Supabase) :
  db_up db = true ->
  Forall (fun q => is_Some (q_correct_answer q)) (pool_questions pool_data) ->
  NoDup (map q_id (pool_questions pool_data)) ->
  Forall (fun row => qr_pool_id row <> pool_id
                     /\ q_id (qr_question row) ∉ map q_id (pool_questions pool_data))
    (questions db) ->
  (t <= now + SUPABASE_CACHE_EXPIRY)%Z ->
  let written := cache_question_pool pool_id pool_data now db in
  written.1 = true /\
  get_cached_question_pool pool_id t written.2
  = (Some {| pool_id := pool_id; pool_level := pool_level pool_data;
             pool_level_id := pool_level_id pool_data;
             pool_attribute_count := pool_attribute_count pool_data;
             pool_attributes := pool_attributes pool_data;
             pool_questions :=
               map (fun q => cached_question_of_row
                               {| qr_pool_id := pool_id; qr_question := q |})
                   (pool_questions pool_data);
             pool_total_questions := Z.of_nat (length (pool_questions pool_data));
             pool_fetched_at := pool_fetched_at pool_data;
             pool_cache_tier := Some "supabase"%string;
             pool_cached_at := Some now |}, written.2).
Proof.
  intros Hup Hanswers Hnodup Hfresh Ht written.
  destruct (cached_question_records pool_id _ Hanswers)
    as (records & Hrecords & Hmap & Hids & Hpool).
  set (pool_metadata :=
         {| pm_id := pool_id; pm_level := pool_level pool_data;
            pm_level_id := pool_level_id pool_data;
            pm_attribute_count := pool_attribute_count pool_data;
            pm_attributes := pool_attributes pool_data;
            pm_total_questions := pool_total_questions pool_data;
            pm_fetched_at := pool_fetched_at pool_data;
            pm_cached_at := now;
            pm_expires_at := (now + SUPABASE_CACHE_EXPIRY)%Z |}).
  set (pools := upsert_row (fun old new => bool_decide (pm_id old = pm_id new))
                  pool_metadata (question_pools db)).
  assert (written = (true, with_pool_cache db pools (questions db ++ records)))
    as ->.
  { subst written. unfold cache_question_pool. rewrite Hup.
    fold pool_metadata. fold pools.
    destruct (pool_questions pool_data) as [|q qs] eqn:Hqs.
    { injection Hrecords as <-. by rewrite app_nil_r. }
    rewrite Hrecords. do 2 f_equal.
    apply upsert_rows_fresh.
    - apply Forall_forall. intros row Hrow. apply Forall_forall. intros old Hold.
      apply bool_decide_eq_false_2. intros Heq.
      eapply Forall_forall in Hfresh as [_ Hid]; [|exact Hold]. apply Hid.
      rewrite Heq, <- Hids.
      by apply (list_elem_of_fmap_2 (fun row => q_id (qr_question row))).
    - intros i j a b Ha Hb Hij. apply bool_decide_eq_false_2. intros Heq.
      apply Hij. rewrite <- Hids in Hnodup.
      eapply NoDup_lookup; [exact Hnodup| |].
      + rewrite list_lookup_fmap, Ha. reflexivity.
      + rewrite list_lookup_fmap, Hb. simpl. by rewrite Heq. }
  cbn [fst snd]. split; [done|].
  unfold get_cached_question_pool.
  change (db_up (with_pool_cache db pools (questions db ++ records)))
    with (db_up db).
  change (question_pools (with_pool_cache db pools (questions db ++ records)))
    with pools.
  change (questions (with_pool_cache db pools (questions db ++ records)))
    with (questions db ++ records).
  rewrite Hup.
  pose proof (head_filter_upsert_row pool_metadata (question_pools db)) as Hhead.
  fold pools in Hhead. change (pm_id pool_metadata) with pool_id in Hhead.
  destruct (filter _ pools) as [|pool_meta rest]; [done|].
  injection Hhead as ->.
  rewrite bool_decide_eq_false_2 by (simpl; lia).
  assert (filter (fun row => qr_pool_id row = pool_id) (questions db ++ records)
          = records) as ->.
  { rewrite filter_app.
    assert (filter (fun row => qr_pool_id row = pool_id) (questions db) = []) as ->.
    { clear -Hfresh. induction Hfresh as [|row rows [Hrow _] _ IH]; [done|].
      by rewrite filter_cons_False. }
    clear -Hpool. induction Hpool as [|row rows Hrow _ IH]; [done|].
    rewrite filter_cons_True by done. simpl in *. by rewrite IH. }
  rewrite Hmap, length_map. reflexivity.
Qed.

Lemma warm_pool_cache_round_trip_witness :
  let written :=
    cache_question_pool "topic_X" Samples.topic_pool 0 Samples.uploaded_db in
  written.1 = true /\
  get_cached_question_pool "topic_X" 604800 written.2
  = (Some {| pool_id := "topic_X"; pool_level := pool_level Samples.topic_pool;
             pool_level_id := pool_level_id Samples.topic_pool;
             pool_attribute_count := pool_attribute_count Samples.topic_pool;
             pool_attributes := pool_attributes Samples.topic_pool;
             pool_questions :=
               map (fun q => cached_question_of_row
                               {| qr_pool_id := "topic_X"; qr_question := q |})
                   (pool_questions Samples.topic_pool);
             pool_total_questions :=
               Z.of_nat (length (pool_questions Samples.topic_pool));
             pool_fetched_at := pool_fetched_at Samples.topic_pool;
             pool_cache_tier := Some "supabase"%string;
             pool_cached_at := Some 0%Z |}, written.2).
Proof.
  apply (warm_pool_cache_round_trip "topic_X" Samples.topic_pool 0 604800
           Samples.uploaded_db).
  - reflexivity.
  - repeat constructor. by eexists.
  - simpl. apply NoDup_singleton.
  - repeat constructor; try done;
      simpl; intros Hin; by apply list_elem_of_singleton in Hin.
  - unfold SUPABASE_CACHE_EXPIRY. lia.
Defined.

End WarmStoreFacts.

(** ** The remote source *)

Section RemoteFacts.
Import ExternalAPIService.

(** X18. A pool that [transform_to_internal_format] returns is in
    canonical form: it carries the level and the level id of the wire
    data, its id is the two joined by an underscore, its question count is
    the length of its question list, its questions are those of the wire
    data in their order, by id, and every question carries a correct
    answer, a concept vector, a difficulty, a discrimination and a
    guessing value. *)
Theorem transform_to_internal_format_is_canonical
    (external_data : RawPool) (pool : Pool) :
  transform_to_internal_format external_data = Returns (Some pool) ->
  raw_level external_data = Some (pool_level pool) /\
  raw_level_id external_data = Some (pool_level_id pool) /\
  pool_id pool = pool_level pool +:+ "_" +:+ pool_level_id pool /\
  pool_total_questions pool = Z.of_nat (length (pool_questions pool)) /\
  map (fun q => Some (q_id q)) (pool_questions pool)
  = map rq_id (default [] (raw_questions external_data)) /\
  Forall (fun q =>
            is_Some (q_correct_answer q) /\ is_Some (q_concepts q) /\
            is_Some (q_difficulty q) /\ is_Some (q_discrimination q) /\
            is_Some (q_guessing q)) (pool_questions pool).
Proof.
  unfold transform_to_internal_format.
  destruct (raw_level external_data) as [level|]; [|done].
  destruct (raw_level_id external_data) as [level_id|]; [|done].
  destruct (mapM _ _) as [internal_questions|] eqn:Hqs; [|done].
  intros [= <-]. simpl. split_and!; try done.
  - apply mapM_Some in Hqs.
    induction Hqs as [|q iq qs iqs Hq _ IH]; [done|]. cbn [map]. rewrite IH.
    f_equal. unfold internal_question in Hq.
    destruct (rq_id q); [|done]. destruct (rq_content q); [|done].
    destruct (rq_correct_answer q); [|done]. by injection Hq as <-.
  - apply mapM_Some in Hqs.
    induction Hqs as [|q iq qs iqs Hq _ IH]; [done|]. constructor; [|done].
    unfold internal_question in Hq.
    destruct (rq_id q); [|done]. destruct (rq_content q); [|done].
    destruct (rq_correct_answer q); [|done]. injection Hq as <-. simpl.
    split_and!; eauto.
Qed.

Lemma transform_to_internal_format_is_canonical_witness :
  raw_level Samples.remote_pool = Some (pool_level Samples.topic_pool) /\
  raw_level_id Samples.remote_pool = Some (pool_level_id Samples.topic_pool) /\
  pool_id Samples.topic_pool
  = pool_level Samples.topic_pool +:+ "_" +:+ pool_level_id Samples.topic_pool /\
  pool_total_questions Samples.topic_pool
  = Z.of_nat (length (pool_questions Samples.topic_pool)) /\
  map (fun q => Some (q_id q)) (pool_questions Samples.topic_pool)
  = map rq_id (default [] (raw_questions Samples.remote_pool)) /\
  Forall (fun q =>
            is_Some (q_correct_answer q) /\ is_Some (q_concepts q) /\
            is_Some (q_difficulty q) /\ is_Some (q_discrimination q) /\
            is_Some (q_guessing q)) (pool_questions Samples.topic_pool).
Proof.
  apply (transform_to_internal_format_is_canonical Samples.remote_pool
           Samples.topic_pool).
  reflexivity.
Defined.

Lemma gather_pages_app fetch pre post acc :
  Forall (fun page => exists data qs,
            fetch page = Some data /\ raw_questions data = Some qs) pre ->
  gather_pages fetch (pre ++ post) acc
  = gather_pages fetch post
      (acc ++ concat (map (fun page => default [] (fetch page ≫= raw_questions)) pre)).
Proof.
  intros Hpre. revert acc.
  induction Hpre as [|page pre (data & qs & Hdata & Hqs) _ IH]; intros acc.
  - simpl. by rewrite app_nil_r.
  - cbn [app gather_pages map concat]. rewrite Hdata, Hqs, IH. simpl.
    rewrite Hqs. simpl. by rewrite app_assoc.
Qed.

(** X19. When the first page of a valid level announces more pages,
    [fetch_all_pages] appends to its questions those of pages 2, 3, ... in
    order, up to the last announced page or, if a page cannot be fetched,
    up to the page before it.  What it returns then carries the merged
    questions, their number as the total, and a pagination that says there
    is no more, also when pages are missing. *)
Theorem fetch_all_pages_merges_pages_until_one_fails
    (remote : RemoteSource) (level level_id : string) (now : Z)
    (first : RawPool) (pagination : Pagination) (first_questions : list RawQuestion)
    (total_pages : Z) (fetched : nat) :
  let endpoint :=
    "/api/hierarchy/" +:+ level +:+ "/" +:+ level_id +:+ "/questions/enhanced" in
  let page_questions (k : nat) :=
    default [] (remote endpoint (2 + Z.of_nat k)%Z 100%Z ≫= raw_questions) in
  level ∈ valid_levels ->
  remote endpoint 1%Z 100%Z = Some first ->
  raw_pagination first = Some pagination ->
  pg_has_more pagination = Some true ->
  pg_total_pages pagination = Some total_pages ->
  raw_questions first = Some first_questions ->
  (fetched <= Z.to_nat (total_pages - 1))%nat ->
  (forall k, (k < fetched)%nat ->
     exists data qs, remote endpoint (2 + Z.of_nat k)%Z 100%Z = Some data
                     /\ raw_questions data = Some qs) ->
  ((fetched < Z.to_nat (total_pages - 1))%nat ->
   remote endpoint (2 + Z.of_nat fetched)%Z 100%Z = None) ->
  exists merged,
    fetch_all_pages remote level level_id now = Returns (Some merged) /\
    raw_questions merged
    = Some (first_questions ++ concat (map page_questions (seq 0 fetched))) /\
    raw_total_questions merged
    = Some (Z.of_nat (length (first_questions
                              ++ concat (map page_questions (seq 0 fetched))))) /\
    (raw_pagination merged ≫= pg_has_more) = Some false.
Proof.
  intros endpoint page_questions Hlevel Hfirst Hpagination Hmore Htotal Hqs
    Hfetched Hpages Hstop.
  unfold fetch_all_pages.
  assert (forall page,
            fetch_question_pool remote level level_id page 100 now
            = with_fetched_at now <$> remote endpoint page 100%Z) as Hfetch.
  { intros page. unfold fetch_question_pool. by rewrite bool_decide_eq_true_2. }
  rewrite Hfetch, Hfirst. simpl. rewrite Hpagination. simpl.
  rewrite Hmore, Htotal, Hqs. simpl.
  set (fetch := fun page => fetch_question_pool remote level level_id page 100 now).
  assert (forall k, default [] (fetch (2 + Z.of_nat k)%Z ≫= raw_questions)
                    = page_questions k) as Hquestions.
  { intros k. subst fetch page_questions. simpl. rewrite Hfetch.
    by destruct (remote endpoint (2 + Z.of_nat k)%Z 100%Z). }
  assert (exists rest, Z.to_nat (total_pages - 1) = (fetched + rest)%nat)
    as [rest Hrest] by (exists (Z.to_nat (total_pages - 1) - fetched)%nat; lia).
  rewrite Hrest, seq_app, map_app.
  rewrite gather_pages_app.
  2:{ apply Forall_fmap, Forall_forall. intros k Hk. apply elem_of_seq in Hk.
      destruct (Hpages k) as (data & qs & Hdata & Hdataqs); [lia|].
      exists (with_fetched_at now data), qs. simpl. subst fetch. simpl.
      by rewrite Hfetch, Hdata. }
  rewrite map_map. simpl.
  erewrite (map_ext _ page_questions) by (intros k; apply Hquestions).
  assert (gather_pages fetch
            (map (fun k => (2 + Z.of_nat k)%Z) (seq fetched rest))
            (first_questions ++ concat (map page_questions (seq 0 fetched)))
          = Returns (first_questions
                     ++ concat (map page_questions (seq 0 fetched)))) as ->.
  { destruct rest as [|rest]; [done|]. simpl. subst fetch. simpl.
    rewrite Hfetch, Hstop; [done|lia]. }
  eexists. split; [reflexivity|]. simpl. done.
Qed.

Lemma fetch_all_pages_merges_pages_until_one_fails_witness :
  let endpoint :=
    "/api/hierarchy/" +:+ "topic" +:+ "/" +:+ "X" +:+ "/questions/enhanced" in
  let page_questions (k : nat) :=
    default []
      (Samples.paged_remote endpoint (2 + Z.of_nat k)%Z 100%Z ≫= raw_questions) in
  exists merged,
    fetch_all_pages Samples.paged_remote "topic" "X" 0 = Returns (Some merged) /\
    raw_questions merged
    = Some ([Samples.raw_question "p1"]
            ++ concat (map page_questions (seq 0 1))) /\
    raw_total_questions merged
    = Some (Z.of_nat (length ([Samples.raw_question "p1"]
                              ++ concat (map page_questions (seq 0 1))))) /\
    (raw_pagination merged ≫= pg_has_more) = Some false.
Proof.
  apply (fetch_all_pages_merges_pages_until_one_fails Samples.paged_remote
           "topic" "X" 0 (Samples.raw_page 1 "p1")
           {| pg_page := Some 1%Z; pg_total_pages := Some 3%Z;
              pg_has_more := Some true |}
           [Samples.raw_question "p1"] 3 1).
  - apply list_elem_of_here.
  - reflexivity.
  - reflexivity.
  - reflexivity.
  - reflexivity.
  - reflexivity.
  - simpl. lia.
  - intros k Hk. assert (k = 0%nat) as -> by lia.
    eexists _, _. split; reflexivity.
  - intros _. reflexivity.
Defined.

End RemoteFacts.

(** ** The question service *)

Section QuestionFacts.
Import QuestionService.

Lemma create_q_matrix_loop qs :
  forall (q_matrix : gmap string (list R)) id,
    foldl (fun q_matrix question =>
             <[q_id question := default [1; 0; 0; 0; 0] (q_concepts question)]>
               q_matrix) q_matrix qs !! id
    = match last (filter (fun q => q_id q = id) qs) with
      | Some q => Some (default [1; 0; 0; 0; 0] (q_concepts q))
      | None => q_matrix !! id
      end.
Proof.
  induction qs as [|q qs IH]; intros q_matrix id; [done|].
  cbn [foldl]. rewrite IH. destruct (decide (q_id q = id)) as [Hid|Hid].
  - rewrite (filter_cons_True (fun q => q_id q = id)) by done.
    destruct (filter _ qs) as [|q' qs'] eqn:Hrest.
    + simpl. by rewrite Hid, lookup_insert_eq.
    + rewrite last_cons_cons.
      destruct (last (q' :: qs')) eqn:Hlast; [done|].
      by apply last_None in Hlast.
  - rewrite (filter_cons_False (fun q => q_id q = id)) by done.
    by rewrite lookup_insert_ne.
Qed.

(** X20. The Q-matrix built from a question list has an entry for an id
    exactly when a question of the list has that id; the entry is the
    concept vector of the last such question, or [1, 0, 0, 0, 0] if that
    question has none. *)
Theorem create_q_matrix_entry_is_last_question_with_the_id
    (qs : list Question) (id : string) :
  create_q_matrix qs !! id
  = (fun q => default [1; 0; 0; 0; 0] (q_concepts q))
      <$> last (filter (fun q => q_id q = id) qs).
Proof.
  unfold create_q_matrix. rewrite create_q_matrix_loop.
  by destruct (last _).
Qed.

(** X21. The pool id made of a valid level, an underscore and a level id
    is split by [get_questions] into that level and that level id, even
    when the level id contains underscores, and the questions are loaded
    through the cache manager. *)
Theorem pool_id_of_a_level_routes_to_the_cache_manager
    (level level_id : string) (now : Z) (w : World) :
  level ∈ ExternalAPIService.valid_levels ->
  split_underscore (level +:+ "_" +:+ level_id) = Some (level, level_id) /\
  get_questions (Some (level +:+ "_" +:+ level_id)) now w
  = get_questions_from_external level level_id now w.
Proof.
  intros Hlevel.
  assert (split_underscore (level +:+ "_" +:+ level_id) = Some (level, level_id))
    as Hsplit.
  { unfold ExternalAPIService.valid_levels in Hlevel.
    repeat (apply elem_of_cons in Hlevel as [->|Hlevel]; [reflexivity|]).
    by apply elem_of_nil in Hlevel. }
  split; [done|]. unfold get_questions. rewrite Hsplit.
  rewrite bool_decide_eq_false_2; [done|].
  unfold ExternalAPIService.valid_levels in Hlevel.
  repeat (apply elem_of_cons in Hlevel as [->|Hlevel]; [done|]).
  by apply elem_of_nil in Hlevel.
Qed.

Lemma pool_id_of_a_level_routes_to_the_cache_manager_witness :
  split_underscore ("chapter" +:+ "_" +:+ "a_b") = Some ("chapter", "a_b")%string /\
  get_questions (Some ("chapter" +:+ "_" +:+ "a_b")) 0 Samples.topic_world
  = get_questions_from_external "chapter" "a_b" 0 Samples.topic_world.
Proof.
  apply (pool_id_of_a_level_routes_to_the_cache_manager "chapter" "a_b" 0
           Samples.topic_world).
  apply list_elem_of_further, list_elem_of_here.
Defined.

End QuestionFacts.

(** ** The cache manager over the process-wide services *)

Section CacheCounters.
Import CacheManager.

(** X22. Every request for a pool counts once in [total_requests] and
    once as a Tier 1 hit or miss; every Tier 1 miss counts once as a
    Tier 2 hit or miss; the remote source is called exactly once for every
    Tier 2 miss; and a request that yields no pool has called the remote
    source. *)
Theorem cache_counters_account_for_every_request
    (level level_id : string) (fetch_all_pages : bool) (now : Z) (w : World) :
  let before := w_stats w in
  let result := QuestionService.get_question_pool level level_id fetch_all_pages now w in
  let after := w_stats result.2 in
  (total_requests after = total_requests before + 1)%Z /\
  (redis_hits after + redis_misses after
   = redis_hits before + redis_misses before + 1)%Z /\
  (supabase_hits after + supabase_misses after
   = supabase_hits before + supabase_misses before
     + (redis_misses after - redis_misses before))%Z /\
  (external_api_calls after - external_api_calls before
   = supabase_misses after - supabase_misses before)%Z /\
  match result.1 with
  | Some _ => True
  | None => (external_api_calls after = external_api_calls before + 1)%Z
  end.
Proof.
  intros before result after. subst after result before.
  unfold QuestionService.get_question_pool, get_question_pool. simpl.
  destruct (RedisService.get_cached_question_pool _ _ _) as [redis_data|].
  { simpl. split_and!; try lia; try done. }
  destruct (SupabaseService.get_cached_question_pool _ _ _)
    as [[supabase_data|] db].
  { unfold _cache_to_redis. simpl.
    destruct (RedisService.cache_question_pool _ _ _ _ _) as [[ok pool] r].
    simpl. split_and!; try lia; try done. }
  destruct (fetch_from_external _ _ _ _ _ _) as [[pool_data|] w'] eqn:Hfetch;
    simpl; split_and!; try lia; try done.
Qed.

Lemma hot_pool_read_after_write pool_id pool_data ttl_hours now r :
  redis_up r = true -> (0 < ttl_hours)%Z ->
  let stored := RedisService.cache_question_pool pool_id pool_data ttl_hours now r in
  RedisService.get_cached_question_pool pool_id now stored.2 = Some stored.1.2.
Proof.
  intros Hup Httl stored. subst stored. unfold RedisService.cache_question_pool.
  destruct (RedisClient.setex _ _ _ _ _) as [r'|] eqn:Hset.
  - unfold RedisService.get_cached_question_pool. simpl.
    rewrite (get_after_setex _ _ _ _ _ _ now Hset).
    rewrite bool_decide_eq_true_2; [done|lia].
  - unfold RedisClient.setex in Hset. rewrite Hup in Hset.
    by rewrite bool_decide_eq_true_2 in Hset by lia.
Qed.

(** X23. With the hot store reachable, a pool that a request has returned,
    from whichever tier, is in Tier 1 afterwards exactly as it was
    returned; the same request repeated at once returns it again as a
    Tier 1 hit, writing nothing and calling neither the warm store's cache
    nor the remote source. *)
Theorem served_pool_is_in_tier_1_afterwards
    (level level_id : string) (fetch_all_pages fetch_all_pages' : bool) (now : Z)
    (w w' : World) (pool : Pool) :
  redis_up (w_redis w) = true ->
  QuestionService.get_question_pool level level_id fetch_all_pages now w
    = (Some pool, w') ->
  RedisService.get_cached_question_pool (level +:+ "_" +:+ level_id) now
    (w_redis w') = Some pool /\
  QuestionService.get_question_pool level level_id fetch_all_pages' now w'
    = (Some pool,
       with_stats w' (bump "redis_hits" (bump "total_requests" (w_stats w')))).
Proof.
  intros Hup Hserved.
  assert (RedisService.get_cached_question_pool (level +:+ "_" +:+ level_id) now
            (w_redis w') = Some pool) as Hhot.
  { revert Hserved.
    unfold QuestionService.get_question_pool, get_question_pool. simpl.
    destruct (RedisService.get_cached_question_pool _ _ _) as [redis_data|] eqn:Hr.
    { by intros [= <- <-]. }
    destruct (SupabaseService.get_cached_question_pool _ _ _)
      as [[supabase_data|] db].
    { unfold _cache_to_redis. simpl.
      pose proof (hot_pool_read_after_write (level +:+ "_" +:+ level_id)
                    supabase_data 24 now (w_redis w) Hup) as Hread.
      destruct (RedisService.cache_question_pool _ _ _ _ _) as [[ok stamped] r].
      simpl in *. intros [= <- <-]. simpl. apply Hread. lia. }
    unfold fetch_from_external. simpl.
    destruct (if fetch_all_pages then _ else _) as [[[raw_data|]|] w1] eqn:Hraw;
      simpl; try done.
    assert (w1 = with_db w db) as ->.
    { by destruct fetch_all_pages; injection Hraw as _ <-. }
    destruct (ExternalAPIService.transform_to_internal_format raw_data)
      as [[pool_data|]|]; try done.
    unfold _cache_to_all_tiers, _cache_to_supabase, _cache_to_redis. simpl.
    destruct (SupabaseService.cache_question_pool _ _ _ _) as [ok2 db2].
    simpl.
    pose proof (hot_pool_read_after_write (level +:+ "_" +:+ level_id)
                  pool_data 24 now (w_redis w) Hup) as Hread.
    destruct (RedisService.cache_question_pool _ _ _ _ _) as [[ok stamped] r].
    simpl in *. intros [= <- <-]. simpl. apply Hread. lia. }
  split; [done|].
  unfold QuestionService.get_question_pool, get_question_pool. simpl.
  by rewrite Hhot.
Qed.

Lemma served_pool_is_in_tier_1_afterwards_witness :
  exists pool w',
    RedisService.get_cached_question_pool ("topic" +:+ "_" +:+ "X") 0
      (w_redis w') = Some pool /\
    QuestionService.get_question_pool "topic" "X" true 0 w'
    = (Some pool,
       with_stats w' (bump "redis_hits" (bump "total_requests" (w_stats w')))).
Proof.
  destruct (QuestionService.get_question_pool "topic" "X" true 0
              Samples.topic_world) as [[pool|] w'] eqn:Hserved.
  - exists pool, w'.
    apply (served_pool_is_in_tier_1_afterwards "topic" "X" true true 0
             Samples.topic_world w' pool); [reflexivity|exact Hserved].
  - exfalso. vm_compute in Hserved. discriminate Hserved.
Defined.

Lemma warm_pool_gone_after_invalidate pool_id now db :
  let db' := (SupabaseService.invalidate_question_pool pool_id db).2 in
  SupabaseService.get_cached_question_pool pool_id now db' = (None, db').
Proof.
  intros db'. subst db'. unfold SupabaseService.invalidate_question_pool.
  destruct (db_up db) eqn:Hup; simpl.
  - unfold SupabaseService.get_cached_question_pool. simpl. rewrite Hup.
    by rewrite (filter_filter_not (fun row => pm_id row = pool_id)).
  - unfold SupabaseService.get_cached_question_pool. by rewrite Hup.
Qed.

(** X24. Over the services of the application, invalidation always
    reports success: both services catch their own failures, so the
    manager never sees one.  In particular it reports success with both
    stores unreachable, when it has changed nothing. *)
Theorem invalidate_question_pool_always_reports_success
    (level level_id : string) (now : Z) (w : World) :
  let result := invalidate_question_pool level level_id now w in
  result.1 = true /\
  (redis_up (w_redis w) = false -> db_up (w_db w) = false -> result.2 = w).
Proof.
  intros result. subst result. unfold invalidate_question_pool. simpl.
  destruct (RedisService.invalidate_question_pool _ _ _) as [ok1 r] eqn:H1.
  simpl.
  destruct (SupabaseService.invalidate_question_pool _ _) as [ok2 db] eqn:H2.
  simpl. split; [done|]. intros Hredis Hdb.
  unfold RedisService.invalidate_question_pool, RedisClient.delete,
    RedisClient.get in H1. rewrite Hredis in H1. injection H1 as _ <-.
  unfold SupabaseService.invalidate_question_pool in H2. rewrite Hdb in H2.
  injection H2 as _ <-. by destruct w.
Qed.

Lemma invalidate_question_pool_always_reports_success_witness :
  let w :=
    {| w_redis := {| redis_up := false; redis_keys := ∅ |};
       w_db := {| db_up := false; db_next_id := 1; students := [];
                  student_proficiencies := []; test_sessions := [];
                  test_responses := []; question_pools := [];
                  questions := [] |};
       w_remote := Samples.no_remote; w_stats := Samples.zero_stats |} in
  let result := invalidate_question_pool "topic" "X" 0 w in
  result.1 = true /\
  (redis_up (w_redis w) = false -> db_up (w_db w) = false -> result.2 = w).
Proof.
  intros w.
  apply (invalidate_question_pool_always_reports_success "topic" "X" 0 w).
Defined.

(** X25. Over the services of the application, a refresh never answers
    from a cache, whatever the state of the stores: it calls the remote
    source exactly once and counts no hit, and it yields no pool exactly
    when the remote source yields none or the transformation fails. *)
Theorem refresh_question_pool_always_asks_the_remote_source
    (level level_id : string) (now : Z) (stats : CacheStats) (w : World) :
  let result := refresh_question_pool level level_id now stats w in
  (external_api_calls result.1.2 = external_api_calls stats + 1)%Z /\
  redis_hits result.1.2 = redis_hits stats /\
  supabase_hits result.1.2 = supabase_hits stats /\
  (result.1.1 = None <->
   match ExternalAPIService.fetch_all_pages (w_remote w) level level_id now with
   | Returns (Some raw_data) =>
       match ExternalAPIService.transform_to_internal_format raw_data with
       | Returns (Some _) => False
       | _ => True
       end
   | _ => True
   end).
Proof.
  intros result. subst result.
  unfold refresh_question_pool, invalidate_question_pool. simpl.
  pose proof (hot_pool_gone_after_invalidate (level +:+ "_" +:+ level_id)
                now now (w_redis w)) as Hhot.
  destruct (RedisService.invalidate_question_pool _ _ _) as [ok1 r]. simpl in *.
  pose proof (warm_pool_gone_after_invalidate (level +:+ "_" +:+ level_id)
                now (w_db w)) as Hwarm.
  destruct (SupabaseService.invalidate_question_pool _ _) as [ok2 db].
  simpl in *. unfold get_question_pool. simpl. rewrite Hhot, Hwarm.
  unfold fetch_from_external. simpl.
  destruct (ExternalAPIService.fetch_all_pages _ _ _ _) as [[raw_data|]|];
    simpl; try done.
  destruct (ExternalAPIService.transform_to_internal_format raw_data)
    as [[pool_data|]|]; simpl; try done.
  unfold _cache_to_all_tiers, _cache_to_supabase, _cache_to_redis. simpl.
  destruct (SupabaseService.cache_question_pool _ _ _ _) as [ok3 db3]. simpl.
  destruct (RedisService.cache_question_pool _ _ _ _ _) as [[ok4 stamped] r4].
  simpl. split_and!; try done.
Qed.

End CacheCounters.

(** ** Cache warm-up, whatever the services *)

Section WarmupFacts.
Context {W : Type} `{!PoolServices W}.
Import CacheManager.

Lemma get_question_pool_counts_one_request level level_id fetch_all_pages now
    stats (w : W) :
  total_requests (get_question_pool level level_id fetch_all_pages now stats w).1.2
  = (total_requests stats + 1)%Z.
Proof.
  unfold get_question_pool.
  destruct (tier1_get_cached_question_pool _ _ _) as [[[redis_data|]|] w1];
    [done|..].
  all: destruct (tier2_get_cached_question_pool _ _ _)
         as [[[supabase_data|]|] w2].
  1,4: by destruct (_cache_to_redis _ _ _ _) as [[? ?] ?].
  all: by destruct (fetch_from_external _ _ _ _ _ _).
Qed.

(** X26. Whatever the services do, the warm-up of a list of pools reports
    one detail per pool, in the order of the list and under the pool's id;
    its success and failure counts are the numbers of details with status
    ["success"] and ["failed"] and add up to the number of pools; and it
    makes one cache request per pool. *)
Theorem warmup_cache_reports_every_pool
    (pools : list (string * string)) (now : Z) (stats : CacheStats) (w : W) :
  let result := warmup_cache pools now stats w in
  let results := result.1.1 in
  (wr_success results + wr_failed results = Z.of_nat (length pools))%Z /\
  map wd_pool_id (wr_details results)
  = map (fun pool : string * string => pool.1 +:+ "_" +:+ pool.2) pools /\
  wr_success results
  = Z.of_nat (length (filter (fun detail => wd_status detail = "success"%string)
                        (wr_details results))) /\
  wr_failed results
  = Z.of_nat (length (filter (fun detail => wd_status detail = "failed"%string)
                        (wr_details results))) /\
  total_requests result.1.2 = (total_requests stats + Z.of_nat (length pools))%Z.
Proof.
  intros result results. subst results result. unfold warmup_cache.
  induction pools as [|[level level_id] pools IH] using rev_ind.
  { simpl. split_and!; try done. lia. }
  rewrite foldl_snoc.
  destruct (foldl _ _ pools) as [[results stats'] w'].
  simpl in IH. destruct IH as (Hsum & Hids & Hsuccess & Hfailed & Htotal).
  unfold warmup_step.
  pose proof (get_question_pool_counts_one_request level level_id true now
                stats' w') as Hone.
  destruct (get_question_pool _ _ _ _ _ _) as [[[pool_data|] stats''] w''];
    simpl in *.
  - rewrite !map_app, Hids, !filter_app, !length_app. simpl.
    split_and!; try done; lia.
  - rewrite !map_app, Hids, !filter_app, !length_app. simpl.
    split_and!; try done; lia.
Qed.

End WarmupFacts.

(** ** The session coordinator: life of a session *)

Section CoordinatorFacts.
Import Main.

(** Loading questions leaves the reachability of the warm store and the
    session rows as they were. *)
Lemma cache_manager_sessions level level_id fetch_all_pages now stats (w : World) :
  let w' :=
    (CacheManager.get_question_pool level level_id fetch_all_pages now stats w).2 in
  db_up (w_db w') = db_up (w_db w) /\
  test_sessions (w_db w') = test_sessions (w_db w).
Proof.
  cbv zeta.
  pose proof (get_question_pool_preserves
                (fun w => (db_up (w_db w), test_sessions (w_db w)))
                level level_id fetch_all_pages now stats w) as Hpres.
  simpl in Hpres.
  assert (forall db pool_id,
            db_up (SupabaseService.invalidate_question_pool pool_id db).2 = db_up db /\
            test_sessions (SupabaseService.invalidate_question_pool pool_id db).2
            = test_sessions db) as Hinv.
  { intros db pool_id. unfold SupabaseService.invalidate_question_pool.
    by destruct (db_up db) eqn:Hup. }
  enough ((db_up (w_db (CacheManager.get_question_pool level level_id
                          fetch_all_pages now stats w).2),
           test_sessions (w_db (CacheManager.get_question_pool level level_id
                          fetch_all_pages now stats w).2))
          = (db_up (w_db w), test_sessions (w_db w))) as [= -> ->]; [done|].
  apply Hpres; try done.
  - intros pool_id pool_data ttl_hours now' w'.
    by destruct (RedisService.cache_question_pool _ _ _ _ _) as [[? ?] ?].
  - intros pool_id now' w'.
    unfold SupabaseService.get_cached_question_pool.
    destruct (db_up (w_db w')) eqn:Hup; [|simpl; by rewrite Hup].
    destruct (filter _ _) as [|pool_meta rest]; [simpl; by rewrite Hup|].
    case_bool_decide; [|simpl; by rewrite Hup]. simpl.
    destruct (Hinv (w_db w') pool_id) as [-> ->]. by rewrite Hup.
  - intros pool_id pool_data now' w'.
    unfold SupabaseService.cache_question_pool.
    destruct (db_up (w_db w')) eqn:Hup; [|simpl; by rewrite Hup].
    destruct (pool_questions pool_data) as [|q qs]; [simpl; by rewrite Hup|].
    destruct (mapM _ _); simpl; by rewrite Hup.
Qed.

Lemma get_questions_sessions pool_id now w :
  db_up (w_db (QuestionService.get_questions pool_id now w).2) = db_up (w_db w) /\
  test_sessions (w_db (QuestionService.get_questions pool_id now w).2)
  = test_sessions (w_db w).
Proof.
  unfold QuestionService.get_questions.
  destruct pool_id as [pool_id|]; [|done].
  case_bool_decide; [done|].
  destruct (QuestionService.split_underscore pool_id) as [[level level_id]|];
    [|done].
  unfold QuestionService.get_questions_from_external,
    QuestionService.get_question_pool.
  pose proof (cache_manager_sessions level level_id true now (w_stats w) w) as Hdb.
  by destruct (CacheManager.get_question_pool _ _ _ _ _ _) as [[[pool|] stats] w'].
Qed.

Lemma get_or_create_student_sessions student_id concept_names now db row db' :
  SupabaseService.get_or_create_student student_id concept_names now db
    = (Returns row, db') ->
  db_up db = true /\ db_up db' = true /\ test_sessions db' = test_sessions db.
Proof.
  unfold SupabaseService.get_or_create_student.
  destruct (db_up db) eqn:Hup; [|done].
  destruct (filter _ (students db)) as [|first rest].
  - unfold SupabaseService.create_user_proficiency. simpl. rewrite Hup.
    by intros [= <- <-].
  - by intros [= <- <-].
Qed.

Lemma create_user_proficiency_sessions student_id proficiency concept_names now db :
  let db' :=
    (SupabaseService.create_user_proficiency student_id proficiency
       concept_names now db).2 in
  db_up db' = db_up db /\ test_sessions db' = test_sessions db.
Proof.
  cbv zeta. unfold SupabaseService.create_user_proficiency.
  destruct (db_up db) eqn:Hup; simpl; by rewrite ?Hup.
Qed.

(** X27. After a start answered with 200 on a reachable hot store, the
    hot state of the session is the one the start built: active, with the
    initial proficiency, the id of the question handed out, zero questions
    answered and [last_activity] at the start.  For 30 minutes from the
    start the status endpoint reports the session active with that
    proficiency.  From then on, if nothing has happened and the session id
    was new to the warm store, it reports the row of the warm store:
    status ["active"], not active, a null proficiency and zero
    questions. *)
Theorem started_session_is_active_until_its_hot_state_expires
    (data : StartRequest) (uuid : string) (now : Z) (w : World) :
  status_code (start_test data uuid now w).1 = 200%Z ->
  redis_up (w_redis w) = true ->
  exists student_id initial_proficiency concept_names next_question,
    body (start_test data uuid now w).1
      = StartedBody uuid student_id initial_proficiency concept_names
          next_question /\
    (forall t, (t < now + 30 * 60)%Z ->
       RedisService.get_session_state uuid t (w_redis (start_test data uuid now w).2)
       = Some {| st_student_id := student_id;
                 st_question_pool_id := start_question_pool_id data;
                 st_current_proficiency := initial_proficiency;
                 st_next_question_id := q_id next_question;
                 st_status := "active";
                 st_questions_answered := 0;
                 st_correct_count := 0;
                 st_end_criteria :=
                   default default_end_criteria (start_end_criteria data);
                 st_last_activity := Some now |} /\
       get_test_status uuid t (start_test data uuid now w).2
       = (200%Z, StatusActive uuid "active" initial_proficiency 0)) /\
    (forall t, (now + 30 * 60 <= t)%Z ->
       (forall row, row ∈ test_sessions (w_db w) -> ses_id row <> uuid) ->
       get_test_status uuid t (start_test data uuid now w).2
       = (200%Z, StatusStored uuid "active" None 0 now None)).
Proof.
  intros Hstatus Hup. revert Hstatus. unfold start_test.
  destruct (start_student_id data) as [student_id|]; [|by intros [=]].
  case_bool_decide; [by intros [=]|].
  pose proof (get_questions_up (start_question_pool_id data) now w) as Hup1.
  destruct (get_questions_sessions (start_question_pool_id data) now w)
    as [_ Hses1].
  destruct (QuestionService.get_questions _ _ _) as [qs w1]. simpl in Hup1, Hses1.
  simpl. destruct qs as [|q qs]; [by intros [=]|].
  destruct (SupabaseService.get_or_create_student _ _ _ _) as [[row|] db]
    eqn:Hstudent; [|by intros [=]].
  apply get_or_create_student_sessions in Hstudent as (_ & Hdb & Hses2).
  set (concept_names := default default_concept_names (start_concept_names data)).
  set (stored := SupabaseService.get_current_proficiency student_id db).
  set (started :=
         match stored with
         | [] =>
             (repeat (1 / 2) (length concept_names),
              with_db (with_db w1 db)
                (SupabaseService.create_user_proficiency student_id
                   (repeat (1 / 2) (length concept_names)) concept_names now
                   db).2)
         | _ :: _ => (stored, with_db w1 db)
         end).
  assert (w_redis started.2 = w_redis w1 /\
          db_up (w_db started.2) = true /\
          test_sessions (w_db started.2) = test_sessions (w_db w)) as Hstarted.
  { subst started.
    destruct (create_user_proficiency_sessions student_id
                (repeat (1 / 2) (length concept_names)) concept_names now db)
      as [Hup3 Hses3].
    destruct stored; simpl; split_and!; congruence. }
  destruct started as [initial_proficiency w2].
  simpl in Hstarted. destruct Hstarted as (Hredis & Hdb2 & Hses).
  destruct (AdaptiveEngine.select_next_question _ _ _ _) as [next|];
    [|by intros [=]].
  intros _. simpl. exists student_id, initial_proficiency, concept_names, next.
  split; [done|].
  assert (redis_up (w_redis w2) = true) as Hup2 by congruence.
  unfold RedisService.store_session_state, RedisClient.setex. rewrite Hup2.
  simpl. split.
  - intros t Ht.
    assert (RedisService.get_session_state uuid t
              {| redis_up := true;
                 redis_keys :=
                   <[RedisService.session_key uuid :=
                       ((now + 30 * 60)%Z,
                        RSession
                          (RedisService.set_last_activity now
                             {| st_student_id := student_id;
                                st_question_pool_id := start_question_pool_id data;
                                st_current_proficiency := initial_proficiency;
                                st_next_question_id := q_id next;
                                st_status := "active";
                                st_questions_answered := 0;
                                st_correct_count := 0;
                                st_end_criteria :=
                                  default default_end_criteria
                                    (start_end_criteria data);
                                st_last_activity := None |}))]>
                     (redis_keys (w_redis w2)) |}
            = Some (RedisService.set_last_activity now
                      {| st_student_id := student_id;
                         st_question_pool_id := start_question_pool_id data;
                         st_current_proficiency := initial_proficiency;
                         st_next_question_id := q_id next;
                         st_status := "active";
                         st_questions_answered := 0;
                         st_correct_count := 0;
                         st_end_criteria :=
                           default default_end_criteria (start_end_criteria data);
                         st_last_activity := None |})) as Hhot.
    { unfold RedisService.get_session_state, RedisClient.get. simpl.
      rewrite lookup_insert_eq. unfold RedisClient.alive. simpl.
      by rewrite bool_decide_eq_true_2. }
    split; [exact Hhot|]. unfold get_test_status. simpl. by rewrite Hhot.
  - intros t Ht Hfresh. unfold get_test_status. simpl.
    unfold RedisService.get_session_state, RedisClient.get. simpl.
    rewrite lookup_insert_eq. unfold RedisClient.alive. simpl.
    rewrite bool_decide_eq_false_2 by lia.
    unfold SupabaseService.create_session. rewrite Hdb2.
    unfold SupabaseService.get_session. simpl. rewrite Hdb2, Hses, filter_app.
    assert (filter (fun row => ses_id row = uuid) (test_sessions (w_db w)) = [])
      as ->.
    { clear -Hfresh. induction (test_sessions (w_db w)) as [|row rows IH];
        [done|].
      rewrite filter_cons_False.
      - apply IH. intros r Hr. apply Hfresh. by right.
      - apply Hfresh. left. }
    by rewrite filter_cons_True.
Qed.

Lemma started_session_is_active_until_its_hot_state_expires_witness :
  exists student_id initial_proficiency concept_names next_question,
    body (start_test Samples.start_request "sess-1" 0 Samples.test_world).1
      = StartedBody "sess-1" student_id initial_proficiency concept_names
          next_question /\
    (forall t, (t < 0 + 30 * 60)%Z ->
       RedisService.get_session_state "sess-1" t
         (w_redis (start_test Samples.start_request "sess-1" 0 Samples.test_world).2)
       = Some {| st_student_id := student_id;
                 st_question_pool_id :=
                   start_question_pool_id Samples.start_request;
                 st_current_proficiency := initial_proficiency;
                 st_next_question_id := q_id next_question;
                 st_status := "active";
                 st_questions_answered := 0;
                 st_correct_count := 0;
                 st_end_criteria :=
                   default default_end_criteria
                     (start_end_criteria Samples.start_request);
                 st_last_activity := Some 0%Z |} /\
       get_test_status "sess-1" t
         (start_test Samples.start_request "sess-1" 0 Samples.test_world).2
       = (200%Z, StatusActive "sess-1" "active" initial_proficiency 0)) /\
    (forall t, (0 + 30 * 60 <= t)%Z ->
       (forall row, row ∈ test_sessions (w_db Samples.test_world) ->
          ses_id row <> "sess-1"%string) ->
       get_test_status "sess-1" t
         (start_test Samples.start_request "sess-1" 0 Samples.test_world).2
       = (200%Z, StatusStored "sess-1" "active" None 0 0 None)).
Proof.
  apply (started_session_is_active_until_its_hot_state_expires
           Samples.start_request "sess-1" 0 Samples.test_world).
  - destruct start_test_on_test_world as [w' ->]. reflexivity.
  - reflexivity.
Defined.

(** X28. While the submission lock of a session and a question is held,
    that is for five seconds from its acquisition unless it is released, a
    submit for them is rejected with 409 and changes nothing in any
    store. *)
Theorem overlapping_submit_is_rejected_without_effect
    (data : SubmitRequest) (session_id question_id : string) (response : Z)
    (held_since now : Z) (w : World) (r : Redis) :
  sr_session_id data = Some session_id ->
  sr_question_id data = Some question_id ->
  sr_response data = Some response ->
  session_id <> ""%string ->
  RedisService.acquire_submission_lock session_id question_id held_since
    (w_redis w) = (true, r) ->
  (now < held_since + 5)%Z ->
  submit_response data now (with_redis w r)
  = (error_response 409 "This question has already been submitted",
     with_redis w r).
Proof.
  intros Hsid Hqid Hresponse Hne Hheld Hnow.
  apply acquire_submission_lock_entry in Hheld as [Hup Hkey].
  unfold submit_response. rewrite Hsid, Hqid, Hresponse.
  rewrite bool_decide_eq_false_2 by done.
  unfold RedisService.acquire_submission_lock, RedisClient.set_nx,
    RedisClient.get. simpl.
  rewrite Hup, Hkey. unfold RedisClient.alive. simpl.
  by rewrite bool_decide_eq_true_2.
Qed.

Lemma overlapping_submit_is_rejected_without_effect_witness :
  let r :=
    (RedisService.acquire_submission_lock "sess-1" "test_q1" 10
       (w_redis Samples.started_world)).2 in
  submit_response Samples.submit_request 12 (with_redis Samples.started_world r)
  = (error_response 409 "This question has already been submitted",
     with_redis Samples.started_world r).
Proof.
  apply (overlapping_submit_is_rejected_without_effect Samples.submit_request
           "sess-1" "test_q1" 1 10 12 Samples.started_world).
  - reflexivity.
  - reflexivity.
  - reflexivity.
  - done.
  - vm_compute. reflexivity.
  - lia.
Defined.

(** The durable writes of a submission keep the row of its session. *)
Lemma durable_writes_keep_sessions student_id session_id question_id response
    before after now db row :
  db_up db = true ->
  row ∈ test_sessions db -> ses_id row = session_id ->
  let db' :=
    (SupabaseService.update_session_activity session_id now
       (SupabaseService.store_response student_id session_id question_id
          response before after now
          (SupabaseService.update_user_proficiency student_id after now db).2).2).2 in
  db_up db' = true /\
  exists row', row' ∈ test_sessions db' /\ ses_id row' = session_id.
Proof.
  intros Hup Hrow Hid. cbv zeta.
  assert (db_up (SupabaseService.update_user_proficiency student_id after now db).2
          = true /\
          test_sessions
            (SupabaseService.update_user_proficiency student_id after now db).2
          = test_sessions db) as [Hup1 Hses1].
  { unfold SupabaseService.update_user_proficiency. rewrite Hup.
    by case_bool_decide. }
  unfold SupabaseService.update_session_activity, SupabaseService.store_response.
  rewrite Hup1. simpl. rewrite Hup1. simpl. split; [done|].
  exists (SupabaseService.touch_session session_id now row). split.
  - rewrite Hses1. by apply list_elem_of_fmap_2.
  - unfold SupabaseService.touch_session. by case_bool_decide.
Qed.

(** What a completed answer of the locked body leaves behind. *)
Lemma submit_locked_completed session_id question_id response now w
    http_response w' status final_proficiency total_questions accuracy :
  submit_locked session_id question_id response now w
    = (Returns http_response, w') ->
  body http_response = FinalBody status final_proficiency total_questions accuracy ->
  status = "completed"%string /\
  redis_up (w_redis w') = true /\
  (forall t, RedisService.get_session_state session_id t (w_redis w') = None) /\
  (db_up (w_db w) = true ->
   (exists row, row ∈ test_sessions (w_db w) /\ ses_id row = session_id) ->
   exists row,
     SupabaseService.get_session session_id (w_db w') = Some row /\
     ses_status row = "completed"%string /\
     ses_final_proficiency row = final_proficiency /\
     ses_total_questions row = total_questions /\
     ses_completed_at row = Some now).
Proof.
  unfold submit_locked.
  destruct (RedisService.get_session_state _ _ _) as [state|] eqn:Hstate;
    [|by intros [= <- <-]].
  apply get_session_state_up in Hstate as Hup.
  case_bool_decide; [by intros [= <- <-]|].
  pose proof (get_question_by_id_up question_id now w) as Hq.
  pose proof (get_question_by_id_db question_id now w) as Hqdb.
  destruct (QuestionService.get_question_by_id _ _ _) as [[question|] w1];
    [|by intros [= <- <-]].
  pose proof (get_questions_up (st_question_pool_id state) now w1) as Hqs.
  destruct (get_questions_sessions (st_question_pool_id state) now w1)
    as [Hdbup Hses].
  destruct (QuestionService.get_questions _ _ w1) as [qs w2].
  simpl in Hq, Hqdb, Hqs, Hdbup, Hses.
  destruct (AdaptiveEngine.should_continue _ _ _).
  { destruct (AdaptiveEngine.select_next_question _ _ _ _); [|done].
    by intros [= <- <-]. }
  intros [= <- <-] [= <- <- <- <-]. simpl.
  assert (redis_up (w_redis w2) = true) as Hup2 by congruence.
  split_and!; [done| | |].
  - by rewrite delete_session_state_up.
  - intros t. by apply get_session_state_after_delete.
  - intros Hdb (row & Hrow & Hid).
    assert (db_up (w_db w2) = true) as Hdb2 by congruence.
    assert (row ∈ test_sessions (w_db w2)) as Hrow2 by congruence.
    destruct (durable_writes_keep_sessions (st_student_id state) session_id
                question_id response (st_current_proficiency state)
                (AdaptiveEngine.update_ability learning_rate
                   (st_current_proficiency state) question response
                   (QuestionService.create_q_matrix qs)) now (w_db w2) row
                Hdb2 Hrow2 Hid) as (Hdb3 & row3 & Hrow3 & Hid3).
    match goal with
    | |- context [SupabaseService.complete_session ?a ?b ?c ?d ?e ?f] =>
        set (db3 := f) in *;
        assert (exists row,
                  SupabaseService.get_session a
                    (SupabaseService.complete_session a b c d e db3).2 = Some row /\
                  ses_status row = "completed"%string /\
                  ses_final_proficiency row = Some b /\
                  ses_total_questions row = c /\
                  ses_completed_at row = Some e) as Hdone
    end.
    { unfold SupabaseService.get_session, SupabaseService.complete_session.
      rewrite Hdb3. simpl. rewrite Hdb3, filter_finish_session.
      destruct (filter _ (test_sessions db3)) as [|first rest] eqn:Hf.
      { assert (row3 ∈ filter (fun row => ses_id row = session_id)
                         (test_sessions db3)) as Hin
          by (by apply list_elem_of_filter).
        rewrite Hf in Hin. by apply elem_of_nil in Hin. }
      assert (ses_id first = session_id) as Hfirst.
      { assert (first ∈ filter (fun row => ses_id row = session_id)
                          (test_sessions db3)) as Hin by (rewrite Hf; left).
        by apply list_elem_of_filter in Hin as [? _]. }
      eexists. split; [reflexivity|].
      unfold SupabaseService.finish_session.
      by rewrite bool_decide_eq_true_2. }
    exact Hdone.
Qed.

(** X29. A submit whose answer is a final body has completed the session:
    its status is ["completed"], the hot state of the session is gone for
    good, and the same submit sent again, at any time, is answered 404.
    If the warm store is reachable and holds the row of the session, the
    status endpoint from then on reports the session as stored: completed,
    not active, with the final proficiency and question count of the
    answer and the time of the submit as completion time. *)
Theorem completing_submit_closes_the_session
    (data : SubmitRequest) (now : Z) (w : World)
    (status : string) (final_proficiency : option (list R)) (total_questions : Z)
    (accuracy : option R) :
  body (submit_response data now w).1
    = FinalBody status final_proficiency total_questions accuracy ->
  let w' := (submit_response data now w).2 in
  status = "completed"%string /\
  exists session_id,
    sr_session_id data = Some session_id /\
    (forall t, RedisService.get_session_state session_id t (w_redis w') = None) /\
    (forall t,
       (submit_response data t w').1
       = error_response 404 "Session not found or expired") /\
    (db_up (w_db w) = true ->
     (exists row, row ∈ test_sessions (w_db w) /\ ses_id row = session_id) ->
     forall t, exists started_at,
       get_test_status session_id t w'
       = (200%Z, StatusStored session_id "completed" final_proficiency
                   total_questions started_at (Some now))).
Proof.
  intros Hbody w'. subst w'.
  destruct (submit_response_cases data)
    as [Hinvalid|(session_id & question_id & response & Hsid & Hqid & Hresp & Hrun)].
  { by rewrite Hinvalid in Hbody. }
  pose proof (Hrun now w) as Hfirst. cbv zeta in Hfirst.
  destruct (RedisService.acquire_submission_lock session_id question_id now
              (w_redis w)) as [acquired r] eqn:Hlock.
  simpl in Hfirst. destruct acquired; [|by rewrite Hfirst in Hbody].
  apply acquire_submission_lock_spec in Hlock as (_ & Hup & _).
  destruct (submit_locked session_id question_id response now (with_redis w r))
    as [result w1] eqn:Hlocked.
  simpl in Hfirst. rewrite Hfirst in Hbody |- *. simpl in Hbody |- *.
  destruct result as [http_response|]; [|done].
  destruct (submit_locked_completed _ _ _ _ _ _ _ _ _ _ _ Hlocked Hbody)
    as (Hstatus & Hup1 & Hgone & Hwarm).
  split; [done|]. exists session_id. split; [done|].
  assert (forall t,
            RedisService.get_session_state session_id t
              (RedisService.release_submission_lock session_id question_id now
                 (w_redis w1)).2 = None) as Hgone'.
  { intros t. by rewrite release_submission_lock_get_session. }
  split_and!.
  - exact Hgone'.
  - intros t. rewrite Hrun. cbv zeta. simpl.
    pose proof (acquire_after_release session_id question_id now t (w_redis w1)
                  Hup1) as Hagain.
    destruct (RedisService.acquire_submission_lock session_id question_id t _)
      as [acquired r2] eqn:Hlock2.
    simpl in Hagain. subst acquired.
    apply acquire_submission_lock_spec in Hlock2 as (_ & _ & Hsame).
    simpl. unfold submit_locked. simpl. by rewrite Hsame, Hgone'.
  - intros Hdb Hrow t. unfold get_test_status. simpl. rewrite Hgone'.
    destruct (Hwarm Hdb Hrow) as (row & -> & -> & -> & -> & ->).
    by eexists.
Qed.

(** *** Runs on the sample data *)

Ltac hide_update_results :=
  repeat match goal with
  | |- context [AdaptiveEngine.update_ability ?lr ?p ?q ?r ?m] =>
      lazymatch constr:((p, q, m)) with
      | context [AdaptiveEngine.update_ability] => fail
      | _ => idtac
      end;
      let H := fresh "Hlen" in
      let new := fresh "new" in
      assert (length (AdaptiveEngine.update_ability lr p q r m) = 5%nat) as H
        by (rewrite update_ability_same_length; vm_compute; reflexivity);
      revert H; generalize (AdaptiveEngine.update_ability lr p q r m);
      intros new H;
      destruct new as [|? [|? [|? [|? [|? [|]]]]]]; try discriminate H; clear H
  end.

Ltac evaluate_service := hide_update_results; vm_compute; reflexivity.

(** The answer of a submit that finds its session active and its
    question, by the verdict of the stopping rule and of the selection. *)
Lemma submit_response_answer data now w session_id question_id response
    state question :
  sr_session_id data = Some session_id ->
  sr_question_id data = Some question_id ->
  sr_response data = Some response ->
  session_id <> ""%string ->
  let lock :=
    RedisService.acquire_submission_lock session_id question_id now (w_redis w) in
  lock.1 = true ->
  let locked := with_redis w lock.2 in
  RedisService.get_session_state session_id now (w_redis locked) = Some state ->
  st_status state = "active"%string ->
  let loaded := QuestionService.get_question_by_id question_id now locked in
  loaded.1 = Some question ->
  let pool :=
    QuestionService.get_questions (st_question_pool_id state) now loaded.2 in
  let q_matrix := QuestionService.create_q_matrix pool.1 in
  let new_proficiency :=
    AdaptiveEngine.update_ability learning_rate (st_current_proficiency state)
      question response q_matrix in
  let db :=
    (SupabaseService.update_session_activity session_id now
       (SupabaseService.store_response (st_student_id state) session_id
          question_id response (st_current_proficiency state) new_proficiency now
          (SupabaseService.update_user_proficiency (st_student_id state)
             new_proficiency now (w_db pool.2)).2).2).2 in
  let responses :=
    SupabaseService.get_user_responses (st_student_id state) (Some session_id) db in
  (submit_response data now w).1 =
    if AdaptiveEngine.should_continue responses new_proficiency
         (st_end_criteria state)
    then
      match AdaptiveEngine.select_next_question pool.1 q_matrix new_proficiency
              responses with
      | Some next_question =>
          {| status_code := 200;
             body := ContinueBody new_proficiency next_question
                       (st_questions_answered state + 1) |}
      | None => internal_server_error
      end
    else
      {| status_code := 200;
         body := FinalBody "completed" (Some new_proficiency)
                   (st_questions_answered state + 1)
                   (Some (SupabaseService.accuracy_of
                            (st_correct_count state
                             + (if bool_decide (response = 1%Z) then 1 else 0))
                            (st_questions_answered state + 1))) |}.
Proof.
  cbv zeta.
  intros Hsid Hqid Hresponse Hne Hlock Hstate Hactive Hquestion.
  unfold submit_response. rewrite Hsid, Hqid, Hresponse.
  rewrite bool_decide_eq_false_2 by done.
  destruct (RedisService.acquire_submission_lock _ _ _ _) as [acquired r].
  simpl in *. subst acquired.
  unfold submit_locked. simpl. rewrite Hstate.
  rewrite bool_decide_eq_false_2 by (by intros []).
  destruct (QuestionService.get_question_by_id _ _ _) as [found w1].
  simpl in *. subst found.
  destruct (QuestionService.get_questions _ _ _) as [qs w2].
  simpl in *.
  destruct (AdaptiveEngine.should_continue _ _ _); [|done].
  by destruct (AdaptiveEngine.select_next_question _ _ _ _).
Qed.

(** Under a stopping rule of exactly one question, the first submit of
    the sample session completes it. *)
Lemma completing_submit :
  exists final_proficiency,
    (submit_response Samples.submit_request 10 Samples.quick_world).1
    = {| status_code := 200;
         body := FinalBody "completed" (Some final_proficiency) 1
                   (Some (SupabaseService.accuracy_of 1 1)) |}.
Proof.
  eexists.
  rewrite (submit_response_answer Samples.submit_request 10 Samples.quick_world
             "sess-1" "test_q1" 1 Samples.quick_state Samples.cached_q1);
    [|try reflexivity; try done; try evaluate_service..].
  match goal with
  | |- (if ?c then _ else _) = _ =>
      assert (c = false) as -> by evaluate_service
  end.
  reflexivity.
Qed.

Lemma completing_submit_closes_the_session_witness :
  exists final_proficiency,
    let w' := (submit_response Samples.submit_request 10 Samples.quick_world).2 in
    "completed"%string = "completed"%string /\
    exists session_id,
      sr_session_id Samples.submit_request = Some session_id /\
      (forall t,
         RedisService.get_session_state session_id t (w_redis w') = None) /\
      (forall t,
         (submit_response Samples.submit_request t w').1
         = error_response 404 "Session not found or expired") /\
      (db_up (w_db Samples.quick_world) = true ->
       (exists row, row ∈ test_sessions (w_db Samples.quick_world)
                    /\ ses_id row = session_id) ->
       forall t, exists started_at,
         get_test_status session_id t w'
         = (200%Z, StatusStored session_id "completed" (Some final_proficiency)
                     1 started_at (Some 10%Z))).
Proof.
  destruct completing_submit as [final_proficiency Hanswer].
  exists final_proficiency.
  apply (completing_submit_closes_the_session Samples.submit_request 10
           Samples.quick_world "completed" (Some final_proficiency) 1
           (Some (SupabaseService.accuracy_of 1 1))).
  rewrite Hanswer. reflexivity.
Defined.

(** An exception of the locked body has left the response recorded. *)
Lemma submit_locked_raises session_id question_id response now w w' :
  submit_locked session_id question_id response now w = (Raises, w') ->
  db_up (w_db w) = true ->
  exists row,
    r_session_id row = session_id /\ r_question_id row = question_id /\
    r_response row = response /\
    test_responses (w_db w') = test_responses (w_db w) ++ [row].
Proof.
  unfold submit_locked.
  destruct (RedisService.get_session_state _ _ _) as [state|]; [|done].
  case_bool_decide; [done|].
  pose proof (get_question_by_id_db question_id now w) as Hq.
  destruct (QuestionService.get_question_by_id _ _ _) as [[question|] w1];
    [|done].
  destruct (get_questions_responses (st_question_pool_id state) now w1)
    as [Hup2 Hrows2].
  destruct (QuestionService.get_questions _ _ w1) as [qs w2].
  simpl in Hq, Hup2, Hrows2. intros Hrun Hup.
  assert (db_up (w_db w2) = true) as Hup' by congruence.
  destruct (update_user_proficiency_responses (st_student_id state)
              (AdaptiveEngine.update_ability learning_rate
                 (st_current_proficiency state) question response
                 (QuestionService.create_q_matrix qs)) now (w_db w2))
    as [Hup1 Hrows1].
  simpl in Hrun.
  destruct (AdaptiveEngine.should_continue _ _ _); [|done].
  destruct (AdaptiveEngine.select_next_question _ _ _ _); [done|].
  injection Hrun as <-. simpl.
  unfold SupabaseService.update_session_activity, SupabaseService.store_response.
  rewrite Hup1, Hup'. simpl. rewrite Hup1, Hup'. simpl.
  eexists. split_and!; [| | |by rewrite Hrows1, Hrows2, Hq]; done.
Qed.

(** X30. A submit whose body is a JSON object and that is answered 500
    has recorded the response before it failed: on a reachable warm store
    exactly one response record, of the submitted session, question and
    response, has been appended. *)
Theorem internal_error_submit_has_recorded_the_response
    (data : SubmitRequest) (now : Z) (w : World) :
  status_code (submit_response data now w).1 = 500%Z ->
  db_up (w_db w) = true ->
  exists session_id question_id response row,
    sr_session_id data = Some session_id /\
    sr_question_id data = Some question_id /\
    sr_response data = Some response /\
    r_session_id row = session_id /\ r_question_id row = question_id /\
    r_response row = response /\
    test_responses (w_db (submit_response data now w).2)
    = test_responses (w_db w) ++ [row].
Proof.
  intros Hstatus Hup.
  destruct (submit_response_cases data)
    as [Hinvalid|(session_id & question_id & response & Hsid & Hqid & Hresp & Hrun)].
  { by rewrite Hinvalid in Hstatus. }
  rewrite Hrun in Hstatus |- *. cbv zeta in Hstatus |- *.
  destruct (RedisService.acquire_submission_lock session_id question_id now
              (w_redis w)) as [acquired r].
  simpl in Hstatus |- *. destruct acquired; [|done].
  destruct (submit_locked session_id question_id response now (with_redis w r))
    as [result w1] eqn:Hlocked.
  simpl in Hstatus |- *.
  destruct result as [http_response|].
  - exfalso. revert Hlocked Hstatus. unfold submit_locked.
    destruct (RedisService.get_session_state _ _ _) as [state|];
      [|by intros [= <- <-]].
    case_bool_decide; [by intros [= <- <-]|].
    destruct (QuestionService.get_question_by_id _ _ _) as [[question|] w2];
      [|by intros [= <- <-]].
    destruct (QuestionService.get_questions _ _ _) as [qs w3].
    destruct (AdaptiveEngine.should_continue _ _ _); [|by intros [= <- <-]].
    destruct (AdaptiveEngine.select_next_question _ _ _ _); [|done].
    by intros [= <- <-].
  - destruct (submit_locked_raises _ _ _ _ _ _ Hlocked Hup)
      as (row & Hs & Hq & Hr & Hrows).
    exists session_id, question_id, response, row. by split_and!.
Qed.

(** On the one-question pool of the test suite, under the default
    stopping rule, the first submit already exhausts the pool. *)
Lemma exhausting_submit :
  (submit_response Samples.submit_request 10 Samples.single_world).1
  = internal_server_error.
Proof.
  rewrite (submit_response_answer Samples.submit_request 10 Samples.single_world
             "sess-1" "test_q1" 1 Samples.started_state Samples.cached_q1);
    [evaluate_service|try reflexivity; try done; try evaluate_service..].
Qed.

Lemma internal_error_submit_has_recorded_the_response_witness :
  exists session_id question_id response row,
    sr_session_id Samples.submit_request = Some session_id /\
    sr_question_id Samples.submit_request = Some question_id /\
    sr_response Samples.submit_request = Some response /\
    r_session_id row = session_id /\ r_question_id row = question_id /\
    r_response row = response /\
    test_responses
      (w_db (submit_response Samples.submit_request 10 Samples.single_world).2)
    = test_responses (w_db Samples.single_world) ++ [row].
Proof.
  apply (internal_error_submit_has_recorded_the_response Samples.submit_request
           10 Samples.single_world).
  - rewrite exhausting_submit. reflexivity.
  - reflexivity.
Defined.

End CoordinatorFacts.
